(** * vk-terminal-bot: the terminal session manager

    A shallow embedding of [src/terminal/terminal_manager.py] and the
    properties of its output cleaner, output reader, reconnection logic and
    command executor.

    Conventions.
    - Python [str] is a list of Unicode code points, [bytes] a list of
      [Byte.byte].
    - Event-loop time is an integer number of milliseconds, so
      [asyncio.sleep(0.1)] is a sleep of 100 and the test
      [now - start > timeout] reads [now - start >? 1000 * timeout]. The
      source compares the floats of [loop.time()]; a test that falls
      exactly on its bound may come out differently there.
    - The manager is used by one logical caller: [async with
      self._reconnect_lock] never blocks and is not represented, and no
      other coroutine touches the session while a call is suspended in an
      [await].
    - Logging has no effect on the session and is left out. *)

From Stdlib Require Import List ZArith NArith Bool Lia.
From Stdlib.Strings Require Import String Ascii Byte.
Import ListNotations.

Set Implicit Arguments.

(** ** Python text *)

Module Py.

Local Open Scope N_scope.

Definition char := N.
Definition str := list char.
Definition bytes := list byte.

(** A literal of the source, written as an ASCII string. *)
Definition lit (s : string) : str := map N_of_ascii (list_ascii_of_string s).

Definition NL : char := 10.
Definition ESC : char := 27.

(** [not s] for a Python sequence. *)
Definition falsy {A} (s : list A) : bool :=
  match s with [] => true | _ => false end.

Fixpoint startswith (p s : str) : bool :=
  match p, s with
  | [], _ => true
  | _ :: _, [] => false
  | a :: p', b :: s' => (a =? b) && startswith p' s'
  end.

(** [p in s] on strings: substring test. *)
Fixpoint contains (p s : str) : bool :=
  startswith p s ||
  match s with
  | [] => false
  | _ :: s' => contains p s'
  end.

(** Line boundaries of [str.splitlines()]. *)
Definition is_linebreak (c : char) : bool :=
  (c =? 10) || (c =? 13) || (c =? 11) || (c =? 12) || (c =? 28) ||
  (c =? 29) || (c =? 30) || (c =? 133) || (c =? 8232) || (c =? 8233).

(** [cur] holds, reversed, the characters of the line being read. *)
Fixpoint splitlines_from (cur s : str) : list str :=
  match s with
  | [] => if falsy cur then [] else [rev cur]
  | c :: s' =>
      if is_linebreak c then
        rev cur ::
        match s' with
        | d :: s'' =>
            if (c =? 13) && (d =? 10) then splitlines_from [] s''
            else splitlines_from [] s'
        | [] => splitlines_from [] s'
        end
      else splitlines_from (c :: cur) s'
  end.

Definition splitlines (s : str) : list str := splitlines_from [] s.

(** [str.isspace()] on one character: the whitespace of [str.strip()]. *)
Definition isspace (c : char) : bool :=
  ((9 <=? c) && (c <=? 13)) || ((28 <=? c) && (c <=? 32)) ||
  (c =? 133) || (c =? 160) || (c =? 5760) ||
  ((8192 <=? c) && (c <=? 8202)) || (c =? 8232) || (c =? 8233) ||
  (c =? 8239) || (c =? 8287) || (c =? 12288).

Fixpoint lstrip (s : str) : str :=
  match s with
  | c :: s' => if isspace c then lstrip s' else s
  | [] => []
  end.

Definition rstrip (s : str) : str := rev (lstrip (rev s)).
Definition strip (s : str) : str := rstrip (lstrip s).

(** [sep.join(l)]. *)
Fixpoint join (sep : str) (l : list str) : str :=
  match l with
  | [] => []
  | [x] => x
  | x :: l' => x ++ sep ++ join sep l'
  end.

End Py.

(** ** Regular expressions, as [re] matches them

    A backtracking matcher in continuation-passing style: alternatives are
    tried in order, [?] and [*] prefer the longer match, [*?] the shorter,
    and the first way to reach the end of the pattern wins. The repetitions
    of the one pattern of the source range over character classes. *)

Module Re.

Import Py.
Local Open Scope N_scope.

Inductive regex : Type :=
| Cls (p : char -> bool)
| Cat (r1 r2 : regex)
| Alt (r1 r2 : regex)
| Opt (r : regex)
| Star (p : char -> bool)
| LazyStar (p : char -> bool).

Definition orelse {A} (a b : option A) : option A :=
  match a with Some _ => a | None => b end.

Fixpoint star (p : char -> bool) (s : str) (k : str -> option str)
  : option str :=
  match s with
  | c :: s' => if p c then orelse (star p s' k) (k s) else k s
  | [] => k s
  end.

Fixpoint lazy_star (p : char -> bool) (s : str) (k : str -> option str)
  : option str :=
  orelse (k s)
    match s with
    | c :: s' => if p c then lazy_star p s' k else None
    | [] => None
    end.

(** [run r s k]: match [r] at the head of [s], then hand the rest to [k]. *)
Fixpoint run (r : regex) (s : str) (k : str -> option str) : option str :=
  match r with
  | Cls p =>
      match s with
      | c :: s' => if p c then k s' else None
      | [] => None
      end
  | Cat r1 r2 => run r1 s (fun s' => run r2 s' k)
  | Alt r1 r2 => orelse (run r1 s k) (run r2 s k)
  | Opt r1 => orelse (run r1 s k) (k s)
  | Star p => star p s k
  | LazyStar p => lazy_star p s k
  end.

(** What is left of [s] after the match of [r] at its head, if any. *)
Definition match_at (r : regex) (s : str) : option str := run r s Some.

(** [skip] counts the characters of the current match still to be dropped. *)
Fixpoint sub_from (r : regex) (skip : nat) (s : str) : str :=
  match s with
  | [] => []
  | c :: s' =>
      match skip with
      | S n => sub_from r n s'
      | O =>
          match match_at r s with
          | Some rest =>
              match (List.length s - List.length rest)%nat with
              | S n => sub_from r n s'
              | O => c :: sub_from r O s'
              end
          | None => c :: sub_from r O s'
          end
      end
  end.

(** [re.compile(r).sub('', s)]. *)
Definition sub_empty (r : regex) (s : str) : str := sub_from r O s.

Definition lit1 (c : char) : regex := Cls (N.eqb c).
Definition range (lo hi : char) (c : char) : bool := (lo <=? c) && (c <=? hi).
Definition dot (c : char) : bool := negb (c =? NL).

End Re.

(** ** The output cleaner *)

Module Cleaner.

Import Py Re.
Local Open Scope N_scope.

(** [(?:\x1B[@-Z\\-_]|\x1B\[?.*?[ -/]*[@-~])]; in the first class [\\-_] is
    the range from the backslash to the underscore. *)
Definition ansi_escape : regex :=
  Alt (Cat (lit1 ESC) (Cls (fun c => range 64 90 c || range 92 95 c)))
      (Cat (lit1 ESC)
        (Cat (Opt (lit1 91))
          (Cat (LazyStar dot)
            (Cat (Star (range 32 47)) (Cls (range 64 126)))))).

(** [self.prompt_markers = ['$ ', '# ', '> ']], set in [__init__] and never
    assigned again. *)
Definition prompt_markers : list str := [lit "$ "; lit "# "; lit "> "].

(** [line and all(marker not in line for marker in self.prompt_markers)]. *)
Definition keeps (line : str) : bool :=
  negb (falsy line) &&
  forallb (fun marker => negb (contains marker line)) prompt_markers.

(** The loop over [lines]: strip, test, append. *)
Fixpoint filter_lines (lines : list str) : list str :=
  match lines with
  | [] => []
  | line :: rest =>
      let line := strip line in
      if keeps line then line :: filter_lines rest else filter_lines rest
  end.

(** [if lines and command in lines[0]: lines = lines[1:]]. *)
Definition drop_echo (command : str) (lines : list str) : list str :=
  match lines with
  | first :: rest => if contains command first then rest else lines
  | [] => lines
  end.

Definition _clean_output (command output : str) : str :=
  if falsy output then []
  else
    let cleaned_output := sub_empty ansi_escape output in
    let lines := splitlines cleaned_output in
    let lines := drop_echo command lines in
    join [NL] (filter_lines lines).

(** The cleaning of the lines after the first one of the escape-stripped
    output, whatever the first line is. *)
Definition without_first_line (output : str) : str :=
  join [NL] (filter_lines (tl (splitlines (sub_empty ansi_escape output)))).

End Cleaner.

(** ** UTF-8, as [bytes.decode] and [str.encode] implement it *)

Module Utf8.

Import Py.
Local Open Scope N_scope.

(** A sequence in progress: the bits read so far, the number of continuation
    bytes still expected, and the range allowed for the next one (narrower
    than [80..BF] after the lead bytes [E0], [ED], [F0] and [F4]). *)
Record partial : Type := mkPartial { acc : N; more : nat; lo : N; hi : N }.

Inductive lead_kind : Type :=
| Single (c : char)
| Begin (p : partial)
| BadStart.

Definition lead (b : N) : lead_kind :=
  if b <? 128 then Single b
  else if b <? 194 then BadStart
  else if b <? 224 then Begin (mkPartial (N.land b 31) 1 128 191)
  else if b =? 224 then Begin (mkPartial (N.land b 15) 2 160 191)
  else if b =? 237 then Begin (mkPartial (N.land b 15) 2 128 159)
  else if b <? 240 then Begin (mkPartial (N.land b 15) 2 128 191)
  else if b =? 240 then Begin (mkPartial (N.land b 7) 3 144 191)
  else if b <? 244 then Begin (mkPartial (N.land b 7) 3 128 191)
  else if b =? 244 then Begin (mkPartial (N.land b 7) 3 128 143)
  else BadStart.

(** Decoded items; [None] stands for one ill-formed subsequence (an invalid
    start byte, a sequence cut by an invalid continuation byte, or a sequence
    cut by the end of the data). *)
Fixpoint scan (st : option partial) (bs : list N) : list (option char) :=
  match bs with
  | [] => match st with Some _ => [None] | None => [] end
  | b :: bs' =>
      let fresh :=
        match lead b with
        | Single c => Some c :: scan None bs'
        | Begin p => scan (Some p) bs'
        | BadStart => None :: scan None bs'
        end in
      match st with
      | None => fresh
      | Some p =>
          if (lo p <=? b) && (b <=? hi p) then
            let a := N.lor (N.shiftl (acc p) 6) (N.land b 63) in
            match more p with
            | S (S n) => scan (Some (mkPartial a (S n) 128 191)) bs'
            | _ => Some a :: scan None bs'
            end
          else None :: fresh
      end
  end.

Fixpoint all_some {A} (l : list (option A)) : option (list A) :=
  match l with
  | [] => Some []
  | Some a :: l' => option_map (cons a) (all_some l')
  | None :: _ => None
  end.

Definition items (b : bytes) : list (option char) :=
  scan None (map Byte.to_N b).

(** [b.decode('utf-8')]; [None] is [UnicodeDecodeError]. *)
Definition decode (b : bytes) : option str := all_some (items b).

(** [b.decode('utf-8', errors='replace')]. *)
Definition decode_replace (b : bytes) : str :=
  map (fun o => match o with Some c => c | None => 65533 end) (items b).

Definition encode_char (c : char) : option (list N) :=
  if c <? 128 then Some [c]
  else if c <? 2048 then
    Some [N.lor 192 (N.shiftr c 6); N.lor 128 (N.land c 63)]
  else if (55296 <=? c) && (c <=? 57343) then None
  else if c <? 65536 then
    Some [N.lor 224 (N.shiftr c 12); N.lor 128 (N.land (N.shiftr c 6) 63);
          N.lor 128 (N.land c 63)]
  else if c <? 1114112 then
    Some [N.lor 240 (N.shiftr c 18); N.lor 128 (N.land (N.shiftr c 12) 63);
          N.lor 128 (N.land (N.shiftr c 6) 63); N.lor 128 (N.land c 63)]
  else None.

Fixpoint encode_N (s : str) : option (list N) :=
  match s with
  | [] => Some []
  | c :: s' =>
      match encode_char c, encode_N s' with
      | Some b, Some bs => Some (b ++ bs)
      | _, _ => None
      end
  end.

(** [s.encode('utf-8')]; [None] is [UnicodeEncodeError]. *)
Definition encode (s : str) : option bytes :=
  match encode_N s with
  | Some ns => all_some (map Byte.of_N ns)
  | None => None
  end.

End Utf8.

(** ** Exceptions and the operating system *)

Module Sys.

Import Py.

Definition fd := Z.

(** The manager runs in the parent of [os.fork()], where the value returned
    is the positive id of the child; the child replaces itself by the shell
    ([os.execv]) or exits ([os._exit]) and never returns into the manager. *)
Definition pid := positive.

Inductive runtime_message : Type :=
| TerminalNotStarted      (* "Terminal not started or process not alive" *)
| FileDescriptorIsNone    (* "Terminal file descriptor is None" *)
| NoDataAfterMaxRetries   (* "No data received from terminal after maximum retries" *)
| FailedToEstablish       (* "Failed to establish terminal connection" *)
| ShellInitFailed         (* "Shell initialization failed" *)
| IncompleteWrite (written len : Z).

(** The exceptions of the program. [TimeoutError] carries the timeout of its
    message. [OSError] stands for the class itself and for its subclasses
    other than the four listed. *)
Inductive exn : Type :=
| BlockingIOError
| ProcessLookupError
| PermissionError
| TimeoutError (timeout : Z)
| OSError
| RuntimeError (m : runtime_message)
| UnicodeDecodeError
| UnicodeEncodeError
| TermiosError
| TypeError.

(** [isinstance(e, OSError)]: [TimeoutError], like [BlockingIOError],
    [ProcessLookupError] and [PermissionError], is a subclass of [OSError]. *)
Definition is_OSError (e : exn) : bool :=
  match e with
  | BlockingIOError | ProcessLookupError | PermissionError
  | TimeoutError _ | OSError => true
  | _ => false
  end.

Definition is_RuntimeError (e : exn) : bool :=
  match e with RuntimeError _ => true | _ => false end.

Definition is_BlockingIOError (e : exn) : bool :=
  match e with BlockingIOError => true | _ => false end.

Definition is_ProcessLookupError (e : exn) : bool :=
  match e with ProcessLookupError => true | _ => false end.

Definition is_TimeoutError (e : exn) : bool :=
  match e with TimeoutError _ => true | _ => false end.

(** Every exception above derives from [Exception]. *)
Definition is_Exception (e : exn) : bool := true.

(** Failures of a system call, by the class of the [OSError] raised. *)
Inductive errno : Type := EAGAIN | ESRCH | EPERM | ETIMEDOUT | EIO.

Definition os_error (e : errno) : exn :=
  match e with
  | EAGAIN => BlockingIOError
  | ESRCH => ProcessLookupError
  | EPERM => PermissionError
  | ETIMEDOUT => TimeoutError 0
  | EIO => OSError
  end.

Inductive signal : Type := SIG0 | SIGKILL.

(** The list returned by [termios.tcgetattr]. *)
Record termios_attrs : Type := mkAttrs {
  iflag : Z; oflag : Z; cflag : Z; lflag : Z;
  ispeed : Z; ospeed : Z; cc : list Z
}.

Definition ECHO : Z := 8.
Definition O_NONBLOCK : Z := 2048.

Record TerminalSize : Type := mkSize {
  rows : Z; cols : Z; xpixel : Z; ypixel : Z
}.

Definition default_size : TerminalSize := mkSize 24 80 0 0.

(** The system calls of the manager over a world [W]. A call returns its
    value or the failure it raises, and the world after it. Time is in
    milliseconds. *)
Record OS (W : Type) : Type := mkOS {
  loop_time : W -> Z;
  sleep : Z -> W -> W;
  openpty : W -> (errno + fd * fd) * W;
  tcgetattr : fd -> W -> option termios_attrs * W;
  tcsetattr : fd -> termios_attrs -> W -> option unit * W;
  ioctl_winsz : fd -> TerminalSize -> W -> (errno + unit) * W;
  fork : W -> (errno + pid) * W;
  close : fd -> W -> (errno + unit) * W;
  fcntl_getfl : fd -> W -> (errno + Z) * W;
  fcntl_setfl : fd -> Z -> W -> (errno + unit) * W;
  kill : pid -> signal -> W -> (errno + unit) * W;
  read : fd -> Z -> W -> (errno + bytes) * W;
  write : fd -> bytes -> W -> (errno + Z) * W
}.

End Sys.

(** ** The session manager *)

Module Manager.

Import Py Cleaner Utf8 Sys.
Local Open Scope Z_scope.

(** The attributes of [TerminalManager] that change after [__init__]
    (and [working_dir], which differs between instances). *)
Record TerminalManager : Type := mkManager {
  working_dir : str;
  master_fd : option fd;
  slave_fd : option fd;
  shell_pid : option pid;
  _process_alive : bool;
  _reconnect_attempts : Z
}.

(** Attributes set in [__init__] and never assigned again. *)
Definition MAX_RECONNECT_ATTEMPTS : Z := 3.
Definition READ_TIMEOUT : Z := 100.
Definition MAX_READ_RETRIES : Z := 50.

Definition __init__ (working_dir : str) : TerminalManager :=
  mkManager working_dir None None None false 0.

Definition set_master_fd (v : option fd) (t : TerminalManager) :=
  mkManager (working_dir t) v (slave_fd t) (shell_pid t)
    (_process_alive t) (_reconnect_attempts t).
Definition set_slave_fd (v : option fd) (t : TerminalManager) :=
  mkManager (working_dir t) (master_fd t) v (shell_pid t)
    (_process_alive t) (_reconnect_attempts t).
Definition set_shell_pid (v : option pid) (t : TerminalManager) :=
  mkManager (working_dir t) (master_fd t) (slave_fd t) v
    (_process_alive t) (_reconnect_attempts t).
Definition set_process_alive (v : bool) (t : TerminalManager) :=
  mkManager (working_dir t) (master_fd t) (slave_fd t) (shell_pid t)
    v (_reconnect_attempts t).
Definition set_reconnect_attempts (v : Z) (t : TerminalManager) :=
  mkManager (working_dir t) (master_fd t) (slave_fd t) (shell_pid t)
    (_process_alive t) v.

(** Truth value of an [Optional[int]] attribute: [None] and [0] are false. *)
Definition truthy_fd (o : option fd) : bool :=
  match o with Some n => negb (n =? 0) | None => false end.

(** *** Computations: state, exceptions, bounded loops *)

Inductive outcome (S A : Type) : Type :=
| Ret (a : A) (s : S)
| Raise (e : exn) (s : S)
| OutOfFuel.

Arguments Ret {S A} a s.
Arguments Raise {S A} e s.
Arguments OutOfFuel {S A}.

Section WithOS.

Context {W : Type} (os : OS W).

(** Every loop of the source runs at most [fuel] iterations; a loop that
    needs more yields [OutOfFuel]. *)
Variable fuel : nat.

Definition state : Type := TerminalManager * W.
Definition M (A : Type) : Type := state -> outcome state A.

Definition ret {A} (a : A) : M A := fun s => Ret a s.
Definition raise {A} (e : exn) : M A := fun s => Raise e s.
Definition bind {A B} (m : M A) (k : A -> M B) : M B :=
  fun s =>
    match m s with
    | Ret a s' => k a s'
    | Raise e s' => Raise e s'
    | OutOfFuel => OutOfFuel
    end.

Notation "x <- m ;; k" := (bind m (fun x => k))
  (at level 61, m at next level, right associativity).
Notation "m ;; k" := (bind m (fun _ => k))
  (at level 61, right associativity).

(** [try: m  except <classes> as e: h e]. *)
Definition try_except {A} (m : M A) (classes : exn -> bool) (h : exn -> M A)
  : M A :=
  fun s =>
    match m s with
    | Raise e s' => if classes e then h e s' else Raise e s'
    | r => r
    end.

(** [try: m  except c1: h1  except c2: h2]. *)
Definition try_except2 {A} (m : M A) (c1 : exn -> bool) (h1 : exn -> M A)
  (c2 : exn -> bool) (h2 : exn -> M A) : M A :=
  fun s =>
    match m s with
    | Raise e s' =>
        if c1 e then h1 e s' else if c2 e then h2 e s' else Raise e s'
    | r => r
    end.

Definition get_self : M TerminalManager := fun s => Ret (fst s) s.
Definition update (f : TerminalManager -> TerminalManager) : M unit :=
  fun s => Ret tt (f (fst s), snd s).

(** A system call that raises an [OSError]. *)
Definition syscall {A} (f : W -> (errno + A) * W) : M A :=
  fun s =>
    match f (snd s) with
    | (inr a, w) => Ret a (fst s, w)
    | (inl e, w) => Raise (os_error e) (fst s, w)
    end.

(** A call of the [termios] module, which raises [termios.error]. *)
Definition termios_call {A} (f : W -> option A * W) : M A :=
  fun s =>
    match f (snd s) with
    | (Some a, w) => Ret a (fst s, w)
    | (None, w) => Raise TermiosError (fst s, w)
    end.

Definition time : M Z := fun s => Ret (loop_time os (snd s)) s.
Definition asyncio_sleep (d : Z) : M unit :=
  fun s => Ret tt (fst s, sleep os d (snd s)).

(** [while True: body], where [body] yields [inl] to go on with a new loop
    state and [inr] to leave the loop. *)
Fixpoint loop {L R} (n : nat) (body : L -> M (L + R)) (l : L) : M R :=
  match n with
  | O => fun _ => OutOfFuel
  | S n' =>
      r <- body l ;;
      match r with
      | inl l' => loop n' body l'
      | inr x => ret x
      end
  end.

(** *** [stop] *)

Definition stop : M unit :=
  self <- get_self ;;
  match shell_pid self with
  | Some p =>
      try_except (syscall (kill os p SIGKILL))
        is_ProcessLookupError (fun _ => ret tt)
  | None => ret tt
  end ;;
  self <- get_self ;;
  match master_fd self with
  | Some m => try_except (syscall (close os m)) is_OSError (fun _ => ret tt)
  | None => ret tt
  end ;;
  self <- get_self ;;
  match slave_fd self with
  | Some sl => try_except (syscall (close os sl)) is_OSError (fun _ => ret tt)
  | None => ret tt
  end ;;
  update (set_master_fd None) ;;
  update (set_slave_fd None) ;;
  update (set_shell_pid None) ;;
  update (set_process_alive false).

(** *** [_set_terminal_size], [_clear_initial_output], [_verify_shell] *)

Definition _set_terminal_size (size : TerminalSize) : M unit :=
  self <- get_self ;;
  match master_fd self with
  | Some m => syscall (ioctl_winsz os m size)
  | None => ret tt
  end.

(** [os.read(self.master_fd, n)]; with no descriptor [os.read(None, n)]
    raises [TypeError]. *)
Definition os_read (n : Z) : M bytes :=
  self <- get_self ;;
  match master_fd self with
  | Some m => syscall (read os m n)
  | None => raise TypeError
  end.

Definition os_write (b : bytes) : M Z :=
  self <- get_self ;;
  match master_fd self with
  | Some m => syscall (write os m b)
  | None => raise TypeError
  end.

Definition _clear_initial_output : M unit :=
  self <- get_self ;;
  if negb (truthy_fd (master_fd self)) || negb (_process_alive self)
  then ret tt
  else
    try_except
      (start_time <- time ;;
       loop fuel
         (fun _ : unit =>
            now <- time ;;
            if now - start_time <? 1000 then
              try_except
                (chunk <- os_read 4096 ;;
                 if falsy chunk then ret (inr tt) else ret (inl tt))
                is_OSError (fun _ => asyncio_sleep 100 ;; ret (inl tt))
            else ret (inr tt))
         tt)
      is_Exception (fun _ => ret tt).

Definition ascii_bytes (s : string) : bytes :=
  match encode (lit s) with Some b => b | None => [] end.

(** ["echo 'shell_test'\n".encode('utf-8')] and ["pwd\n".encode('utf-8')]. *)
Definition test_cmd : bytes := ascii_bytes "echo 'shell_test'" ++ ["010"%byte].
Definition pwd_cmd : str := lit "pwd" ++ [NL].
Definition pwd_bytes : bytes := ascii_bytes "pwd" ++ ["010"%byte].

Definition _verify_shell : M bool :=
  try_except
    (self <- get_self ;;
     match master_fd self with
     | None => ret false
     | Some _ =>
         if negb (_process_alive self) then ret false
         else
           os_write test_cmd ;;
           start_time <- time ;;
           loop fuel
             (fun _ : unit =>
                now <- time ;;
                if now - start_time <? 5000 then
                  try_except
                    (chunk <- os_read 1024 ;;
                     match decode chunk with
                     | None => raise UnicodeDecodeError
                     | Some response =>
                         if contains (lit "shell_test") response
                         then ret (inr true) else ret (inl tt)
                     end)
                    is_OSError (fun _ => asyncio_sleep 100 ;; ret (inl tt))
                else ret (inr false))
             tt
     end)
    is_Exception (fun _ => ret false).

(** *** [_read_terminal_output] *)

(** The local variables of the read loop. *)
Record reader : Type := mkReader {
  output_chunks : list str;
  last_read_time : Z;
  retry_count : Z;
  buffer : bytes
}.

(** One iteration of [while True]; [timeout] is in seconds. *)
Definition read_iteration (timeout start_time : Z) (l : reader)
  : M (reader + reader) :=
  current_time <- time ;;
  if current_time - start_time >? 1000 * timeout then
    if falsy (output_chunks l) then raise (TimeoutError timeout)
    else ret (inr l)
  else if (current_time - last_read_time l >? 2000)
          && negb (falsy (output_chunks l)) then ret (inr l)
  else
    try_except2
      (self <- get_self ;;
       match master_fd self with
       | None => raise (RuntimeError FileDescriptorIsNone)
       | Some _ =>
           chunk <- os_read 4096 ;;
           if negb (falsy chunk) then
             let buffer' := buffer l ++ chunk in
             match decode buffer' with
             | Some text =>
                 ret (inl (mkReader (output_chunks l ++ [text])
                             current_time 0 []))
             | None =>
                 ret (inl (mkReader (output_chunks l) (last_read_time l)
                             (retry_count l) buffer'))
             end
           else
             let retry_count' := retry_count l + 1 in
             let l' := mkReader (output_chunks l) (last_read_time l)
                         retry_count' (buffer l) in
             if retry_count' >=? MAX_READ_RETRIES then
               if falsy (output_chunks l) then
                 raise (RuntimeError NoDataAfterMaxRetries)
               else ret (inr l')
             else asyncio_sleep READ_TIMEOUT ;; ret (inl l')
       end)
      is_BlockingIOError (fun _ => asyncio_sleep READ_TIMEOUT ;; ret (inl l))
      is_OSError (fun _ => ret (inr l)).

Definition _read_terminal_output (timeout : Z) : M str :=
  self <- get_self ;;
  if negb (truthy_fd (master_fd self)) || negb (_process_alive self)
  then raise (RuntimeError TerminalNotStarted)
  else
    start_time <- time ;;
    l <- loop fuel (read_iteration timeout start_time)
           (mkReader [] start_time 0 []) ;;
    let chunks :=
      if negb (falsy (buffer l))
      then output_chunks l ++ [decode_replace (buffer l)]
      else output_chunks l in
    ret (List.concat chunks).

(** *** [start] *)

Definition clear_echo (a : termios_attrs) : termios_attrs :=
  mkAttrs (iflag a) (oflag a) (cflag a) (Z.land (lflag a) (Z.lnot ECHO))
    (ispeed a) (ospeed a) (cc a).

Definition start : M unit :=
  try_except
    (stop ;;
     p <- syscall (openpty os) ;;
     update (set_master_fd (Some (fst p))) ;;
     update (set_slave_fd (Some (snd p))) ;;
     attrs <- termios_call (tcgetattr os (fst p)) ;;
     termios_call (tcsetattr os (fst p) (clear_echo attrs)) ;;
     _set_terminal_size default_size ;;
     child <- syscall (fork os) ;;
     update (set_shell_pid (Some child)) ;;
     (* parent process *)
     self <- get_self ;;
     match slave_fd self with
     | Some sl =>
         syscall (close os sl) ;;
         update (set_slave_fd None)
     | None => ret tt
     end ;;
     update (set_process_alive true) ;;
     self <- get_self ;;
     match master_fd self with
     | Some m =>
         flags <- syscall (fcntl_getfl os m) ;;
         syscall (fcntl_setfl os m (Z.lor flags O_NONBLOCK))
     | None => ret tt
     end ;;
     asyncio_sleep 500 ;;
     ok <- _verify_shell ;;
     if negb ok then raise (RuntimeError ShellInitFailed)
     else _clear_initial_output)
    is_Exception (fun e => stop ;; raise e).

(** *** [_ensure_connection] *)

(** The body of [try] under the reconnection lock. *)
Definition reconnect : M bool :=
  update (fun t => set_reconnect_attempts (_reconnect_attempts t + 1) t) ;;
  stop ;;
  asyncio_sleep 1000 ;;
  start ;;
  self <- get_self ;;
  if _process_alive self then
    update (set_reconnect_attempts 0) ;;
    ret true
  else ret false.

(** The liveness probe at the head of [_ensure_connection]: [true] stands
    for [return True]. *)
Definition probe : M bool :=
  self <- get_self ;;
  match _process_alive self, shell_pid self with
  | true, Some p =>
      try_except
        (syscall (kill os p SIG0) ;; ret true)
        is_ProcessLookupError
        (fun _ => update (set_process_alive false) ;; ret false)
  | _, _ => ret false
  end.

Definition _ensure_connection : M bool :=
  connected <- probe ;;
  if connected : bool then ret true
  else
    (* async with self._reconnect_lock *)
    self <- get_self ;;
    if _reconnect_attempts self >=? MAX_RECONNECT_ATTEMPTS then ret false
    else try_except reconnect is_Exception (fun _ => ret false).

(** *** [execute_command] and its helpers *)

Definition _send_command_to_terminal (command : str) : M unit :=
  match encode (command ++ [NL]) with
  | None => raise UnicodeEncodeError
  | Some cmd_bytes =>
      written <- os_write cmd_bytes ;;
      if negb (written =? Z.of_nat (List.length cmd_bytes))
      then raise (RuntimeError
                    (IncompleteWrite written (Z.of_nat (List.length cmd_bytes))))
      else ret tt
  end.

Definition _retrieve_command_output (timeout : Z) : M str :=
  try_except (_read_terminal_output timeout)
    is_TimeoutError (fun e => raise e).

Definition _get_current_directory : M str :=
  self <- get_self ;;
  found <-
    match master_fd self with
    | Some _ =>
        os_write pwd_bytes ;;
        try_except
          (output <- _read_terminal_output 5 ;;
           let cleaned := _clean_output pwd_cmd output in
           if negb (falsy cleaned) then ret (Some (strip cleaned))
           else ret None)
          is_Exception (fun _ => ret None)
    | None => ret None
    end ;;
  match found with
  | Some cwd => ret cwd
  | None => self <- get_self ;; ret (working_dir self)
  end.

(** The body of [try] in one round of [for attempt in range(2)]. *)
Definition attempt (command : str) (timeout : Z) : M (str * str) :=
  connected <- _ensure_connection ;;
  if negb connected then raise (RuntimeError FailedToEstablish)
  else
    _clear_initial_output ;;
    self <- get_self ;;
    match master_fd self with
    | None => raise (RuntimeError FileDescriptorIsNone)
    | Some _ =>
        _send_command_to_terminal command ;;
        output <- _retrieve_command_output timeout ;;
        cwd <- _get_current_directory ;;
        let cleaned_output := _clean_output command output in
        ret (cwd, cleaned_output)
    end.

Definition caught_by_execute (e : exn) : bool :=
  is_OSError e || is_RuntimeError e.

(** The loop over [range(2)], unrolled: the handler of round 0 sleeps and
    goes on to round 1, the handler of round 1 raises again. *)
Definition execute_command (command : str) (timeout : Z) : M (str * str) :=
  try_except (attempt command timeout) caught_by_execute
    (fun _ =>
       asyncio_sleep 1000 ;;
       try_except (attempt command timeout) caught_by_execute
         (fun e => raise e)).

(** *** Sequences of public operations *)

Inductive operation : Type :=
| Start
| Stop
| Execute (command : str) (timeout : Z).

Definition perform (o : operation) : M unit :=
  match o with
  | Start => start
  | Stop => stop
  | Execute command timeout => execute_command command timeout ;; ret tt
  end.

(** The state in which a call leaves the manager, whether it returns or
    raises. *)
Definition final {A} (r : outcome state A) : option state :=
  match r with
  | Ret _ s | Raise _ s => Some s
  | OutOfFuel => None
  end.

Fixpoint perform_all (ops : list operation) (s : state) : option state :=
  match ops with
  | [] => Some s
  | o :: ops' =>
      match final (perform o s) with
      | Some s' => perform_all ops' s'
      | None => None
      end
  end.

End WithOS.

Arguments state W : clear implicits.
Arguments M W A : clear implicits.

(** The not-alive state of the session: what [stop] assigns. *)
Definition reset (t : TerminalManager) : TerminalManager :=
  mkManager (working_dir t) None None None false (_reconnect_attempts t).

(** The managers reachable from a fresh one by public operations, each
    completed (by a return or by an exception) in an arbitrary world. *)
Inductive reachable {W} (os : OS W) : TerminalManager -> Prop :=
| reachable_init : forall working_dir, reachable os (__init__ working_dir)
| reachable_step : forall fuel o t w s',
    reachable os t ->
    final (perform os fuel o (t, w)) = Some s' ->
    reachable os (fst s').

(** The child is found dead on entry of [_ensure_connection]: the session is
    not marked alive, or the probe [os.kill(pid, 0)] finds no process. *)
Definition child_dead {W} (os : OS W) (s : state W) : Prop :=
  match _process_alive (fst s), shell_pid (fst s) with
  | true, Some p => fst (kill os p SIG0 (snd s)) = inl ESRCH
  | _, _ => True
  end.

(** Killing the child, if one is tracked, succeeds or finds it gone. *)
Definition kill_tolerated {W} (os : OS W) (s : state W) : Prop :=
  match shell_pid (fst s) with
  | Some p =>
      fst (kill os p SIGKILL (snd s)) = inr tt \/
      fst (kill os p SIGKILL (snd s)) = inl ESRCH
  | None => True
  end.

(** *** Assertions on computations

    [triple P m Q E]: from a manager satisfying [P], in any world, [m]
    returns [a] with a manager satisfying [Q a], or raises with a manager
    satisfying [E]. *)
Definition triple {W A} (P : TerminalManager -> Prop) (m : M W A)
  (Q : A -> TerminalManager -> Prop) (E : TerminalManager -> Prop) : Prop :=
  forall t w, P t ->
    match m (t, w) with
    | Ret a s => Q a (fst s)
    | Raise _ s => E (fst s)
    | OutOfFuel => True
    end.

(** [m] leaves the manager as it found it. *)
Definition unchanged {W A} (m : M W A) : Prop :=
  forall t0, triple (eq t0) m (fun _ => eq t0) (eq t0).

(** The result of [m], once it has one, is the same with more fuel. *)
Definition steady {W A} (m : nat -> M W A) : Prop :=
  forall n k s r, m n s = r -> r <> OutOfFuel -> m (n + k)%nat s = r.

(** The properties of the session discussed below. *)
Definition alive_has_master (t : TerminalManager) : Prop :=
  _process_alive t = true -> master_fd t <> None.

Definition master_iff_alive (t : TerminalManager) : Prop :=
  master_fd t <> None <-> _process_alive t = true.

Definition attempts_in_range (t : TerminalManager) : Prop :=
  0 <= _reconnect_attempts t <= MAX_RECONNECT_ATTEMPTS.

(** What holds of every reachable manager. *)
Definition sound (t : TerminalManager) : Prop :=
  attempts_in_range t /\ alive_has_master t.

(** The budget counter has the value [c]. *)
Definition budget (c : Z) (t : TerminalManager) : Prop :=
  _reconnect_attempts t = c.

End Manager.

(** ** A simulated terminal

    A small deterministic world used to run the manager on concrete
    scenarios. The child answers the successive writes on the terminal by
    scripted output, delivered after scripted delays; calls take no time and
    only [asyncio.sleep] advances the clock. *)

Module Sim.

Import Py Sys.
Local Open Scope Z_scope.

Inductive write_answer : Type :=
| WriteAll
| WriteOnly (n : Z)
| WriteFails (e : errno).

Record world : Type := mkWorld {
  now : Z;
  (** output on its way to the master side: arrival time and data *)
  pending : list (Z * bytes);
  (** the output caused by each of the next writes: delays and data *)
  replies : list (list (Z * bytes));
  (** what a read yields when nothing has arrived: a failure, or [b''] *)
  idle : option errno;
  kill_answers : list (option errno);
  openpty_answers : list (option errno);
  write_answers : list write_answer
}.

Definition arrived (w : world) : bytes :=
  List.concat (map snd (filter (fun p => fst p <=? now w) (pending w))).

Definition not_arrived (w : world) : list (Z * bytes) :=
  filter (fun p => negb (fst p <=? now w)) (pending w).

Definition sim_read (n : Z) (w : world) : (errno + bytes) * world :=
  match arrived w with
  | [] =>
      (match idle w with Some e => inl e | None => inr [] end, w)
  | data =>
      let k := Z.to_nat n in
      let rest := skipn k data in
      (inr (firstn k data),
       mkWorld (now w)
         (match rest with [] => [] | _ => [(now w, rest)] end ++ not_arrived w)
         (replies w) (idle w) (kill_answers w) (openpty_answers w)
         (write_answers w))
  end.

Definition deliver (w : world) : world :=
  match replies w with
  | [] => w
  | r :: rs =>
      mkWorld (now w)
        (pending w ++ map (fun p => (now w + fst p, snd p)) r)
        rs (idle w) (kill_answers w) (openpty_answers w) (write_answers w)
  end.

Definition pop_write (w : world) : world :=
  mkWorld (now w) (pending w) (replies w) (idle w) (kill_answers w)
    (openpty_answers w) (tl (write_answers w)).

Definition sim_write (b : bytes) (w : world) : (errno + Z) * world :=
  match write_answers w with
  | [] | WriteAll :: _ => (inr (Z.of_nat (List.length b)), deliver (pop_write w))
  | WriteOnly n :: _ => (inr n, deliver (pop_write w))
  | WriteFails e :: _ => (inl e, pop_write w)
  end.

Definition sim_kill (w : world) : (errno + unit) * world :=
  (match kill_answers w with
   | Some e :: _ => inl e
   | _ => inr tt
   end,
   mkWorld (now w) (pending w) (replies w) (idle w) (tl (kill_answers w))
     (openpty_answers w) (write_answers w)).

Definition sim_openpty (w : world) : (errno + fd * fd) * world :=
  (match openpty_answers w with
   | Some e :: _ => inl e
   | _ => inr (3, 4)
   end,
   mkWorld (now w) (pending w) (replies w) (idle w) (kill_answers w)
     (tl (openpty_answers w)) (write_answers w)).

Definition sim_sleep (d : Z) (w : world) : world :=
  mkWorld (now w + d) (pending w) (replies w) (idle w) (kill_answers w)
    (openpty_answers w) (write_answers w).

Definition sim_attrs : termios_attrs := mkAttrs 0 0 0 ECHO 0 0 [].

Definition sim_os : OS world :=
  mkOS now sim_sleep sim_openpty
    (fun _ w => (Some sim_attrs, w))
    (fun _ _ w => (Some tt, w))
    (fun _ _ w => (inr tt, w))
    (fun w => (inr 100%positive, w))
    (fun _ w => (inr tt, w))
    (fun _ w => (inr 2, w))
    (fun _ _ w => (inr tt, w))
    (fun _ _ w => sim_kill w)
    (fun _ n w => sim_read n w)
    (fun _ b w => sim_write b w).

(** The same terminal on an event loop where every sleep lasts [extra]
    milliseconds longer than asked. *)
Definition late_os (extra : Z) : OS world :=
  mkOS now (fun d w => sim_sleep (d + extra) w) sim_openpty
    (fun _ w => (Some sim_attrs, w))
    (fun _ _ w => (Some tt, w))
    (fun _ _ w => (inr tt, w))
    (fun w => (inr 100%positive, w))
    (fun _ w => (inr tt, w))
    (fun _ w => (inr 2, w))
    (fun _ _ w => (inr tt, w))
    (fun _ _ w => sim_kill w)
    (fun _ n w => sim_read n w)
    (fun _ b w => sim_write b w).

(** A world at time 0 in which every call succeeds and the child stays
    silent but for the scripted [replies]. *)
Definition quiet (replies : list (list (Z * bytes))) : world :=
  mkWorld 0 [] replies (Some EAGAIN) [] [] [].

Definition text (s : string) : bytes := Manager.ascii_bytes s.
Definition line (s : string) : bytes := text s ++ ["010"%byte].

(** The answer of a shell to the probe of [_verify_shell]. *)
Definition shell_greeting : list (Z * bytes) := [(0, line "shell_test")].

End Sim.

(** ** Concrete scenarios *)

Module Scenarios.

Import Py Sys Manager Sim.
Local Open Scope Z_scope.

(** ["cmd\n$ cmd\nhello\n$ "]. *)
Definition echoed_output : str :=
  lit "cmd" ++ [NL] ++ lit "$ cmd" ++ [NL] ++ lit "hello" ++ [NL] ++ lit "$ ".

(** ["hello\n$"]. *)
Definition hello_and_prompt : str := lit "hello" ++ [NL] ++ lit "$".

Definition fresh : TerminalManager := __init__ (lit "/srv").

(** The manager as a successful [start] leaves it in the simulated world. *)
Definition running : TerminalManager :=
  mkManager (lit "/srv") (Some 3) None (Some 100%positive) true 0.

(** A source that delivers ["A"] at once and ["B"] after [delay]
    milliseconds, and would block otherwise. *)
Definition A_then_B_after (delay : Z) : world :=
  mkWorld 0 [(0, text "A"); (delay, text "B")] [] (Some EAGAIN) [] [] [].

(** ["A"] at once, ["B"] three seconds later. *)
Definition A_then_B : world := A_then_B_after 3000.

(** The same source at the time [ms], once ["A"] has been read and while
    ["B"] is still to come. *)
Definition B_due (ms delay : Z) : world :=
  mkWorld ms [(delay, text "B")] [] (Some EAGAIN) [] [] [].

(** The variables of the read loop after ["A"] was read at time 0. *)
Definition got_A : reader := mkReader [lit "A"] 0 0 [].

(** A silent source at the time [ms]: every read would block. *)
Definition silent_at (ms : Z) : world :=
  mkWorld ms [] [] (Some EAGAIN) [] [] [].

(** A source at its end at the time [ms]: every read returns [b'']. *)
Definition ended_at (ms : Z) : world :=
  mkWorld ms [] [] None [] [] [].

(** The variables of the read loop on entry at time 0, and after [n] reads
    that returned nothing. *)
Definition reading (n : Z) : reader := mkReader [] 0 n [].

(** A world in which killing the child is refused. *)
Definition kill_denied : world :=
  mkWorld 0 [] [] (Some EAGAIN) [Some EPERM] [] [].

(** A world in which the first three [pty.openpty()] fail, every later call
    succeeds and the shell answers the probe of [_verify_shell]. *)
Definition three_failures : world :=
  mkWorld 0 [] [shell_greeting] (Some EAGAIN) [] [Some EIO; Some EIO; Some EIO] [].

(** The same, where the child is then found dead by the first liveness
    probe. *)
Definition three_failures_then_death : world :=
  mkWorld 0 [] [shell_greeting] (Some EAGAIN) [Some ESRCH]
    [Some EIO; Some EIO; Some EIO] [].

(** The manager after [k] failed reconnections and the world at time [ms]
    with [left] failures of [pty.openpty()] to come. *)
Definition failed (k : Z) : TerminalManager :=
  mkManager (lit "/srv") None None None false k.

Definition failures_left (ms : Z) (left : list (option errno)) : world :=
  mkWorld ms [] [shell_greeting] (Some EAGAIN) [] left [].

(** A shell that prints nothing in answer to the first write, ["hello"] in
    answer to the second and ["/tmp"] in answer to the third. *)
Definition silent_once : world :=
  quiet [[]; [(100, line "hello")]; [(100, line "/tmp")]].

(** A shell that answers ["hello"] to a command, on a terminal where the
    write that follows each command fails. *)
Definition probe_write_fails : world :=
  mkWorld 0 [] [[(100, line "hello")]; [(100, line "hello")]] (Some EAGAIN)
    [] [] [WriteAll; WriteFails EIO; WriteAll; WriteFails EIO].

(** A shell that answers ["hello"] to a command and nothing to the probe of
    the working directory. *)
Definition probe_unanswered : world :=
  quiet [[(100, line "hello")]; []].

(** A world in which the first [pty.openpty()] fails and a shell then
    answers the probe of [_verify_shell], a command and the probe of the
    working directory. *)
Definition one_failure : world :=
  mkWorld 0 [] [shell_greeting; [(100, line "hello")]; [(100, line "/tmp")]]
    (Some EAGAIN) [] [Some EIO] [].

(** A shell that answers two lines to the empty command. *)
Definition two_lines : world :=
  quiet [[(100, line "first" ++ line "second")]; [(100, line "/tmp")]].

(** The manager restarted from outside after the budget was used up. *)
Definition restarted : TerminalManager :=
  mkManager (lit "/srv") (Some 3) None (Some 100%positive) true 3.

End Scenarios.

(** ** Notions used to describe the cleaner *)

Module CleanerNotions.

Import Py Re Cleaner.
Local Open Scope N_scope.

(** A parameter byte of a control sequence: a digit or one of [:;<=>?]. *)
Definition parameter_byte (c : char) : bool := range 48 63 c.

(** The tail of the second alternative of [ansi_escape], after [\x1B\[?]. *)
Definition sequence_tail (s : str) : option str :=
  lazy_star dot s
    (fun s1 => star (range 32 47) s1
                 (fun s2 => run (Cls (range 64 126)) s2 Some)).

(** A line as the cleaner lets it through: not empty, free of prompt
    markers and of line breaks, and without whitespace at either end. *)
Definition clean_line (l : str) : Prop :=
  l <> [] /\
  (forall marker, In marker prompt_markers -> contains marker l = false) /\
  (forall c, In c l -> is_linebreak c = false) /\
  (forall c, hd_error l = Some c -> isspace c = false) /\
  (forall c, hd_error (rev l) = Some c -> isspace c = false).

End CleanerNotions.

(** ** Notions used to describe the outcome of a call *)

Module Outcomes.

Import Sys Manager.

(** [m] returns (or runs out of fuel) and leaves the manager as it is. *)
Definition quiet_call {W A} (m : M W A) : Prop :=
  forall s,
    match m s with
    | Ret _ s' => fst s' = fst s
    | Raise _ _ => False
    | OutOfFuel => True
    end.

(** The session is marked alive and tracks a child. *)
Definition tracked (t : TerminalManager) : Prop :=
  _process_alive t = true /\ shell_pid t <> None.

(** The manager as a [start] that returns leaves it. *)
Definition started_from (t : TerminalManager) (m : fd) (child : pid)
  : TerminalManager :=
  mkManager (working_dir t) (Some m) None (Some child) true
    (_reconnect_attempts t).

End Outcomes.

(** ** The chat front end ([bot/vk_bot.py])

    The parts of [VKTerminalBot] that decide what is run and what is sent:
    [_parse_message], [_send_message] and [_handle_message]. The calls of
    [self.vk.messages.send] are recorded in the order they are made; that
    method's failures are caught and logged by [_send_message] and change
    nothing else. *)

Module Bot.

Import Py Re Cleaner Sys Manager.
Local Open Scope Z_scope.

(** The values of [config] the front end reads. *)
Record Config : Type := mkConfig {
  bot_tag : str;
  peer_id : Z;
  max_output_length : Z;
  command_timeout : Z
}.

(** [\s] of a [str] pattern: the whitespace of [str.isspace]. *)
Definition nonspace (c : char) : bool := negb (isspace c).

(** [r'\^[^\s]+']. *)
Definition special_key : regex :=
  Cat (lit1 94%N) (Cat (Cls nonspace) (Star nonspace)).

(** [re.findall(r, s)] for a pattern that matches no empty string; [skip]
    counts the characters of the current match still to be passed. *)
Fixpoint findall_from (r : regex) (skip : nat) (s : str) : list str :=
  match s with
  | [] => []
  | c :: s' =>
      match skip with
      | S n => findall_from r n s'
      | O =>
          match match_at r s with
          | Some rest =>
              match (List.length s - List.length rest)%nat with
              | S n => firstn (S n) s :: findall_from r n s'
              | O => findall_from r O s'
              end
          | None => findall_from r O s'
          end
      end
  end.

Definition findall (r : regex) (s : str) : list str := findall_from r O s.

(** No [^] of [u] is followed by a character other than whitespace: no
    special key starts anywhere in [u]. *)
Definition key_free (u : str) : Prop :=
  forall pre x post, u = pre ++ 94%N :: x :: post -> isspace x = true.

Definition _parse_message (bot_tag text : str) : option str * list str :=
  if negb (startswith bot_tag text) then (None, [])
  else
    let text := strip (skipn (List.length bot_tag) text) in
    let special_keys := findall special_key text in
    let command := strip (sub_empty special_key text) in
    (if falsy command then None else Some command, special_keys).

(** The index at which [s[:n]] ends and [s[n:]] begins, for a string of
    length [len]: a negative [n] counts from the end. *)
Definition slice_index (n : Z) (len : nat) : nat :=
  if n <? 0 then Z.to_nat (Z.max 0 (Z.of_nat len + n))
  else Nat.min (Z.to_nat n) len.

Definition slice_to (n : Z) (s : str) : str :=
  firstn (slice_index n (List.length s)) s.
Definition slice_from (n : Z) (s : str) : str :=
  skipn (slice_index n (List.length s)) s.

(** A call [self.vk.messages.send(peer_id=..., message=..., random_id=...)]. *)
Record send_call : Type := mkCall {
  call_peer_id : Z;
  call_message : str;
  call_random_id : Z
}.

Section WithConfig.

Variable cfg : Config.

(** The loop [while text:] of [_send_message], at most [fuel] rounds:
    the calls made, or [None] when the rounds do not suffice. *)
Fixpoint _send_message (fuel : nat) (text : str) : option (list send_call) :=
  match text with
  | [] => Some []
  | _ :: _ =>
      match fuel with
      | O => None
      | S fuel' =>
          let chunk := slice_to (max_output_length cfg) text in
          let text := slice_from (max_output_length cfg) text in
          option_map (cons (mkCall (2000000000 + peer_id cfg) chunk 0))
            (_send_message fuel' text)
      end
  end.

(** What can be raised inside [try] of [_handle_message]: an exception of
    the terminal manager, or the [AttributeError] of looking up
    [handle_special_key], which [TerminalManager] does not define. *)
Inductive bot_exn : Type :=
| TerminalError (e : exn)
| AttributeError.

(** ["⚠️ Превышено время выполнения команды"]. *)
Definition timeout_notice : str :=
  [9888; 65039; 32; 1055; 1088; 1077; 1074; 1099; 1096; 1077; 1085; 1086; 32;
   1074; 1088; 1077; 1084; 1103; 32; 1074; 1099; 1087; 1086; 1083; 1085; 1077;
   1085; 1080; 1103; 32; 1082; 1086; 1084; 1072; 1085; 1076; 1099]%N.

(** ["❌ Ошибка: "]. *)
Definition error_prefix : str :=
  [10060; 32; 1054; 1096; 1080; 1073; 1082; 1072; 58; 32]%N.

(** [str(e)] for the [AttributeError]. *)
Definition no_attribute : str :=
  lit "'TerminalManager' object has no attribute 'handle_special_key'".

Inductive handled (W : Type) : Type :=
| Done (s : state W) (calls : list send_call)
| Failed (e : bot_exn) (s : state W) (calls : list send_call)
| Unfinished.

Arguments Done {W} s calls.
Arguments Failed {W} e s calls.
Arguments Unfinished {W}.

Context {W : Type} (os : OS W).

(** [str(e)] for the exceptions of the terminal manager. *)
Variable describe : exn -> str.

Variable fuel : nat.

Definition send {W'} (text : str) (s : state W') : handled W' :=
  match _send_message fuel text with
  | Some calls => Done s calls
  | None => Unfinished
  end.

(** [for key in special_keys: self.terminal.handle_special_key(key); ...]:
    the attribute lookup raises at the first key. *)
Definition press_keys (special_keys : list str) : option bot_exn :=
  match special_keys with
  | [] => None
  | _ :: _ => Some AttributeError
  end.

(** [f"{cwd}> {command}\n{output}"]. *)
Definition response (cwd command output : str) : str :=
  cwd ++ lit "> " ++ command ++ [NL] ++ output.

(** The body of [try] in [_handle_message]. *)
Definition handle_body (command : option str) (special_keys : list str)
  (s : state W) : handled W :=
  match press_keys special_keys with
  | Some e => Failed e s []
  | None =>
      match command with
      | Some c =>
          if falsy c then Done s []
          else
            match execute_command os fuel c (command_timeout cfg) s with
            | Ret (cwd, output) s' => send (response cwd c output) s'
            | Raise e s' => Failed (TerminalError e) s' []
            | OutOfFuel => Unfinished
            end
      | None => Done s []
      end
  end.

Definition _handle_message (text : str) (s : state W) : handled W :=
  let (command, special_keys) := _parse_message (bot_tag cfg) text in
  if match command with Some c => falsy c | None => true end
     && falsy special_keys
  then Done s []
  else
    match handle_body command special_keys s with
    | Failed (TerminalError (TimeoutError _)) s' _ => send timeout_notice s'
    | Failed (TerminalError e) s' _ => send (error_prefix ++ describe e) s'
    | Failed AttributeError s' _ => send (error_prefix ++ no_attribute) s'
    | r => r
    end.

End WithConfig.

Arguments Done {W} s calls.
Arguments Failed {W} e s calls.
Arguments Unfinished {W}.

(** A configuration with the tag ["@bot"] and messages of at most four
    characters. *)
Definition short_messages : Config := mkConfig (lit "@bot") 1 4 30.

(** The same with a command timeout of one second. *)
Definition hasty : Config := mkConfig (lit "@bot") 1 4 1.

(** A configuration whose [MAX_OUTPUT_LENGTH] is 0. *)
Definition no_room : Config := mkConfig (lit "@bot") 1 0 30.

End Bot.

Import Py Re Cleaner Utf8 Sys Manager Sim Scenarios.
Local Open Scope Z_scope.

Unset Implicit Arguments.

(** * Properties *)

(** ** The output cleaner *)

Section CleanerFacts.

(** The empty string is a substring of every string. *)
Lemma contains_nil (s : str) : contains [] s = true.
Proof. destruct s; reflexivity. Qed.

Lemma drop_echo_empty_command (lines : list str) :
  drop_echo [] lines = tl lines.
Proof.
  destruct lines as [|first rest]; [reflexivity|].
  unfold drop_echo. now rewrite contains_nil.
Qed.

(** C1: on the command ["cmd"] and the raw output ["cmd\n$ cmd\nhello\n$ "]
    the cleaner returns ["hello\n$"], not ["hello"]: the echoed line and the
    line ["$ cmd"] are dropped, but the last line ["$ "] is stripped to ["$"]
    before the prompt markers are looked for, contains none of them, and is
    kept. *)
Theorem clean_output_keeps_bare_prompt :
  _clean_output (lit "cmd") echoed_output = hello_and_prompt /\
  _clean_output (lit "cmd") echoed_output <> lit "hello" /\
  strip (lit "$ ") = lit "$" /\
  keeps (lit "$") = true.
Proof.
  repeat split; try reflexivity.
  intros H. vm_compute in H. discriminate H.
Qed.

Lemma clean_output_empty_command (output : str) :
  _clean_output [] output = without_first_line output.
Proof.
  unfold _clean_output, without_first_line.
  destruct output as [|c output]; [reflexivity|].
  cbn [falsy]. cbv zeta. now rewrite drop_echo_empty_command.
Qed.

End CleanerFacts.

(** ** Reasoning rules for computations *)

Section Rules.

Context {W : Type} (os : OS W).

Implicit Types P E : TerminalManager -> Prop.

Lemma triple_conseq {A} P P' (m : M W A) Q Q' E E' :
  triple P' m Q' E' ->
  (forall t, P t -> P' t) ->
  (forall a t, Q' a t -> Q a t) ->
  (forall t, E' t -> E t) ->
  triple P m Q E.
Proof.
  intros H HP HQ HE t w Ht. specialize (H t w (HP t Ht)).
  destruct (m (t, w)); auto.
Qed.

Lemma triple_ret {A} P (a : A) Q E :
  (forall t, P t -> Q a t) -> triple P (ret (W:=W) a) Q E.
Proof. intros H t w Ht. cbn. auto. Qed.

Lemma triple_raise {A} P e (Q : A -> TerminalManager -> Prop) E :
  (forall t, P t -> E t) -> triple P (raise (W:=W) e) Q E.
Proof. intros H t w Ht. cbn. auto. Qed.

Lemma triple_bind {A B} P (m : M W A) (k : A -> M W B) Q' Q E :
  triple P m Q' E ->
  (forall a, triple (Q' a) (k a) Q E) ->
  triple P (bind m k) Q E.
Proof.
  intros Hm Hk t w Ht. unfold bind. specialize (Hm t w Ht).
  destruct (m (t, w)) as [a [t' w']|e [t' w']|]; cbn in *; auto.
  apply Hk; assumption.
Qed.

Lemma triple_try {A} P (m : M W A) classes h Q E' E :
  triple P m Q E' ->
  (forall e, triple E' (h e) Q E) ->
  (forall t, E' t -> E t) ->
  triple P (try_except m classes h) Q E.
Proof.
  intros Hm Hh HE t w Ht. unfold try_except. specialize (Hm t w Ht).
  destruct (m (t, w)) as [a [t' w']|e [t' w']|]; cbn in *; auto.
  destruct (classes e); cbn; auto. apply Hh; assumption.
Qed.

Lemma triple_try2 {A} P (m : M W A) c1 h1 c2 h2 Q E' E :
  triple P m Q E' ->
  (forall e, triple E' (h1 e) Q E) ->
  (forall e, triple E' (h2 e) Q E) ->
  (forall t, E' t -> E t) ->
  triple P (try_except2 m c1 h1 c2 h2) Q E.
Proof.
  intros Hm H1 H2 HE t w Ht. unfold try_except2. specialize (Hm t w Ht).
  destruct (m (t, w)) as [a [t' w']|e [t' w']|]; cbn in *; auto.
  destruct (c1 e); [apply H1; assumption|].
  destruct (c2 e); [apply H2; assumption|cbn; auto].
Qed.

Lemma triple_get_self P E :
  triple P (get_self (W:=W)) (fun self t => self = t /\ P t) E.
Proof. intros t w Ht. cbn. auto. Qed.

Lemma triple_update P f (Q : unit -> TerminalManager -> Prop) E :
  (forall t, P t -> Q tt (f t)) -> triple P (update (W:=W) f) Q E.
Proof. intros H t w Ht. cbn. auto. Qed.

Lemma triple_loop {L R} (Inv : TerminalManager -> Prop)
  (body : L -> M W (L + R)) (Q : R -> TerminalManager -> Prop) E n :
  (forall l, triple Inv (body l)
               (fun r t => match r with inl _ => Inv t | inr x => Q x t end)
               E) ->
  forall l, triple Inv (loop n body l) Q E.
Proof.
  intros Hb. induction n as [|n IH]; intros l.
  - intros t w _. exact I.
  - cbn [loop]. eapply triple_bind; [apply Hb|].
    intros [l'|x]; [apply IH|]. apply triple_ret. auto.
Qed.

(** *** Equations for running a computation *)

Lemma bind_Ret {A B} (m : M W A) (k : A -> M W B) s a s' :
  m s = Ret a s' -> bind m k s = k a s'.
Proof. unfold bind. now intros ->. Qed.

Lemma bind_Raise {A B} (m : M W A) (k : A -> M W B) s e s' :
  m s = Raise e s' -> bind m k s = Raise e s'.
Proof. unfold bind. now intros ->. Qed.

Lemma bind_get_self {B} (k : TerminalManager -> M W B) t w :
  bind get_self k (t, w) = k t (t, w).
Proof. reflexivity. Qed.

Lemma try_except_Ret {A} (m : M W A) classes h s a s' :
  m s = Ret a s' -> try_except m classes h s = Ret a s'.
Proof. unfold try_except. now intros ->. Qed.

Lemma try_except_caught {A} (m : M W A) classes h s e s' :
  m s = Raise e s' -> classes e = true ->
  try_except m classes h s = h e s'.
Proof. unfold try_except. now intros -> ->. Qed.

Lemma try_except_passed {A} (m : M W A) classes h s e s' :
  m s = Raise e s' -> classes e = false ->
  try_except m classes h s = Raise e s'.
Proof. unfold try_except. now intros -> ->. Qed.

(** More fuel does not change the result of a loop that came to an end. *)
Lemma loop_more_fuel {L R} (body : L -> M W (L + R)) n k :
  forall l s r,
    loop n body l s = r -> r <> OutOfFuel -> loop (n + k) body l s = r.
Proof.
  induction n as [|n IH]; intros l s r H Hr.
  - cbn in H. congruence.
  - cbn [loop Nat.add] in *. unfold bind in *.
    destruct (body l s) as [[l'|x] s'|e s'|]; try assumption.
    apply IH; assumption.
Qed.

(** *** Computations that leave the manager unchanged *)

Lemma unchanged_triple {A} (m : M W A) P :
  unchanged m -> triple P m (fun _ => P) P.
Proof.
  intros H t w Ht. specialize (H t t w eq_refl).
  destruct (m (t, w)) as [a [t' w']|e [t' w']|]; cbn in *; subst; auto.
Qed.

Lemma unchanged_ret {A} (a : A) : unchanged (ret (W:=W) a).
Proof. intros t0. apply triple_ret. auto. Qed.

Lemma unchanged_raise {A} e : unchanged (raise (W:=W) (A:=A) e).
Proof. intros t0. apply triple_raise. auto. Qed.

Lemma unchanged_bind {A B} (m : M W A) (k : A -> M W B) :
  unchanged m -> (forall a, unchanged (k a)) -> unchanged (bind m k).
Proof.
  intros Hm Hk t0. eapply triple_bind; [apply Hm|]. intros a. apply Hk.
Qed.

Lemma unchanged_try {A} (m : M W A) classes h :
  unchanged m -> (forall e, unchanged (h e)) ->
  unchanged (try_except m classes h).
Proof.
  intros Hm Hh t0. eapply triple_try; [apply Hm| |auto]. intros e. apply Hh.
Qed.

Lemma unchanged_try2 {A} (m : M W A) c1 h1 c2 h2 :
  unchanged m -> (forall e, unchanged (h1 e)) -> (forall e, unchanged (h2 e)) ->
  unchanged (try_except2 m c1 h1 c2 h2).
Proof.
  intros Hm H1 H2 t0.
  eapply triple_try2; [apply Hm| | |auto]; intros e; [apply H1|apply H2].
Qed.

Lemma unchanged_get_self : unchanged (get_self (W:=W)).
Proof. intros t0 t w <-. cbn. reflexivity. Qed.

Lemma unchanged_syscall {A} (f : W -> (errno + A) * W) : unchanged (syscall f).
Proof.
  intros t0 t w <-. unfold syscall. cbn.
  destruct (f w) as [[e|a] w']; reflexivity.
Qed.

Lemma unchanged_termios_call {A} (f : W -> option A * W) :
  unchanged (termios_call f).
Proof.
  intros t0 t w <-. unfold termios_call. cbn.
  destruct (f w) as [[a|] w']; reflexivity.
Qed.

Lemma unchanged_time : unchanged (time os).
Proof. intros t0 t w <-. reflexivity. Qed.

Lemma unchanged_sleep d : unchanged (asyncio_sleep os d).
Proof. intros t0 t w <-. reflexivity. Qed.

Lemma unchanged_loop {L R} (body : L -> M W (L + R)) n :
  (forall l, unchanged (body l)) -> forall l, unchanged (loop n body l).
Proof.
  intros Hb l t0. apply triple_loop. intros l'.
  eapply triple_conseq; [apply (Hb l' t0)|auto| |auto].
  intros [?|?] ?; auto.
Qed.

End Rules.

Create HintDb unchanged.

#[local] Hint Resolve unchanged_ret unchanged_raise unchanged_get_self
  unchanged_syscall unchanged_termios_call unchanged_time unchanged_sleep
  : unchanged.

(** Walks through a computation built from the combinators above. *)
Ltac unchanged_step :=
  match goal with
  | |- unchanged (bind _ _) => apply unchanged_bind; [|intros ?]
  | |- unchanged (try_except _ _ _) => apply unchanged_try; [|intros ?]
  | |- unchanged (try_except2 _ _ _ _ _) =>
      apply unchanged_try2; [|intros ?|intros ?]
  | |- unchanged (loop _ _ _) => apply unchanged_loop; intros ?
  | |- unchanged (match ?x with _ => _ end) => destruct x
  | |- unchanged (if ?x then _ else _) => destruct x
  | |- unchanged _ => solve [auto with unchanged]
  end.

Ltac unchanged_auto := solve [repeat unchanged_step].

Section Unchanged.

Context {W : Type} (os : OS W) (fuel : nat).

Lemma unchanged_os_read n : unchanged (os_read os n).
Proof. unfold os_read. unchanged_auto. Qed.

Lemma unchanged_os_write b : unchanged (os_write os b).
Proof. unfold os_write. unchanged_auto. Qed.

Hint Resolve unchanged_os_read unchanged_os_write : unchanged.

Lemma unchanged_set_terminal_size size : unchanged (_set_terminal_size os size).
Proof. unfold _set_terminal_size. unchanged_auto. Qed.

Lemma unchanged_clear_initial_output : unchanged (_clear_initial_output os fuel).
Proof. unfold _clear_initial_output. unchanged_auto. Qed.

Lemma unchanged_verify_shell : unchanged (_verify_shell os fuel).
Proof. unfold _verify_shell. unchanged_auto. Qed.

Lemma unchanged_read_iteration timeout start_time l :
  unchanged (read_iteration os timeout start_time l).
Proof. unfold read_iteration. unchanged_auto. Qed.

Lemma unchanged_read_terminal_output timeout :
  unchanged (_read_terminal_output os fuel timeout).
Proof.
  unfold _read_terminal_output. repeat unchanged_step.
  apply unchanged_read_iteration.
Qed.

Hint Resolve unchanged_read_terminal_output : unchanged.

Lemma unchanged_send_command command :
  unchanged (_send_command_to_terminal os command).
Proof. unfold _send_command_to_terminal. unchanged_auto. Qed.

Lemma unchanged_retrieve_command_output timeout :
  unchanged (_retrieve_command_output os fuel timeout).
Proof. unfold _retrieve_command_output. unchanged_auto. Qed.

Lemma unchanged_get_current_directory :
  unchanged (_get_current_directory os fuel).
Proof. unfold _get_current_directory. unchanged_auto. Qed.

End Unchanged.

(** ** Enough fuel

    Every operation is [steady]: a result obtained with some bound on the
    iterations of the loops is the result for every larger bound. *)

Section Steady.

Context {W : Type}.

Lemma steady_const {A} (m : M W A) : steady (fun _ => m).
Proof. intros n k s r H _. exact H. Qed.

Lemma steady_bind {A B} (m : nat -> M W A) (f : A -> nat -> M W B) :
  steady m -> (forall a, steady (f a)) ->
  steady (fun n => bind (m n) (fun a => f a n)).
Proof.
  intros Hm Hf n k s r. unfold bind.
  destruct (m n s) as [a s'|e s'|] eqn:E; intros H Hr.
  - rewrite (Hm n k s _ E) by discriminate. apply Hf; assumption.
  - rewrite (Hm n k s _ E) by discriminate. exact H.
  - congruence.
Qed.

Lemma steady_try {A} (m : nat -> M W A) classes (h : exn -> nat -> M W A) :
  steady m -> (forall e, steady (h e)) ->
  steady (fun n => try_except (m n) classes (fun e => h e n)).
Proof.
  intros Hm Hh n k s r. unfold try_except.
  destruct (m n s) as [a s'|e s'|] eqn:E; intros H Hr.
  - rewrite (Hm n k s _ E) by discriminate. exact H.
  - rewrite (Hm n k s _ E) by discriminate.
    destruct (classes e); [apply Hh; assumption|exact H].
  - congruence.
Qed.

Lemma steady_loop {L R} (body : L -> M W (L + R)) l :
  steady (fun n => loop n body l).
Proof. intros n k s r. apply loop_more_fuel. Qed.

End Steady.

Create HintDb steady.

Ltac steady_step :=
  cbv beta;
  match goal with
  | |- steady (fun _ => ?m) => apply steady_const
  | |- steady (fun n => loop n ?body ?l) => apply steady_loop
  | |- steady (fun n => bind (@?m n) (fun a => @?f a n)) =>
      apply (steady_bind m f); [|intros ?]
  | |- steady (fun n => try_except (@?m n) ?c (fun e => @?h e n)) =>
      apply (steady_try m c h); [|intros ?]
  | |- steady (fun n => match ?x with _ => _ end) => destruct x
  | |- steady _ => solve [auto with steady]
  end.

Ltac steady_auto := solve [repeat steady_step].

Section SteadyOperations.

Context {W : Type} (os : OS W).

Lemma steady_clear_initial_output :
  steady (fun n => _clear_initial_output os n).
Proof. unfold _clear_initial_output. steady_auto. Qed.

Lemma steady_verify_shell : steady (fun n => _verify_shell os n).
Proof. unfold _verify_shell. steady_auto. Qed.

Lemma steady_read_terminal_output timeout :
  steady (fun n => _read_terminal_output os n timeout).
Proof. unfold _read_terminal_output. steady_auto. Qed.

Hint Resolve steady_clear_initial_output steady_verify_shell
  steady_read_terminal_output : steady.

Lemma steady_start : steady (fun n => start os n).
Proof. unfold start. steady_auto. Qed.

Hint Resolve steady_start : steady.

Lemma steady_reconnect : steady (fun n => reconnect os n).
Proof. unfold reconnect. steady_auto. Qed.

Hint Resolve steady_reconnect : steady.

Lemma steady_ensure_connection : steady (fun n => _ensure_connection os n).
Proof. unfold _ensure_connection. steady_auto. Qed.

Lemma steady_retrieve_command_output timeout :
  steady (fun n => _retrieve_command_output os n timeout).
Proof. unfold _retrieve_command_output. steady_auto. Qed.

Lemma steady_get_current_directory :
  steady (fun n => _get_current_directory os n).
Proof. unfold _get_current_directory. steady_auto. Qed.

Hint Resolve steady_ensure_connection steady_retrieve_command_output
  steady_get_current_directory : steady.

Lemma steady_attempt command timeout :
  steady (fun n => attempt os n command timeout).
Proof. unfold attempt. steady_auto. Qed.

Hint Resolve steady_attempt : steady.

Lemma steady_execute_command command timeout :
  steady (fun n => execute_command os n command timeout).
Proof. unfold execute_command. steady_auto. Qed.

End SteadyOperations.

(** ** The session fields under [stop], [start] and reconnection *)

Section Lifecycle.

Context {W : Type} (os : OS W) (fuel : nat).

Implicit Types P E : TerminalManager -> Prop.

Lemma triple_bind_unchanged {A B} P (m : M W A) (k : A -> M W B) Q E :
  unchanged m ->
  (forall t, P t -> E t) ->
  (forall a, triple P (k a) Q E) ->
  triple P (bind m k) Q E.
Proof.
  intros Hm HE Hk. eapply triple_bind; [|apply Hk].
  eapply triple_conseq; [apply (unchanged_triple _ P Hm)|auto..].
Qed.

Lemma triple_bind_update {B} P P' f (k : M W B) Q E :
  (forall t, P t -> P' (f t)) ->
  triple P' k Q E ->
  triple P (bind (update f) (fun _ => k)) Q E.
Proof.
  intros Hf Hk. apply triple_bind with (Q' := fun _ => P').
  - apply triple_update. exact Hf.
  - intros _. exact Hk.
Qed.

(** [stop] either assigns the not-alive state to the four session fields,
    or raises (when killing the child fails otherwise than by
    [ProcessLookupError]) and then has assigned nothing. *)
Lemma stop_spec t0 :
  triple (eq t0) (stop os) (fun _ t => t = reset t0) (eq t0).
Proof.
  unfold stop.
  repeat (apply triple_bind_unchanged; [unchanged_auto|auto|intros ?]).
  intros t w <-. reflexivity.
Qed.

Lemma stop_preserves P :
  (forall t, P t -> P (reset t)) -> triple P (stop os) (fun _ => P) P.
Proof.
  intros HP t w Ht. pose proof (stop_spec t t w eq_refl) as H.
  destruct (stop os (t, w)) as [a [t' w']|e [t' w']|]; cbn in *; subst; auto.
Qed.

Lemma stop_establishes P P' :
  (forall t, P t -> P' (reset t)) ->
  triple P (stop os) (fun _ => P') P.
Proof.
  intros HP t w Ht. pose proof (stop_spec t t w eq_refl) as H.
  destruct (stop os (t, w)) as [a [t' w']|e [t' w']|]; cbn in *; subst; auto.
Qed.

(** [start] never touches the counter; it keeps [alive_has_master] at every
    point where it can be left, and returns with an open master handle and
    the alive flag set. *)
Lemma start_spec c :
  triple (fun t => budget c t /\ alive_has_master t) (start os fuel)
    (fun _ t => budget c t /\ master_fd t <> None /\ _process_alive t = true)
    (fun t => budget c t /\ alive_has_master t).
Proof.
  pose (P1 := fun t => budget c t /\ _process_alive t = false).
  pose (P2 := fun t => budget c t /\ master_fd t <> None).
  pose (P3 := fun t => budget c t /\ master_fd t <> None
                       /\ _process_alive t = true).
  assert (H1 : forall t, P1 t -> budget c t /\ alive_has_master t).
  { intros t [? Ha]. split; [assumption|]. unfold alive_has_master.
    rewrite Ha. discriminate. }
  assert (H2 : forall t, P2 t -> budget c t /\ alive_has_master t).
  { intros t [? Hm]. split; [assumption|]. intros _. exact Hm. }
  assert (H3 : forall t, P3 t -> budget c t /\ alive_has_master t).
  { intros t (? & Hm & _). split; [assumption|]. intros _. exact Hm. }
  unfold start. eapply triple_try with (E' := fun t => budget c t /\ alive_has_master t).
  - (* the body *)
    apply triple_bind with (Q' := fun _ => P1).
    { apply stop_establishes. intros t [Hc _]. split; [exact Hc|reflexivity]. }
    intros _.
    apply triple_bind_unchanged; [unchanged_auto|exact H1|intros p].
    apply triple_bind_update with (P' := P2).
    { intros t [Hc _]. split; [exact Hc|discriminate]. }
    apply triple_bind_update with (P' := P2).
    { intros t [Hc Hm]. split; assumption. }
    apply triple_bind_unchanged; [unchanged_auto|exact H2|intros attrs].
    apply triple_bind_unchanged; [unchanged_auto|exact H2|intros _].
    apply triple_bind_unchanged;
      [apply unchanged_set_terminal_size|exact H2|intros _].
    apply triple_bind_unchanged; [unchanged_auto|exact H2|intros child].
    apply triple_bind_update with (P' := P2).
    { intros t [Hc Hm]. split; assumption. }
    apply triple_bind_unchanged; [unchanged_auto|exact H2|intros self].
    apply triple_bind with (Q' := fun _ => P2).
    { destruct (slave_fd self) as [sl|].
      - apply triple_bind_unchanged; [unchanged_auto|exact H2|intros _].
        apply triple_update. intros t [Hc Hm]. split; assumption.
      - apply triple_ret. auto. }
    intros _.
    apply triple_bind_update with (P' := P3).
    { intros t [Hc Hm]. repeat split; assumption. }
    apply triple_bind_unchanged; [unchanged_auto|exact H3|intros self'].
    apply triple_bind_unchanged; [|exact H3|intros _].
    { destruct (master_fd self'); unchanged_auto. }
    apply triple_bind_unchanged; [unchanged_auto|exact H3|intros _].
    apply triple_bind_unchanged;
      [apply unchanged_verify_shell|exact H3|intros ok].
    destruct ok; cbn [negb].
    + eapply triple_conseq;
        [apply (unchanged_triple _ P3 (unchanged_clear_initial_output os fuel))
        |auto..].
    + apply triple_raise. exact H3.
  - (* the handler *)
    intros e. apply triple_bind with (Q' := fun _ t => budget c t /\ alive_has_master t).
    + apply stop_preserves. intros t [Hc _]. split; [exact Hc|].
      unfold alive_has_master. cbn. discriminate.
    + intros _. apply triple_raise. auto.
  - auto.
Qed.

Lemma triple_bind_self {B} P (k : TerminalManager -> M W B) Q E :
  (forall self, P self -> triple (eq self) (k self) Q E) ->
  triple P (bind (get_self (W:=W)) k) Q E.
Proof.
  intros Hk t w Ht. unfold bind, get_self. cbn [fst].
  exact (Hk t Ht t w eq_refl).
Qed.

(** A reconnection keeps [alive_has_master]; it returns [true] with the
    counter reset and the session alive, and otherwise leaves the counter
    one above its value on entry. *)
Lemma reconnect_spec c :
  triple (fun t => budget c t /\ alive_has_master t) (reconnect os fuel)
    (fun r t => alive_has_master t /\
                if r : bool then budget 0 t /\ _process_alive t = true
                else budget (c + 1) t)
    (fun t => budget (c + 1) t /\ alive_has_master t).
Proof.
  unfold reconnect.
  apply triple_bind_update
    with (P' := fun t => budget (c + 1) t /\ alive_has_master t).
  { intros t [Hc HJ]. split; [|exact HJ]. unfold budget in *. cbn. lia. }
  apply triple_bind with (Q' := fun _ t => budget (c + 1) t /\ alive_has_master t).
  { apply stop_preserves. intros t [Hc _]. split; [exact Hc|].
    unfold alive_has_master. cbn. discriminate. }
  intros _. apply triple_bind_unchanged; [unchanged_auto|auto|intros _].
  eapply triple_bind; [apply start_spec|]. intros ?; cbv beta.
  apply triple_bind_self. intros self (Hc & Hm & Ha). rewrite Ha.
  apply triple_bind_update
    with (P' := fun t => alive_has_master t /\ budget 0 t
                         /\ _process_alive t = true).
  { intros t <-. repeat split; auto. intros _. exact Hm. }
  apply triple_ret. auto.
Qed.

(** The liveness probe only ever clears the alive flag. *)
Lemma probe_preserves P :
  (forall t, P t -> P (set_process_alive false t)) ->
  triple P (probe os) (fun _ => P) P.
Proof.
  intros HP. unfold probe.
  apply triple_bind_unchanged; [unchanged_auto|auto|intros self].
  destruct (_process_alive self), (shell_pid self); try (apply triple_ret; auto).
  eapply triple_try with (E' := P); [|intros e|auto].
  - apply triple_bind_unchanged; [unchanged_auto|auto|intros _].
    apply triple_ret. auto.
  - apply triple_bind_update with (P' := P); [exact HP|].
    apply triple_ret. auto.
Qed.

(** With the child dead on entry the probe reports it and changes at most
    the alive flag, which it clears. *)
Lemma probe_when_dead t w :
  child_dead os (t, w) ->
  exists t' w',
    probe os (t, w) = Ret false (t', w') /\
    (t' = t \/ t' = set_process_alive false t).
Proof.
  unfold child_dead, probe, bind, get_self, try_except, syscall, update, ret.
  cbn [fst snd].
  destruct (_process_alive t);
    [|intros _; exists t, w; split; [reflexivity|left; reflexivity]].
  destruct (shell_pid t) as [p|];
    [|intros _; exists t, w; split; [reflexivity|left; reflexivity]].
  intros H. cbn [fst snd].
  destruct (kill os p SIG0 w) as [[e|[]] w'] eqn:Hk; cbn in H;
    try discriminate H.
  injection H as ->. cbn.
  exists (set_process_alive false t), w'.
  split; [reflexivity|right; reflexivity].
Qed.

Lemma ensure_connection_preserves :
  triple sound (_ensure_connection os fuel) (fun _ => sound) sound.
Proof.
  unfold _ensure_connection.
  eapply triple_bind.
  { apply probe_preserves. intros t [HR HJ]. split; [exact HR|].
    unfold alive_has_master. cbn. discriminate. }
  intros [|]; [apply triple_ret; auto|].
  apply triple_bind_self. intros self [HR HJ].
  destruct (_reconnect_attempts self >=? MAX_RECONNECT_ATTEMPTS) eqn:Hge.
  { apply triple_ret. intros t <-. split; assumption. }
  unfold sound, attempts_in_range, MAX_RECONNECT_ATTEMPTS in *.
  eapply triple_try
    with (E' := fun t => budget (_reconnect_attempts self + 1) t
                         /\ alive_has_master t).
  - eapply triple_conseq;
      [apply (reconnect_spec (_reconnect_attempts self))| | |auto].
    + intros t <-. split; [reflexivity|exact HJ].
    + intros r t [HJ' Hr]. split; [|exact HJ'].
      unfold budget in Hr. destruct r; [destruct Hr as [-> _]|]; lia.
  - intros e. apply triple_ret. unfold budget. intros t [Hc HJ'].
    split; [lia|exact HJ'].
  - unfold budget. intros t [Hc HJ']. split; [lia|exact HJ'].
Qed.

(** Once the budget is used up no call changes the counter. *)
Lemma ensure_connection_exhausted_stays c :
  MAX_RECONNECT_ATTEMPTS <= c ->
  triple (budget c) (_ensure_connection os fuel)
    (fun _ => budget c) (budget c).
Proof.
  intros Hc. unfold _ensure_connection.
  eapply triple_bind; [apply probe_preserves; auto|].
  intros [|]; [apply triple_ret; auto|].
  apply triple_bind_self. intros self Hs. unfold budget in Hs.
  destruct (_reconnect_attempts self >=? MAX_RECONNECT_ATTEMPTS) eqn:Hge; [|lia].
  apply triple_ret. intros t <-. exact Hs.
Qed.

(** [_ensure_connection] entered with the child dead: with the budget used
    up it returns [False] at once and changes at most the alive flag;
    otherwise it never raises, a [True] comes with the counter reset and a
    [False] with the counter raised by one. *)
Lemma ensure_connection_when_dead t w :
  child_dead os (t, w) ->
  alive_has_master t ->
  if _reconnect_attempts t >=? MAX_RECONNECT_ATTEMPTS then
    exists t' w',
      _ensure_connection os fuel (t, w) = Ret false (t', w') /\
      (t' = t \/ t' = set_process_alive false t)
  else
    match _ensure_connection os fuel (t, w) with
    | Ret true s' =>
        _reconnect_attempts (fst s') = 0 /\ _process_alive (fst s') = true
    | Ret false s' =>
        _reconnect_attempts (fst s') = _reconnect_attempts t + 1
    | Raise _ _ => False
    | OutOfFuel => True
    end.
Proof.
  intros Hdead HJ. destruct (probe_when_dead t w Hdead) as (t1 & w' & Hp & Ht1).
  assert (Hn : _reconnect_attempts t1 = _reconnect_attempts t)
    by (destruct Ht1; subst; reflexivity).
  assert (HJ1 : alive_has_master t1).
  { destruct Ht1; subst; [exact HJ|]. unfold alive_has_master. cbn. discriminate. }
  unfold _ensure_connection.
  rewrite (bind_Ret _ _ _ _ _ Hp), bind_get_self, Hn.
  destruct (_reconnect_attempts t >=? MAX_RECONNECT_ATTEMPTS) eqn:Hge.
  - exists t1, w'. split; [reflexivity|exact Ht1].
  - pose proof (reconnect_spec (_reconnect_attempts t) t1 w'
                  (conj Hn HJ1)) as H.
    unfold try_except.
    destruct (reconnect os fuel (t1, w')) as [[|] s'|e s'|];
      cbn [is_Exception ret]; try exact I; apply H.
Qed.

Lemma attempt_preserves command timeout :
  triple sound (attempt os fuel command timeout) (fun _ => sound) sound.
Proof.
  unfold attempt.
  eapply triple_bind; [apply ensure_connection_preserves|].
  intros [|]; cbn [negb]; [|apply triple_raise; auto].
  apply triple_bind_unchanged;
    [apply unchanged_clear_initial_output|auto|intros _].
  apply triple_bind_unchanged; [unchanged_auto|auto|intros self].
  destruct (master_fd self); [|apply triple_raise; auto].
  apply triple_bind_unchanged; [apply unchanged_send_command|auto|intros _].
  apply triple_bind_unchanged;
    [apply unchanged_retrieve_command_output|auto|intros output].
  apply triple_bind_unchanged;
    [apply unchanged_get_current_directory|auto|intros cwd].
  apply triple_ret. auto.
Qed.

Lemma execute_command_preserves command timeout :
  triple sound (execute_command os fuel command timeout)
    (fun _ => sound) sound.
Proof.
  unfold execute_command.
  eapply triple_try; [apply attempt_preserves| |auto].
  intros _. apply triple_bind_unchanged; [unchanged_auto|auto|intros _].
  eapply triple_try; [apply attempt_preserves| |auto].
  intros e. apply triple_raise. auto.
Qed.

Lemma perform_preserves o :
  triple sound (perform os fuel o) (fun _ => sound) sound.
Proof.
  destruct o as [| |command timeout]; cbn [perform].
  - intros t w [HR HJ].
    pose proof (start_spec (_reconnect_attempts t) t w (conj eq_refl HJ)) as H.
    unfold sound, attempts_in_range, budget in *.
    destruct (start os fuel (t, w)) as [a s'|e s'|]; cbn in *;
      [destruct H as (Hc & Hm & _)|destruct H as (Hc & HJ')|exact I];
      rewrite Hc.
    + split; [exact HR|]. intros _. exact Hm.
    + split; assumption.
  - apply stop_preserves. intros t [HR _]. split; [exact HR|].
    unfold alive_has_master. cbn. discriminate.
  - eapply triple_bind; [apply execute_command_preserves|].
    intros ?. apply triple_ret. auto.
Qed.

End Lifecycle.

(** Every reachable manager has its counter within the budget and, when
    marked alive, an open master handle. *)
Lemma reachable_sound {W} (os : OS W) t :
  reachable os t -> sound t.
Proof.
  induction 1 as [wd|fuel o t w s' _ IH Hs].
  - split; [unfold attempts_in_range, MAX_RECONNECT_ATTEMPTS; cbn; lia|].
    unfold alive_has_master. cbn. discriminate.
  - pose proof (perform_preserves os fuel o t w IH) as H.
    destruct (perform os fuel o (t, w)) as [a s|e s|]; cbn in Hs;
      [injection Hs as <-|injection Hs as <-|discriminate Hs]; exact H.
Qed.

Lemma perform_all_reachable {W} (os : OS W) fuel ops :
  forall t w s',
    reachable os t ->
    perform_all os fuel ops (t, w) = Some s' ->
    reachable os (fst s').
Proof.
  induction ops as [|o ops IH]; intros t w s' Ht H; cbn in H.
  - injection H as <-. exact Ht.
  - destruct (final (perform os fuel o (t, w))) as [[t1 w1]|] eqn:Ho;
      [|discriminate H].
    apply (IH t1 w1 s'); [|exact H].
    change t1 with (fst (t1, w1)). eapply reachable_step; eassumption.
Qed.

(** ** [stop] *)

Section Stop.

(** Closing a handle never makes [stop] raise. *)
Lemma close_absorbed {W} (os : OS W) (o : option fd) t w :
  exists w',
    match o with
    | Some m => try_except (syscall (close os m)) is_OSError (fun _ => ret tt)
    | None => ret tt
    end (t, w) = Ret tt (t, w').
Proof.
  destruct o as [m|]; [|exists w; reflexivity].
  unfold try_except, syscall, ret. cbn [fst snd].
  destruct (close os m w) as [[e|[]] w']; [destruct e|]; cbn;
    exists w'; reflexivity.
Qed.

Lemma kill_absorbed {W} (os : OS W) t w :
  kill_tolerated os (t, w) ->
  exists w',
    match shell_pid t with
    | Some p =>
        try_except (syscall (kill os p SIGKILL))
          is_ProcessLookupError (fun _ => ret tt)
    | None => ret tt
    end (t, w) = Ret tt (t, w').
Proof.
  unfold kill_tolerated. cbn [fst snd].
  destruct (shell_pid t) as [p|]; [|intros _; exists w; reflexivity].
  unfold try_except, syscall, ret. cbn [fst snd].
  destruct (kill os p SIGKILL w) as [[e|[]] w']; cbn [fst];
    intros [H|H]; try discriminate H.
  - injection H as ->. exists w'. reflexivity.
  - exists w'. reflexivity.
Qed.

(** C5, amended: [stop] on a session that tracks no child and no handle
    makes no system call, returns, and leaves the not-alive state; [stop]
    on any session returns with the four session fields reset whenever
    killing the child succeeds or finds it gone, whatever closing the handles
    does; and a second [stop] after one that returned changes nothing. *)
Theorem stop_resets_session :
  forall (W : Type) (os : OS W),
    (forall t w,
        shell_pid t = None -> master_fd t = None -> slave_fd t = None ->
        stop os (t, w) = Ret tt (reset t, w)) /\
    (forall t w,
        kill_tolerated os (t, w) ->
        exists w', stop os (t, w) = Ret tt (reset t, w')) /\
    (forall s s', stop os s = Ret tt s' -> stop os s' = Ret tt s').
Proof.
  intros W os.
  assert (H1 : forall t w,
             shell_pid t = None -> master_fd t = None -> slave_fd t = None ->
             stop os (t, w) = Ret tt (reset t, w)).
  { intros [wd m sl p a n] w Hp Hm Hs. cbn in Hp, Hm, Hs. subst.
    reflexivity. }
  split; [exact H1|split].
  - intros t w Hk. unfold stop.
    destruct (kill_absorbed os t w Hk) as [w1 E1].
    destruct (close_absorbed os (master_fd t) t w1) as [w2 E2].
    destruct (close_absorbed os (slave_fd t) t w2) as [w3 E3].
    rewrite bind_get_self, (bind_Ret _ _ _ _ _ E1).
    rewrite bind_get_self, (bind_Ret _ _ _ _ _ E2).
    rewrite bind_get_self, (bind_Ret _ _ _ _ _ E3).
    exists w3. reflexivity.
  - intros [t w] [t' w'] H.
    pose proof (stop_spec os t t w eq_refl) as Hs. rewrite H in Hs.
    cbn in Hs. subst t'.
    exact (H1 (reset t) w' eq_refl eq_refl eq_refl).
Qed.

Lemma stop_resets_session_witness :
  stop sim_os (fresh, quiet []) = Ret tt (reset fresh, quiet []) /\
  (exists w', stop sim_os (running, quiet []) = Ret tt (reset running, w')).
Proof.
  split.
  - exact (proj1 (stop_resets_session world sim_os) fresh (quiet [])
             eq_refl eq_refl eq_refl).
  - apply (proj1 (proj2 (stop_resets_session world sim_os))).
    left. reflexivity.
Defined.

(** C5, as stated, fails: when killing the child is refused
    ([PermissionError]), [stop] raises and resets nothing. *)
Lemma stop_raises_when_kill_is_denied :
  stop sim_os (running, kill_denied)
  = Raise PermissionError (running, quiet []) /\
  master_fd running = Some 3 /\ _process_alive running = true.
Proof. repeat split. Qed.

End Stop.

(** ** The master handle and the alive flag *)

Section MasterHandle.

Lemma running_reachable : reachable sim_os running.
Proof.
  change running
    with (fst (running, mkWorld 1500 [] [] (Some EAGAIN) [] [] [])).
  apply (@reachable_step _ sim_os 20%nat Start fresh (quiet [shell_greeting]));
    [apply reachable_init|].
  vm_compute. reflexivity.
Qed.

(** C9, amended: in every state reachable by the public operations a set
    alive flag comes with an open master handle, and the two agree in the
    state left by every [stop] that returns and by every [start] that
    returns. *)
Theorem alive_implies_master :
  forall (W : Type) (os : OS W),
    (forall t, reachable os t -> _process_alive t = true ->
               master_fd t <> None) /\
    (forall t w s', stop os (t, w) = Ret tt s' -> master_iff_alive (fst s')) /\
    (forall fuel t w s',
        reachable os t ->
        start os fuel (t, w) = Ret tt s' -> master_iff_alive (fst s')).
Proof.
  intros W os. split; [|split].
  - intros t Ht. exact (proj2 (reachable_sound os t Ht)).
  - intros t w s' H.
    pose proof (stop_spec os t t w eq_refl) as Hs. rewrite H in Hs.
    cbn in Hs. rewrite Hs. unfold master_iff_alive. cbn.
    split; [congruence|discriminate].
  - intros fuel t w s' Ht H.
    pose proof (start_spec os fuel (_reconnect_attempts t) t w
                  (conj eq_refl (proj2 (reachable_sound os t Ht)))) as Hs.
    rewrite H in Hs. destruct Hs as (_ & Hm & Ha).
    split; intros _; assumption.
Qed.

Lemma alive_implies_master_witness :
  reachable sim_os running /\ _process_alive running = true /\
  master_fd running <> None.
Proof.
  split; [exact running_reachable|]. split; [reflexivity|].
  exact (proj1 (alive_implies_master world sim_os) running
           running_reachable eq_refl).
Defined.

(** C9, as stated, fails: after three failed reconnections, a [start] that
    succeeds and the death of the child, [execute_command] finds the budget
    used up and leaves the master handle open in a session marked not
    alive. *)
Lemma master_open_while_not_alive :
  exists t,
    reachable sim_os t /\ master_fd t = Some 3 /\ _process_alive t = false /\
    ~ master_iff_alive t.
Proof.
  pose (ops := [Execute (lit "ls") 10; Execute (lit "ls") 10; Start;
                Execute (lit "ls") 10]).
  pose (t := mkManager (lit "/srv") (Some 3) None (Some 100%positive) false 3).
  assert (E : perform_all sim_os 100 ops (fresh, three_failures_then_death)
              = Some (t, mkWorld 7500 [] [] (Some EAGAIN) [] [] []))
    by (vm_compute; reflexivity).
  exists t. split; [|split; [reflexivity|split; [reflexivity|]]].
  - exact (perform_all_reachable sim_os 100 ops fresh _ _
             (reachable_init sim_os (lit "/srv")) E).
  - intros [H _]. cbn in H. discriminate H. discriminate.
Qed.

End MasterHandle.

(** ** The reconnection budget *)

Section Budget.

Context {W : Type} (os : OS W) (fuel : nat).

(** A call that finds the child dead and returns [False] leaves the counter
    one higher, unless the budget was used up already. *)
Lemma failed_call_counts t w t' w' :
  sound t ->
  child_dead os (t, w) ->
  _ensure_connection os fuel (t, w) = Ret false (t', w') ->
  sound t' /\
  _reconnect_attempts t'
  = if _reconnect_attempts t >=? MAX_RECONNECT_ATTEMPTS
    then _reconnect_attempts t else _reconnect_attempts t + 1.
Proof.
  intros Hs Hd He. split.
  - pose proof (ensure_connection_preserves os fuel t w Hs) as H.
    rewrite He in H. exact H.
  - pose proof (ensure_connection_when_dead os fuel t w Hd (proj2 Hs)) as H.
    destruct (_reconnect_attempts t >=? MAX_RECONNECT_ATTEMPTS).
    + destruct H as (t1 & w1 & H & Ht1). rewrite He in H.
      injection H as -> ->. destruct Ht1; subst; reflexivity.
    + rewrite He in H. exact H.
Qed.

End Budget.

(** C4, amended: in every reachable state the counter of reconnection
    attempts is in [0, 3]; when four calls in a row find the child dead and
    the first three return false, the fourth returns false without raising,
    with the counter at 3; a call that finds the child dead and returns true
    has reset the counter to 0; and once the counter is 3 no call of the
    connection-ensuring operation changes it. *)
Theorem reconnect_budget :
  forall (W : Type) (os : OS W) (fuel : nat),
    (forall t, reachable os t -> 0 <= _reconnect_attempts t <= 3) /\
    (forall t0 w1 t1 w1' w2 t2 w2' w3 t3 w3' w4,
        reachable os t0 ->
        child_dead os (t0, w1) ->
        _ensure_connection os fuel (t0, w1) = Ret false (t1, w1') ->
        child_dead os (t1, w2) ->
        _ensure_connection os fuel (t1, w2) = Ret false (t2, w2') ->
        child_dead os (t2, w3) ->
        _ensure_connection os fuel (t2, w3) = Ret false (t3, w3') ->
        child_dead os (t3, w4) ->
        exists t4 w4',
          _ensure_connection os fuel (t3, w4) = Ret false (t4, w4') /\
          _reconnect_attempts t4 = 3) /\
    (forall t w s',
        reachable os t ->
        child_dead os (t, w) ->
        _ensure_connection os fuel (t, w) = Ret true s' ->
        _reconnect_attempts (fst s') = 0) /\
    (forall t w s',
        _reconnect_attempts t = 3 ->
        final (_ensure_connection os fuel (t, w)) = Some s' ->
        _reconnect_attempts (fst s') = 3).
Proof.
  intros W os fuel. split; [|split; [|split]].
  - intros t Ht. exact (proj1 (reachable_sound os t Ht)).
  - intros t0 w1 t1 w1' w2 t2 w2' w3 t3 w3' w4 Ht0 D1 E1 D2 E2 D3 E3 D4.
    pose proof (reachable_sound os t0 Ht0) as S0.
    destruct (failed_call_counts os fuel t0 w1 t1 w1' S0 D1 E1) as [S1 C1].
    destruct (failed_call_counts os fuel t1 w2 t2 w2' S1 D2 E2) as [S2 C2].
    destruct (failed_call_counts os fuel t2 w3 t3 w3' S2 D3 E3) as [S3 C3].
    assert (H3 : _reconnect_attempts t3 = 3).
    { destruct S0 as [R0 _], S3 as [R3 _].
      unfold attempts_in_range, MAX_RECONNECT_ATTEMPTS in *.
      destruct (_reconnect_attempts t0 >=? 3) eqn:G0;
        destruct (_reconnect_attempts t1 >=? 3) eqn:G1;
        destruct (_reconnect_attempts t2 >=? 3) eqn:G2; lia. }
    pose proof (ensure_connection_when_dead os fuel t3 w4 D4 (proj2 S3)) as H.
    rewrite H3 in H. cbn in H. destruct H as (t4 & w4' & H & Ht4).
    exists t4, w4'. split; [exact H|].
    destruct Ht4; subst; exact H3.
  - intros t w s' Ht Hd He.
    pose proof (ensure_connection_when_dead os fuel t w Hd
                  (proj2 (reachable_sound os t Ht))) as H.
    destruct (_reconnect_attempts t >=? MAX_RECONNECT_ATTEMPTS).
    + destruct H as (t1 & w1 & H & _). rewrite He in H. discriminate H.
    + rewrite He in H. apply H.
  - intros t w s' Hc Hf.
    pose proof (ensure_connection_exhausted_stays os fuel 3
                  (Z.le_refl _) t w Hc) as H.
    destruct (_ensure_connection os fuel (t, w)) as [a s|e s|]; cbn in Hf;
      [injection Hf as <-|injection Hf as <-|discriminate Hf]; exact H.
Qed.

Lemma reconnect_budget_witness :
  0 <= _reconnect_attempts running <= 3 /\
  exists t4 w4',
    _ensure_connection sim_os 100 (failed 3, failures_left 3000 [])
    = Ret false (t4, w4') /\
    _reconnect_attempts t4 = 3.
Proof.
  split.
  - exact (proj1 (reconnect_budget world sim_os 100) running running_reachable).
  - apply (proj1 (proj2 (reconnect_budget world sim_os 100))
             fresh three_failures
             (failed 1) (failures_left 1000 [Some EIO; Some EIO])
             (failures_left 1000 [Some EIO; Some EIO])
             (failed 2) (failures_left 2000 [Some EIO])
             (failures_left 2000 [Some EIO])
             (failed 3) (failures_left 3000 [])).
    + apply reachable_init.
    + exact I.
    + vm_compute. reflexivity.
    + exact I.
    + vm_compute. reflexivity.
    + exact I.
    + vm_compute. reflexivity.
    + exact I.
Defined.

(** C4, as stated, fails in its last part: after the fourth call the budget
    is used up for good. In a world where a [start] succeeds, the next call
    of the connection-ensuring operation still returns false and attempts
    nothing; and when the session is started from outside, the operation
    returns true with the counter still at 3. *)
Lemma exhausted_budget_is_never_reset :
  _ensure_connection sim_os 100 (fresh, three_failures)
  = Ret false (failed 1, failures_left 1000 [Some EIO; Some EIO]) /\
  _ensure_connection sim_os 100
    (failed 1, failures_left 1000 [Some EIO; Some EIO])
  = Ret false (failed 2, failures_left 2000 [Some EIO]) /\
  _ensure_connection sim_os 100 (failed 2, failures_left 2000 [Some EIO])
  = Ret false (failed 3, failures_left 3000 []) /\
  _ensure_connection sim_os 100 (failed 3, failures_left 3000 [])
  = Ret false (failed 3, failures_left 3000 []) /\
  start sim_os 100 (failed 3, failures_left 3000 [])
  = Ret tt (restarted, mkWorld 4500 [] [] (Some EAGAIN) [] [] []) /\
  _ensure_connection sim_os 100
    (restarted, mkWorld 4500 [] [] (Some EAGAIN) [] [] [])
  = Ret true (restarted, mkWorld 4500 [] [] (Some EAGAIN) [] [] []) /\
  _reconnect_attempts restarted = 3.
Proof. repeat split; vm_compute; reflexivity. Qed.

(** ** The output reader *)

Section Reader.

Lemma os_read_returns {W} (os : OS W) n t w m b w' :
  master_fd t = Some m ->
  read os m n w = (inr b, w') ->
  os_read os n (t, w) = Ret b (t, w').
Proof.
  intros Hm Hr. unfold os_read. rewrite bind_get_self, Hm.
  unfold syscall. cbn [fst snd]. now rewrite Hr.
Qed.

Lemma os_read_raises {W} (os : OS W) n t w m e w' :
  master_fd t = Some m ->
  read os m n w = (inl e, w') ->
  os_read os n (t, w) = Raise (os_error e) (t, w').
Proof.
  intros Hm Hr. unfold os_read. rewrite bind_get_self, Hm.
  unfold syscall. cbn [fst snd]. now rewrite Hr.
Qed.

Lemma gtb_false a b : a <= b -> (a >? b) = false.
Proof. intros H. rewrite Z.gtb_ltb. apply Z.ltb_ge. exact H. Qed.

Lemma bind_time {W B} (os : OS W) t w (k : Z -> M W B) :
  bind (time os) k (t, w) = k (loop_time os w) (t, w).
Proof. reflexivity. Qed.

(** The iterations of the read loop, by what the two time tests and the
    read yield. *)

Lemma read_iteration_quiescent {W} (os : OS W) timeout start_time l t w :
  (loop_time os w - start_time >? 1000 * timeout) = false ->
  (loop_time os w - last_read_time l >? 2000)
    && negb (falsy (output_chunks l)) = true ->
  read_iteration os timeout start_time l (t, w) = Ret (inr l) (t, w).
Proof.
  intros Ht Hq. unfold read_iteration.
  rewrite bind_time, Ht, Hq. reflexivity.
Qed.

Lemma read_iteration_data {W} (os : OS W) timeout start_time l t w m w'
  chunk text :
  master_fd t = Some m ->
  (loop_time os w - start_time >? 1000 * timeout) = false ->
  (loop_time os w - last_read_time l >? 2000)
    && negb (falsy (output_chunks l)) = false ->
  read os m 4096 w = (inr chunk, w') ->
  falsy chunk = false ->
  decode (buffer l ++ chunk) = Some text ->
  read_iteration os timeout start_time l (t, w)
  = Ret (inl (mkReader (output_chunks l ++ [text]) (loop_time os w) 0 []))
      (t, w').
Proof.
  intros Hm Ht Hq Hr Hc Hd. unfold read_iteration.
  rewrite bind_time, Ht, Hq. unfold try_except2.
  rewrite bind_get_self, Hm.
  rewrite (bind_Ret _ _ _ _ _ (os_read_returns os 4096 t w m chunk w' Hm Hr)).
  rewrite Hc. cbn [negb]. cbv zeta. rewrite Hd. reflexivity.
Qed.

Lemma read_iteration_empty {W} (os : OS W) timeout start_time l t w m w' :
  master_fd t = Some m ->
  (loop_time os w - start_time >? 1000 * timeout) = false ->
  (loop_time os w - last_read_time l >? 2000)
    && negb (falsy (output_chunks l)) = false ->
  read os m 4096 w = (inr [], w') ->
  read_iteration os timeout start_time l (t, w)
  = let l' := mkReader (output_chunks l) (last_read_time l)
                (retry_count l + 1) (buffer l) in
    if retry_count l + 1 >=? 50 then
      if falsy (output_chunks l)
      then Raise (RuntimeError NoDataAfterMaxRetries) (t, w')
      else Ret (inr l') (t, w')
    else Ret (inl l') (t, sleep os 100 w').
Proof.
  intros Hm Ht Hq Hr. unfold read_iteration.
  rewrite bind_time, Ht, Hq. unfold try_except2.
  rewrite bind_get_self, Hm.
  rewrite (bind_Ret _ _ _ _ _ (os_read_returns os 4096 t w m [] w' Hm Hr)).
  cbn [falsy negb]. cbv zeta. unfold MAX_READ_RETRIES, READ_TIMEOUT.
  destruct (retry_count l + 1 >=? 50).
  - destruct (falsy (output_chunks l)); reflexivity.
  - reflexivity.
Qed.

Lemma read_iteration_would_block {W} (os : OS W) timeout start_time l t w m w' :
  master_fd t = Some m ->
  (loop_time os w - start_time >? 1000 * timeout) = false ->
  (loop_time os w - last_read_time l >? 2000)
    && negb (falsy (output_chunks l)) = false ->
  read os m 4096 w = (inl EAGAIN, w') ->
  read_iteration os timeout start_time l (t, w)
  = Ret (inl l) (t, sleep os 100 w').
Proof.
  intros Hm Ht Hq Hr. unfold read_iteration.
  rewrite bind_time, Ht, Hq. unfold try_except2.
  rewrite bind_get_self, Hm.
  rewrite (bind_Raise _ _ _ _ _ (os_read_raises os 4096 t w m EAGAIN w' Hm Hr)).
  reflexivity.
Qed.

(** While ["B"] is not due the reader polls every 0.1 s, and it leaves the
    loop at the first poll that comes more than 2 s after ["A"] was read. *)
Lemma wait_for_quiescence delay k :
  2000 < delay ->
  forall (j : nat) ms,
    0 <= ms -> ms + 100 * Z.of_nat j = 2100 ->
    loop (S j + k) (read_iteration sim_os 10 0) got_A (running, B_due ms delay)
    = Ret got_A (running, B_due 2100 delay).
Proof.
  intros Hd. induction j as [|j IH]; intros ms Hms Hj.
  - assert (ms = 2100) by lia. subst ms. cbn [loop Nat.add].
    rewrite (bind_Ret _ _ _ _ _
               (read_iteration_quiescent sim_os 10 0 got_A running
                  (B_due 2100 delay) eq_refl eq_refl)).
    reflexivity.
  - cbn [loop Nat.add].
    assert (Hr : read sim_os 3 4096 (B_due ms delay)
                 = (inl EAGAIN, B_due ms delay)).
    { cbn. unfold sim_read, arrived. cbn.
      rewrite (proj2 (Z.leb_gt delay ms)) by lia. reflexivity. }
    rewrite (bind_Ret _ _ _ _ _
               (read_iteration_would_block sim_os 10 0 got_A running
                  (B_due ms delay) 3 (B_due ms delay) eq_refl
                  ltac:(apply gtb_false; cbn; lia)
                  ltac:(cbn; rewrite andb_true_r; apply gtb_false; lia) Hr)).
    apply (IH (ms + 100)); lia.
Qed.

Lemma read_A_alone delay k :
  2000 < delay ->
  _read_terminal_output sim_os (23 + k) 10 (running, A_then_B_after delay)
  = Ret (lit "A") (running, B_due 2100 delay).
Proof.
  intros Hd. unfold _read_terminal_output.
  rewrite bind_get_self.
  cbn [running master_fd _process_alive truthy_fd negb orb Z.eqb].
  rewrite bind_time.
  change (loop_time sim_os (A_then_B_after delay)) with 0.
  assert (Hloop : loop (23 + k) (read_iteration sim_os 10 0)
                    (mkReader [] 0 0 []) (running, A_then_B_after delay)
                  = Ret got_A (running, B_due 2100 delay)).
  { change (23 + k)%nat with (S (S 21 + k)). cbn [loop].
    assert (Hr : read sim_os 3 4096 (A_then_B_after delay)
                 = (inr (text "A"), B_due 0 delay)).
    { cbn. unfold sim_read, arrived, not_arrived. cbn.
      rewrite (proj2 (Z.leb_gt delay 0)) by lia. reflexivity. }
    rewrite (bind_Ret _ _ _ _ _
               (read_iteration_data sim_os 10 0 (mkReader [] 0 0 []) running
                  (A_then_B_after delay) 3 (B_due 0 delay) (text "A") (lit "A")
                  eq_refl eq_refl eq_refl Hr eq_refl eq_refl)).
    apply (wait_for_quiescence delay k Hd 21 0); lia. }
  rewrite (bind_Ret _ _ _ _ _ Hloop). reflexivity.
Qed.

Lemma read_A_then_B :
  _read_terminal_output sim_os 23 10 (running, A_then_B)
  = Ret (lit "A") (running, B_due 2100 3000).
Proof. exact (read_A_alone 3000 0 eq_refl). Qed.

(** Once some text has been read, an iteration that starts more than two
    seconds after the last read leaves the loop without reading. *)
Lemma read_iteration_leaves_when_quiet {W} (os : OS W) timeout start_time l
  t w :
  (loop_time os w - last_read_time l >? 2000) = true ->
  output_chunks l <> [] ->
  read_iteration os timeout start_time l (t, w) = Ret (inr l) (t, w).
Proof.
  intros Hq Hc. unfold read_iteration. rewrite bind_time, Hq.
  destruct (output_chunks l) as [|c chunks]; [congruence|].
  cbn [falsy negb andb].
  destruct (loop_time os w - start_time >? 1000 * timeout); reflexivity.
Qed.

(** The same wait on a loop whose sleeps last longer than asked: the reader
    polls while no more than 2 s have passed since ["A"] was read, finds
    nothing, and leaves at the first poll after that. *)
Lemma wait_for_quiescence_late extra delay k :
  0 <= extra -> 2000 < delay ->
  forall (n : nat) ms,
    0 <= ms -> 2000 - ms < 100 * Z.of_nat n ->
    exists ms',
      loop (S n + k) (read_iteration (late_os extra) 10 0) got_A
        (running, B_due ms delay)
      = Ret got_A (running, B_due ms' delay).
Proof.
  intros He Hd.
  assert (Hleave : forall j ms, 2000 < ms ->
            loop (S j) (read_iteration (late_os extra) 10 0) got_A
              (running, B_due ms delay)
            = Ret got_A (running, B_due ms delay)).
  { intros j ms Hms. cbn [loop].
    rewrite (bind_Ret _ _ _ _ _
               (read_iteration_leaves_when_quiet (late_os extra) 10 0 got_A
                  running (B_due ms delay)
                  ltac:(cbn; rewrite Z.gtb_ltb; apply Z.ltb_lt; lia)
                  ltac:(discriminate))).
    reflexivity. }
  induction n as [|n IH]; intros ms Hms Hn.
  - exists ms. apply Hleave. lia.
  - destruct (Z_lt_le_dec 2000 ms) as [Hgt|Hle].
    + exists ms. apply Hleave. exact Hgt.
    + assert (Hr : read (late_os extra) 3 4096 (B_due ms delay)
                   = (inl EAGAIN, B_due ms delay)).
      { cbn. unfold sim_read, arrived. cbn.
        rewrite (proj2 (Z.leb_gt delay ms)) by lia. reflexivity. }
      destruct (IH (ms + (100 + extra))) as [ms' Hms']; [lia|lia|].
      exists ms'. change (S (S n) + k)%nat with (S (S n + k)).
      cbn [loop].
      rewrite (bind_Ret _ _ _ _ _
                 (read_iteration_would_block (late_os extra) 10 0 got_A running
                    (B_due ms delay) 3 (B_due ms delay) eq_refl
                    ltac:(apply gtb_false; cbn; lia)
                    ltac:(cbn; rewrite andb_true_r; apply gtb_false; lia) Hr)).
      exact Hms'.
Qed.

Lemma read_A_alone_late extra delay k :
  0 <= extra -> 2000 < delay ->
  exists ms',
    _read_terminal_output (late_os extra) (23 + k) 10
      (running, A_then_B_after delay)
    = Ret (lit "A") (running, B_due ms' delay).
Proof.
  intros He Hd.
  destruct (wait_for_quiescence_late extra delay k He Hd 21 0) as [ms' Hw];
    [lia|lia|].
  exists ms'. unfold _read_terminal_output.
  rewrite bind_get_self.
  cbn [running master_fd _process_alive truthy_fd negb orb Z.eqb].
  rewrite bind_time.
  change (loop_time (late_os extra) (A_then_B_after delay)) with 0.
  assert (Hloop : loop (23 + k) (read_iteration (late_os extra) 10 0)
                    (mkReader [] 0 0 []) (running, A_then_B_after delay)
                  = Ret got_A (running, B_due ms' delay)).
  { change (23 + k)%nat with (S (S 21 + k)). cbn [loop].
    assert (Hr : read (late_os extra) 3 4096 (A_then_B_after delay)
                 = (inr (text "A"), B_due 0 delay)).
    { cbn. unfold sim_read, arrived, not_arrived. cbn.
      rewrite (proj2 (Z.leb_gt delay 0)) by lia. reflexivity. }
    rewrite (bind_Ret _ _ _ _ _
               (read_iteration_data (late_os extra) 10 0 (mkReader [] 0 0 [])
                  running (A_then_B_after delay) 3 (B_due 0 delay) (text "A")
                  (lit "A") eq_refl eq_refl eq_refl Hr eq_refl eq_refl)).
    exact Hw. }
  rewrite (bind_Ret _ _ _ _ _ Hloop). reflexivity.
Qed.




(** C7, amended: in an iteration of the read loop that passes the two time
    tests, a read that returns no byte ([b'']) raises the retry counter;
    the reader then sleeps 0.1 s and goes on while the counter is below 50,
    and at 50 it raises [RuntimeError] if no text was accumulated and leaves
    the loop otherwise; a read that would block ([BlockingIOError]) sleeps
    0.1 s and leaves the counter as it is; and when the loop is left the
    reader returns the accumulated text (with the undecoded rest of the
    buffer, decoded with replacement). *)
Theorem empty_reads_use_the_retry_budget :
  forall (W : Type) (os : OS W),
    (forall timeout start_time l t w m,
        master_fd t = Some m ->
        (loop_time os w - start_time >? 1000 * timeout) = false ->
        (loop_time os w - last_read_time l >? 2000)
          && negb (falsy (output_chunks l)) = false ->
        (forall w',
            read os m 4096 w = (inr [], w') ->
            read_iteration os timeout start_time l (t, w)
            = let l' := mkReader (output_chunks l) (last_read_time l)
                          (retry_count l + 1) (buffer l) in
              if retry_count l + 1 >=? 50 then
                if falsy (output_chunks l)
                then Raise (RuntimeError NoDataAfterMaxRetries) (t, w')
                else Ret (inr l') (t, w')
              else Ret (inl l') (t, sleep os 100 w')) /\
        (forall w',
            read os m 4096 w = (inl EAGAIN, w') ->
            read_iteration os timeout start_time l (t, w)
            = Ret (inl l) (t, sleep os 100 w'))) /\
    (forall fuel timeout t w l s',
        truthy_fd (master_fd t) = true ->
        _process_alive t = true ->
        loop fuel (read_iteration os timeout (loop_time os w))
          (mkReader [] (loop_time os w) 0 []) (t, w) = Ret l s' ->
        _read_terminal_output os fuel timeout (t, w)
        = Ret (List.concat
                 (output_chunks l ++
                  if falsy (buffer l) then []
                  else [decode_replace (buffer l)])) s').
Proof.
  intros W os. split.
  - intros timeout start_time l t w m Hm Ht Hq. split; intros w' Hr.
    + exact (read_iteration_empty os timeout start_time l t w m w'
               Hm Ht Hq Hr).
    + exact (read_iteration_would_block os timeout start_time l t w m w'
               Hm Ht Hq Hr).
  - intros fuel timeout t w l s' Hm Ha Hl.
    unfold _read_terminal_output. rewrite bind_get_self, Hm, Ha.
    cbn [negb orb]. rewrite bind_time, (bind_Ret _ _ _ _ _ Hl).
    destruct (buffer l); cbn [falsy negb]; [rewrite app_nil_r|]; reflexivity.
Qed.

Lemma empty_reads_use_the_retry_budget_witness :
  read_iteration sim_os 10 0 (reading 0) (running, ended_at 0)
  = Ret (inl (reading 1)) (running, ended_at 100) /\
  read_iteration sim_os 10 0 (reading 49) (running, ended_at 4900)
  = Raise (RuntimeError NoDataAfterMaxRetries) (running, ended_at 4900) /\
  read_iteration sim_os 10 0 (reading 0) (running, silent_at 0)
  = Ret (inl (reading 0)) (running, silent_at 100).
Proof.
  split; [|split].
  - exact (proj1 (proj1 (empty_reads_use_the_retry_budget world sim_os)
                    10 0 (reading 0) running (ended_at 0) 3
                    eq_refl eq_refl eq_refl)
             (ended_at 0) eq_refl).
  - exact (proj1 (proj1 (empty_reads_use_the_retry_budget world sim_os)
                    10 0 (reading 49) running (ended_at 4900) 3
                    eq_refl eq_refl eq_refl)
             (ended_at 4900) eq_refl).
  - exact (proj2 (proj1 (empty_reads_use_the_retry_budget world sim_os)
                    10 0 (reading 0) running (silent_at 0) 3
                    eq_refl eq_refl eq_refl)
             (silent_at 0) eq_refl).
Defined.

(** C7, as stated, fails: a read that would block does not use the retry
    budget. From a source that stays silent the counter is still 0 after
    such a read, and with a timeout of 10 seconds the reader, after a
    hundred reads that would block, raises [TimeoutError], not
    [RuntimeError]. From a source at its end the budget applies. *)
Lemma would_block_reads_are_not_counted :
  read sim_os 3 4096 (silent_at 0) = (inl EAGAIN, silent_at 0) /\
  read_iteration sim_os 10 0 (reading 0) (running, silent_at 0)
  = Ret (inl (reading 0)) (running, silent_at 100) /\
  _read_terminal_output sim_os 200 10 (running, silent_at 0)
  = Raise (TimeoutError 10) (running, silent_at 10100) /\
  _read_terminal_output sim_os 200 10 (running, ended_at 0)
  = Raise (RuntimeError NoDataAfterMaxRetries) (running, ended_at 4900).
Proof. repeat split; vm_compute; reflexivity. Qed.

End Reader.

(** ** The command executor *)

Section Executor.

Context {W : Type} (os : OS W) (fuel : nat).

Lemma try_except_reraise {A} (m : M W A) classes s :
  try_except m classes (fun e => raise e) s = m s.
Proof.
  unfold try_except, raise. destruct (m s) as [a s'|e s'|]; try reflexivity.
  destruct (classes e); reflexivity.
Qed.

(** What round 0 raises and the handler catches is followed, one second
    later, by round 1, whose result is the result of the call. *)
Lemma execute_command_retries command timeout s e s1 :
  attempt os fuel command timeout s = Raise e s1 ->
  caught_by_execute e = true ->
  execute_command os fuel command timeout s
  = attempt os fuel command timeout (fst s1, sleep os 1000 (snd s1)).
Proof.
  intros Ha He. unfold execute_command.
  rewrite (try_except_caught _ _ _ _ _ _ Ha He).
  unfold bind at 1, asyncio_sleep at 1. apply try_except_reraise.
Qed.

(** In particular a [TimeoutError] of round 0 is followed by round 1. *)
Corollary execute_command_retries_after_timeout command timeout s n s1 :
  attempt os fuel command timeout s = Raise (TimeoutError n) s1 ->
  execute_command os fuel command timeout s
  = attempt os fuel command timeout (fst s1, sleep os 1000 (snd s1)).
Proof.
  intros H. exact (execute_command_retries _ _ _ _ _ H eq_refl).
Qed.

Lemma attempt_not_connected command timeout s s1 :
  _ensure_connection os fuel s = Ret false s1 ->
  attempt os fuel command timeout s
  = Raise (RuntimeError FailedToEstablish) s1.
Proof.
  intros H. unfold attempt. rewrite (bind_Ret _ _ _ _ _ H). reflexivity.
Qed.

Lemma ensure_connection_exhausted t w :
  _process_alive t = false ->
  MAX_RECONNECT_ATTEMPTS <= _reconnect_attempts t ->
  _ensure_connection os fuel (t, w) = Ret false (t, w).
Proof.
  intros Ha Hc.
  assert (Hp : probe os (t, w) = Ret false (t, w)).
  { unfold probe. rewrite bind_get_self, Ha. reflexivity. }
  unfold _ensure_connection.
  rewrite (bind_Ret _ _ _ _ _ Hp), bind_get_self.
  destruct (_reconnect_attempts t >=? MAX_RECONNECT_ATTEMPTS) eqn:E;
    [reflexivity|lia].
Qed.

(** A write failure of the probe of the working directory is raised by
    [_get_current_directory]: [os.write] stands before its [try]. *)
Lemma get_current_directory_write_fails t w m e w' :
  master_fd t = Some m ->
  write os m pwd_bytes w = (inl e, w') ->
  _get_current_directory os fuel (t, w) = Raise (os_error e) (t, w').
Proof.
  intros Hm Hw. unfold _get_current_directory.
  rewrite bind_get_self, Hm.
  assert (E : os_write os pwd_bytes (t, w) = Raise (os_error e) (t, w')).
  { unfold os_write. rewrite bind_get_self, Hm. unfold syscall.
    cbn [fst snd]. now rewrite Hw. }
  unfold bind at 1. unfold bind at 1. now rewrite E.
Qed.

(** A round that returns has gone through each of its steps: the
    connection check returned [True], the master handle was open when the
    command was written, and the text returned is the cleaning of what the
    reader returned after that write. *)
Lemma attempt_returns_trace command timeout s cwd cleaned s' :
  attempt os fuel command timeout s = Ret (cwd, cleaned) s' ->
  exists s1 s2 s3 s4 output,
    _ensure_connection os fuel s = Ret true s1 /\
    _clear_initial_output os fuel s1 = Ret tt s2 /\
    master_fd (fst s2) <> None /\
    _send_command_to_terminal os command s2 = Ret tt s3 /\
    _read_terminal_output os fuel timeout s3 = Ret output s4 /\
    _get_current_directory os fuel s4 = Ret cwd s' /\
    cleaned = _clean_output command output.
Proof.
  unfold attempt. unfold bind at 1.
  destruct (_ensure_connection os fuel s) as [[|] s1|e s1|];
    cbn [negb]; try discriminate.
  unfold bind at 1.
  destruct (_clear_initial_output os fuel s1) as [[] s2|e s2|] eqn:E2;
    try discriminate.
  destruct s2 as [t2 w2]. rewrite bind_get_self.
  destruct (master_fd t2) as [m|] eqn:Em; [|discriminate].
  unfold bind at 1.
  destruct (_send_command_to_terminal os command (t2, w2)) as [[] s3|e s3|]
    eqn:E3; try discriminate.
  unfold bind at 1. unfold _retrieve_command_output.
  rewrite try_except_reraise.
  destruct (_read_terminal_output os fuel timeout s3) as [output s4|e s4|]
    eqn:E4; try discriminate.
  unfold bind at 1.
  destruct (_get_current_directory os fuel s4) as [cwd' s5|e s5|] eqn:E5;
    try discriminate.
  unfold ret. intros H. injection H as <- <- <-.
  exists s1, (t2, w2), s3, s4, output. cbn [fst]. rewrite Em.
  repeat split; try assumption; try reflexivity. discriminate.
Qed.

(** What [execute_command] returns is what its first round returned, or
    what the second round returned, one second after a failure of the first
    that the handler caught. *)
Lemma execute_command_returns_round command timeout s r s' :
  execute_command os fuel command timeout s = Ret r s' ->
  exists s0,
    (s0 = s \/
     exists e sa,
       attempt os fuel command timeout s = Raise e sa /\
       caught_by_execute e = true /\
       s0 = (fst sa, sleep os 1000 (snd sa))) /\
    attempt os fuel command timeout s0 = Ret r s'.
Proof.
  unfold execute_command, try_except at 1.
  destruct (attempt os fuel command timeout s) as [r1 s1|e s1|] eqn:E1.
  - intros H. injection H as <- <-. exists s. split; [now left|exact E1].
  - destruct (caught_by_execute e) eqn:Ec; [|discriminate].
    unfold bind at 1, asyncio_sleep at 1. rewrite try_except_reraise.
    intros H. exists (fst s1, sleep os 1000 (snd s1)).
    split; [|exact H]. right. exists e, s1. auto.
  - discriminate.
Qed.

End Executor.

(** C8, amended: when the connection-ensuring step of the first round
    reports failure, [execute_command] sleeps one second and runs the second
    round, whose result it returns or raises; the connection failure reaches
    the caller when the step reports failure in the second round too, which
    it always does when the session is not alive and the budget is used
    up. *)
Theorem connection_failure_is_retried_once :
  forall (W : Type) (os : OS W) (fuel : nat) command timeout,
    (forall s s1,
        _ensure_connection os fuel s = Ret false s1 ->
        execute_command os fuel command timeout s
        = attempt os fuel command timeout (fst s1, sleep os 1000 (snd s1))) /\
    (forall s s1 s2,
        _ensure_connection os fuel s = Ret false s1 ->
        _ensure_connection os fuel (fst s1, sleep os 1000 (snd s1))
        = Ret false s2 ->
        execute_command os fuel command timeout s
        = Raise (RuntimeError FailedToEstablish) s2) /\
    (forall t w,
        _process_alive t = false ->
        3 <= _reconnect_attempts t ->
        execute_command os fuel command timeout (t, w)
        = Raise (RuntimeError FailedToEstablish) (t, sleep os 1000 w)).
Proof.
  intros W os fuel command timeout.
  assert (H1 : forall s s1,
             _ensure_connection os fuel s = Ret false s1 ->
             execute_command os fuel command timeout s
             = attempt os fuel command timeout
                 (fst s1, sleep os 1000 (snd s1))).
  { intros s s1 H.
    apply (execute_command_retries os fuel command timeout s
             (RuntimeError FailedToEstablish) s1); [|reflexivity].
    apply attempt_not_connected. exact H. }
  assert (H2 : forall s s1 s2,
             _ensure_connection os fuel s = Ret false s1 ->
             _ensure_connection os fuel (fst s1, sleep os 1000 (snd s1))
             = Ret false s2 ->
             execute_command os fuel command timeout s
             = Raise (RuntimeError FailedToEstablish) s2).
  { intros s s1 s2 Ha Hb. rewrite (H1 s s1 Ha).
    apply attempt_not_connected. exact Hb. }
  split; [exact H1|split; [exact H2|]].
  intros t w Ha Hc.
  apply (H2 (t, w) (t, w) (t, sleep os 1000 w));
    apply ensure_connection_exhausted; assumption.
Qed.

Lemma connection_failure_is_retried_once_witness :
  execute_command sim_os 200 (lit "cmd") 10 (failed 3, failures_left 0 [])
  = Raise (RuntimeError FailedToEstablish) (failed 3, failures_left 1000 []).
Proof.
  apply (proj2 (proj2 (connection_failure_is_retried_once
                         world sim_os 200 (lit "cmd") 10))
           (failed 3) (failures_left 0 [])).
  - reflexivity.
  - vm_compute. discriminate.
Defined.

(** C8, as stated, fails. With the budget used up [execute_command] raises
    the connection failure only after its own retry: one second has passed
    and the connection-ensuring step has run twice. With budget left a
    failure of that step does not reach the caller when the step succeeds in
    the second round. *)
Lemma connection_failure_is_not_immediate :
  (exists s1,
      execute_command sim_os 200 (lit "cmd") 10 (failed 3, failures_left 0 [])
      = Raise (RuntimeError FailedToEstablish) s1
      /\ now (snd s1) = 0 + 1000) /\
  _ensure_connection sim_os 200 (fresh, one_failure)
  = Ret false
      (failed 1,
       mkWorld 1000 []
         [shell_greeting; [(100, line "hello")]; [(100, line "/tmp")]]
         (Some EAGAIN) [] [] []) /\
  execute_command sim_os 200 (lit "cmd") 10 (fresh, one_failure)
  = Ret (lit "/tmp", lit "hello") (running, silent_at 9900).
Proof.
  split; [|split].
  - eexists. split; vm_compute; reflexivity.
  - vm_compute. reflexivity.
  - vm_compute. reflexivity.
Qed.

(** C2: a [TimeoutError] of the reader does not reach the caller of
    [execute_command] at once. [TimeoutError] is an [OSError], so the
    handler of round 0 catches it; the command is written a second time one
    second later, and here the call returns the output of the second
    round. *)
Theorem timeout_is_caught_and_retried :
  forall k : nat,
    attempt sim_os (200 + k) (lit "cmd") 10 (running, silent_once)
    = Raise (TimeoutError 10)
        (running,
         mkWorld 11100 [] [[(100, line "hello")]; [(100, line "/tmp")]]
           (Some EAGAIN) [] [] []) /\
    caught_by_execute (TimeoutError 10) = true /\
    execute_command sim_os (200 + k) (lit "cmd") 10 (running, silent_once)
    = Ret (lit "/tmp", lit "hello") (running, silent_at 17500).
Proof.
  intros k. split; [|split; [reflexivity|]].
  - apply (steady_attempt sim_os (lit "cmd") 10 200%nat k); [|discriminate].
    vm_compute. reflexivity.
  - apply (steady_execute_command sim_os (lit "cmd") 10 200%nat k);
      [|discriminate].
    vm_compute. reflexivity.
Qed.

(** C6: a failure of the write of the working-directory probe fails the
    whole command. The round raises the [OSError] of [os.write]; the handler
    of [execute_command] runs the command a second time, and when the write
    fails again the [OSError] reaches the caller. A failure of the read of
    the probe, on the other hand, falls back to the configured directory. *)
Theorem probe_write_failure_fails_the_command :
  forall k : nat,
    attempt sim_os (200 + k) (lit "cmd") 10 (running, probe_write_fails)
    = Raise OSError
        (running,
         mkWorld 3200 [] [[(100, line "hello")]] (Some EAGAIN) [] []
           [WriteAll; WriteFails EIO]) /\
    execute_command sim_os (200 + k) (lit "cmd") 10 (running, probe_write_fails)
    = Raise OSError (running, silent_at 7400) /\
    execute_command sim_os (200 + k) (lit "cmd") 10 (running, probe_unanswered)
    = Ret (working_dir running, lit "hello") (running, silent_at 8300).
Proof.
  intros k. split; [|split].
  - apply (steady_attempt sim_os (lit "cmd") 10 200%nat k); [|discriminate].
    vm_compute. reflexivity.
  - apply (steady_execute_command sim_os (lit "cmd") 10 200%nat k);
      [|discriminate].
    vm_compute. reflexivity.
  - apply (steady_execute_command sim_os (lit "cmd") 10 200%nat k);
      [|discriminate].
    vm_compute. reflexivity.
Qed.

(** C10: for the empty command the cleaner drops the first line of the
    escape-stripped output whatever it contains, the empty string being a
    substring of every line; so when [execute_command] returns for the empty
    command, the text it returns is the cleaning of the lines after the
    first of the output that the reader returned once the command had been
    written. *)
Theorem empty_command_drops_first_line :
  (forall output, _clean_output [] output = without_first_line output) /\
  (forall (W : Type) (os : OS W) fuel timeout s cwd cleaned s',
      execute_command os fuel [] timeout s = Ret (cwd, cleaned) s' ->
      exists s2 s3 s4 output,
        _send_command_to_terminal os [] s2 = Ret tt s3 /\
        _read_terminal_output os fuel timeout s3 = Ret output s4 /\
        _get_current_directory os fuel s4 = Ret cwd s' /\
        cleaned = without_first_line output).
Proof.
  split; [exact clean_output_empty_command|].
  intros W os fuel timeout s cwd cleaned s' H.
  destruct (execute_command_returns_round os fuel [] timeout s _ s' H)
    as (s0 & _ & H0).
  destruct (attempt_returns_trace os fuel [] timeout s0 cwd cleaned s' H0)
    as (s1 & s2 & s3 & s4 & output & _ & _ & _ & Hs & Hr & Hd & ->).
  exists s2, s3, s4, output.
  repeat split; try assumption. apply clean_output_empty_command.
Qed.

Lemma empty_command_drops_first_line_witness :
  _clean_output [] (lit "first" ++ [NL] ++ lit "second") = lit "second" /\
  exists s2 s3 s4 output,
    _send_command_to_terminal sim_os [] s2 = Ret tt s3 /\
    _read_terminal_output sim_os 200 10 s3 = Ret output s4 /\
    _get_current_directory sim_os 200 s4
    = Ret (lit "/tmp") (running, silent_at 5400) /\
    lit "second" = without_first_line output.
Proof.
  split.
  - rewrite (proj1 empty_command_drops_first_line). reflexivity.
  - apply (proj2 empty_command_drops_first_line world sim_os 200%nat 10
             (running, two_lines) (lit "/tmp") (lit "second")
             (running, silent_at 5400)).
    vm_compute. reflexivity.
Defined.

(** * Further properties *)

(** ** The output cleaner: escape sequences *)

Section Escapes.

Import CleanerNotions.
Local Open Scope N_scope.

(** The pattern starts with ESC in both alternatives. *)
Lemma ansi_escape_needs_esc (c : char) (s : str) :
  c <> ESC -> match_at ansi_escape (c :: s) = None.
Proof.
  intros Hc. unfold match_at, ansi_escape, lit1. cbn [run orelse].
  assert (E : N.eqb ESC c = false) by (apply N.eqb_neq; congruence).
  now rewrite E.
Qed.

Lemma sub_from_skip (r : regex) (pre rest : str) :
  sub_from r (List.length pre) (pre ++ rest) = sub_from r O rest.
Proof.
  induction pre as [|c pre IH]; [reflexivity|]. cbn. exact IH.
Qed.

Lemma sub_from_plain (pre rest : str) :
  ~ In ESC pre ->
  sub_from ansi_escape O (pre ++ rest) = pre ++ sub_from ansi_escape O rest.
Proof.
  induction pre as [|c pre IH]; intros H; [reflexivity|].
  cbn [app sub_from].
  rewrite ansi_escape_needs_esc by (intros ->; apply H; left; reflexivity).
  f_equal. apply IH. intros Hin. apply H. right. exact Hin.
Qed.

Lemma sequence_tail_parameters (params : list char) final rest :
  forallb parameter_byte params = true ->
  range 64 126 final = true ->
  sequence_tail (params ++ final :: rest) = Some rest.
Proof.
  intros Hp Hf. unfold sequence_tail.
  induction params as [|p params IH].
  - cbn [app]. destruct rest as [|c rest']; cbn [lazy_star].
    + assert (E : range 32 47 final = false).
      { unfold range in *. apply andb_true_iff in Hf. destruct Hf as [H1 _].
        apply N.leb_le in H1. apply andb_false_iff. right.
        apply N.leb_gt. lia. }
      cbn [star]. rewrite E. cbn [run]. rewrite Hf. reflexivity.
    + assert (E : range 32 47 final = false).
      { unfold range in *. apply andb_true_iff in Hf. destruct Hf as [H1 _].
        apply N.leb_le in H1. apply andb_false_iff. right.
        apply N.leb_gt. lia. }
      cbn [star]. rewrite E. cbn [run]. rewrite Hf. reflexivity.
  - cbn [forallb] in Hp. apply andb_true_iff in Hp. destruct Hp as [Hp Hps].
    unfold parameter_byte, range in Hp. apply andb_true_iff in Hp.
    destruct Hp as [H1 H2]. apply N.leb_le in H1. apply N.leb_le in H2.
    assert (E1 : range 32 47 p = false).
    { unfold range. apply andb_false_iff. right. apply N.leb_gt. lia. }
    assert (E2 : range 64 126 p = false).
    { unfold range. apply andb_false_iff. left. apply N.leb_gt. lia. }
    assert (E3 : dot p = true).
    { unfold dot, NL. apply negb_true_iff. apply N.eqb_neq. lia. }
    cbn [app lazy_star star]. rewrite E1. cbn [run]. rewrite E2, E3.
    cbn [orelse]. apply IH. exact Hps.
Qed.

Lemma ansi_escape_control_sequence (params : list char) final rest :
  forallb parameter_byte params = true ->
  range 64 126 final = true ->
  match_at ansi_escape (ESC :: 91 :: params ++ final :: rest) = Some rest.
Proof.
  intros Hp Hf. unfold match_at, ansi_escape, lit1.
  cbn [run orelse N.eqb ESC Pos.eqb].
  change (range 64 90 91 || range 92 95 91) with false. cbv iota.
  cbn [orelse].
  change (lazy_star dot (params ++ final :: rest) _)
    with (sequence_tail (params ++ final :: rest)).
  rewrite (sequence_tail_parameters params final rest Hp Hf). reflexivity.
Qed.

Lemma sub_from_control_sequence (params : list char) final rest :
  forallb parameter_byte params = true ->
  range 64 126 final = true ->
  sub_from ansi_escape O (ESC :: 91 :: params ++ final :: rest)
  = sub_from ansi_escape O rest.
Proof.
  intros Hp Hf. cbn [sub_from].
  rewrite (ansi_escape_control_sequence params final rest Hp Hf).
  assert (Hlen : (List.length (ESC :: 91%N :: params ++ final :: rest)
                  - List.length rest)%nat
                 = S (S (List.length (params ++ [final])))).
  { cbn [List.length]. rewrite !length_app. cbn [List.length]. lia. }
  rewrite Hlen. cbn [sub_from].
  replace (params ++ final :: rest) with ((params ++ [final]) ++ rest)
    by (rewrite <- app_assoc; reflexivity).
  apply sub_from_skip.
Qed.

(** X1: escape stripping leaves text without ESC as it is. When the text
    before it holds no ESC, a control sequence [ESC [ parameters final] is
    removed whole: the text before it is kept and the stripping goes on
    after its final byte. The condition is needed: after a lone ESC the
    match starts there and ends at the [[] of the sequence, so that
    [ESC ESC [ 1 m x] is left as [1mx]. *)
Theorem control_sequences_are_stripped :
  (forall s, ~ In ESC s -> sub_empty ansi_escape s = s) /\
  (forall pre params final rest,
      ~ In ESC pre ->
      forallb parameter_byte params = true ->
      range 64 126 final = true ->
      sub_empty ansi_escape (pre ++ ESC :: 91 :: params ++ final :: rest)
      = pre ++ sub_empty ansi_escape rest) /\
  sub_empty ansi_escape (ESC :: ESC :: 91 :: lit "1m" ++ lit "x") = lit "1mx".
Proof.
  split; [|split].
  - intros s H. unfold sub_empty.
    rewrite <- (app_nil_r s) at 1. rewrite (sub_from_plain s [] H).
    cbn. apply app_nil_r.
  - intros pre params final rest H Hp Hf. unfold sub_empty.
    rewrite (sub_from_plain pre _ H). f_equal.
    exact (sub_from_control_sequence params final rest Hp Hf).
  - vm_compute. reflexivity.
Qed.

Lemma control_sequences_are_stripped_witness :
  sub_empty ansi_escape (lit "ls -l") = lit "ls -l" /\
  sub_empty ansi_escape
    (lit "a" ++ ESC :: 91 :: lit "1;31" ++ 109 :: lit "red")
  = lit "a" ++ sub_empty ansi_escape (lit "red").
Proof.
  split.
  - apply (proj1 control_sequences_are_stripped).
    vm_compute. intuition discriminate.
  - apply (proj1 (proj2 control_sequences_are_stripped) (lit "a") (lit "1;31")
             109 (lit "red")).
    + vm_compute. intuition discriminate.
    + reflexivity.
    + reflexivity.
Defined.

End Escapes.

(** ** The output cleaner: lines *)

Section Lines.

Import CleanerNotions.
Local Open Scope N_scope.

Lemma lstrip_head (s : str) c :
  hd_error (lstrip s) = Some c -> isspace c = false.
Proof.
  induction s as [|a s IH]; cbn [lstrip]; [discriminate|].
  destruct (isspace a) eqn:E; [exact IH|].
  cbn. intros H. injection H as <-. exact E.
Qed.

Lemma lstrip_suffix (s : str) : exists pre, s = pre ++ lstrip s.
Proof.
  induction s as [|a s [pre IH]]; [exists []; reflexivity|].
  cbn [lstrip]. destruct (isspace a).
  - exists (a :: pre). cbn. f_equal. exact IH.
  - exists []. reflexivity.
Qed.

Lemma rstrip_prefix (s : str) : exists post, s = rstrip s ++ post.
Proof.
  unfold rstrip. destruct (lstrip_suffix (rev s)) as [pre H].
  exists (rev pre). rewrite <- rev_app_distr, <- H. symmetry. apply rev_involutive.
Qed.

Lemma strip_head (s : str) c :
  hd_error (strip s) = Some c -> isspace c = false.
Proof.
  unfold strip. destruct (rstrip_prefix (lstrip s)) as [post H].
  intros Hc. apply (lstrip_head s). rewrite H.
  destruct (rstrip (lstrip s)); [discriminate|exact Hc].
Qed.

Lemma strip_last (s : str) c :
  hd_error (rev (strip s)) = Some c -> isspace c = false.
Proof.
  unfold strip, rstrip. rewrite rev_involutive. apply lstrip_head.
Qed.

Lemma strip_In (s : str) c : In c (strip s) -> In c s.
Proof.
  unfold strip. destruct (rstrip_prefix (lstrip s)) as [post H].
  destruct (lstrip_suffix s) as [pre H'].
  intros Hc. rewrite H'. apply in_or_app. right.
  rewrite H. apply in_or_app. left. exact Hc.
Qed.

(** The lines of [splitlines] hold no line break. *)
Lemma splitlines_from_no_break (n : nat) :
  forall s cur,
    (List.length s <= n)%nat ->
    (forall c, In c cur -> is_linebreak c = false) ->
    forall l, In l (splitlines_from cur s) ->
    forall c, In c l -> is_linebreak c = false.
Proof.
  induction n as [|n IH]; intros s cur Hn Hcur l Hl c Hc.
  - destruct s; [|cbn in Hn; lia]. cbn in Hl.
    destruct cur; cbn in Hl; [contradiction|].
    destruct Hl as [<-|[]]. apply Hcur. apply in_rev. exact Hc.
  - destruct s as [|a s]; cbn [splitlines_from] in Hl.
    + destruct cur; cbn in Hl; [contradiction|].
      destruct Hl as [<-|[]]. apply Hcur. apply in_rev. exact Hc.
    + cbn [List.length] in Hn.
      destruct (is_linebreak a) eqn:Ea.
      * destruct Hl as [<-|Hl]; [apply Hcur; apply in_rev; exact Hc|].
        assert (Hnil : forall c0 : char, In c0 [] -> is_linebreak c0 = false)
          by (intros ? []).
        destruct s as [|d s']; [cbn in Hl; contradiction|].
        destruct ((a =? 13) && (d =? 10)).
        -- apply (IH s' [] ltac:(cbn in Hn; lia) Hnil l Hl c Hc).
        -- apply (IH (d :: s') [] ltac:(lia) Hnil l Hl c Hc).
      * apply (IH s (a :: cur) ltac:(lia)) with (l := l); try assumption.
        intros c0 [<-|H0]; [exact Ea|apply Hcur; exact H0].
Qed.

Lemma splitlines_no_break (s : str) l c :
  In l (splitlines s) -> In c l -> is_linebreak c = false.
Proof.
  intros Hl Hc.
  apply (splitlines_from_no_break (List.length s) s [] (le_n _)
           ltac:(intros ? []) l Hl c Hc).
Qed.

Lemma filter_lines_clean (lines : list str) :
  (forall l c, In l lines -> In c l -> is_linebreak c = false) ->
  Forall clean_line (filter_lines lines).
Proof.
  induction lines as [|line rest IH]; intros H; cbn [filter_lines];
    [constructor|].
  assert (IH' : Forall clean_line (filter_lines rest)).
  { apply IH. intros l c Hl. apply H. right. exact Hl. }
  destruct (keeps (strip line)) eqn:K; [|exact IH'].
  constructor; [|exact IH'].
  unfold keeps in K. apply andb_true_iff in K. destruct K as [K1 K2].
  repeat split.
  - intros E. rewrite E in K1. discriminate K1.
  - intros marker Hm. rewrite forallb_forall in K2.
    specialize (K2 marker Hm). apply negb_true_iff. exact K2.
  - intros c Hc. apply (H line c); [left; reflexivity|].
    apply strip_In. exact Hc.
  - apply strip_head.
  - apply strip_last.
Qed.

Lemma drop_echo_incl (command : str) (lines : list str) l :
  In l (drop_echo command lines) -> In l lines.
Proof.
  unfold drop_echo. destruct lines as [|first rest]; [trivial|].
  destruct (contains command first); [intros H; right; exact H|trivial].
Qed.

(** X2: whatever the command and the raw output, the cleaned text is made of
    lines joined by newlines, each of them non-empty, free of the prompt
    markers ["$ "], ["# "], ["> "] and of line breaks, and without
    whitespace at either end. *)
Theorem cleaned_lines_are_clean :
  forall command output,
  exists lines,
    _clean_output command output = join [NL] lines /\
    Forall clean_line lines.
Proof.
  intros command output. unfold _clean_output.
  destruct (falsy output).
  - exists []. split; [reflexivity|constructor].
  - eexists. split; [reflexivity|].
    apply filter_lines_clean. intros l c Hl.
    apply splitlines_no_break with (s := sub_empty ansi_escape output).
    apply (drop_echo_incl command). exact Hl.
Qed.

Lemma startswith_In (p s : str) c :
  startswith p s = true -> In c p -> In c s.
Proof.
  revert s. induction p as [|a p IH]; intros s H Hc; [contradiction|].
  destruct s as [|b s]; [discriminate H|]. cbn in H.
  apply andb_true_iff in H. destruct H as [Hab Hps].
  apply N.eqb_eq in Hab. subst b.
  destruct Hc as [<-|Hc]; [left; reflexivity|right; apply IH; assumption].
Qed.

Lemma contains_In (p s : str) c :
  contains p s = true -> In c p -> In c s.
Proof.
  induction s as [|b s IH]; cbn [contains]; intros H Hc.
  - rewrite orb_false_r in H. exact (startswith_In p [] c H Hc).
  - apply orb_true_iff in H. destruct H as [H|H].
    + exact (startswith_In p (b :: s) c H Hc).
    + right. apply IH; assumption.
Qed.

(** X3: a command that holds a line break is never taken for the echoed
    first line, so that nothing but the line filter is applied; this is the
    case of the probe ["pwd\n"] of [_get_current_directory], whose echo, if
    any, is not removed. *)
Theorem command_with_line_break_is_no_echo :
  forall command output c,
    In c command ->
    is_linebreak c = true ->
    _clean_output command output
    = join [NL] (filter_lines (splitlines (sub_empty ansi_escape output))).
Proof.
  intros command output c Hc Hb. unfold _clean_output.
  destruct output as [|a output]; [reflexivity|]. cbn [falsy]. cbv zeta.
  f_equal. f_equal. unfold drop_echo.
  destruct (splitlines (sub_empty ansi_escape (a :: output)))
    as [|first rest] eqn:E; [reflexivity|].
  destruct (contains command first) eqn:C; [|reflexivity].
  exfalso.
  assert (H : is_linebreak c = false).
  { apply (splitlines_no_break (sub_empty ansi_escape (a :: output)) first c).
    - rewrite E. left. reflexivity.
    - exact (contains_In command first c C Hc). }
  congruence.
Qed.

Lemma command_with_line_break_is_no_echo_witness :
  _clean_output pwd_cmd (lit "pwd" ++ [NL] ++ lit "/tmp")
  = lit "pwd" ++ [NL] ++ lit "/tmp".
Proof.
  rewrite (command_with_line_break_is_no_echo pwd_cmd
             (lit "pwd" ++ [NL] ++ lit "/tmp") NL).
  - reflexivity.
  - vm_compute. intuition.
  - reflexivity.
Defined.

End Lines.

(** ** [stop] and [start]: what they leave behind *)

Section StartStop.

Import Outcomes.

Context {W : Type} (os : OS W).

(** [stop] returns with the session reset, or raises the failure of
    [os.kill] (other than "no such process") with nothing assigned. *)
Lemma stop_outcome t w :
  (exists w', stop os (t, w) = Ret tt (reset t, w')) \/
  (exists p e w',
      shell_pid t = Some p /\
      kill os p SIGKILL w = (inl e, w') /\
      e <> ESRCH /\
      stop os (t, w) = Raise (os_error e) (t, w')).
Proof.
  assert (Hret : kill_tolerated os (t, w) ->
                 exists w', stop os (t, w) = Ret tt (reset t, w')).
  { intros Hk. unfold stop.
    destruct (kill_absorbed os t w Hk) as [w1 E1].
    destruct (close_absorbed os (master_fd t) t w1) as [w2 E2].
    destruct (close_absorbed os (slave_fd t) t w2) as [w3 E3].
    rewrite bind_get_self, (bind_Ret _ _ _ _ _ E1).
    rewrite bind_get_self, (bind_Ret _ _ _ _ _ E2).
    rewrite bind_get_self, (bind_Ret _ _ _ _ _ E3).
    exists w3. reflexivity. }
  destruct (shell_pid t) as [p|] eqn:Hp.
  - destruct (kill os p SIGKILL w) as [[e|[]] w'] eqn:Hk.
    + assert (Hraise : e <> ESRCH ->
                       stop os (t, w) = Raise (os_error e) (t, w')).
      { intros He. unfold stop. rewrite bind_get_self, Hp.
        apply bind_Raise. unfold try_except, syscall. cbn [fst snd].
        rewrite Hk. destruct e; try reflexivity. congruence. }
      destruct e;
        try (right; eexists p, _, w'; split; [reflexivity|];
             split; [exact Hk|]; split; [discriminate|];
             apply Hraise; discriminate).
      left. apply Hret. unfold kill_tolerated. cbn [fst snd].
      rewrite Hp, Hk. right. reflexivity.
    + left. apply Hret. unfold kill_tolerated. cbn [fst snd].
      rewrite Hp, Hk. left. reflexivity.
  - left. apply Hret. unfold kill_tolerated. cbn [fst snd]. now rewrite Hp.
Qed.

(** X4: [stop] has two outcomes only. It returns with the four session
    fields reset; or, when a child is tracked and killing it fails otherwise
    than by "no such process", it raises that failure, having closed and
    assigned nothing. *)
Theorem stop_returns_or_kill_failed :
  forall t w,
    (exists w', stop os (t, w) = Ret tt (reset t, w')) \/
    (exists p e w',
        shell_pid t = Some p /\
        kill os p SIGKILL w = (inl e, w') /\
        e <> ESRCH /\
        stop os (t, w) = Raise (os_error e) (t, w')).
Proof. exact stop_outcome. Qed.

Lemma stop_triple t0 :
  triple (eq t0) (stop os) (fun _ t => t = reset t0)
    (fun t => t = t0 /\ shell_pid t0 <> None).
Proof.
  intros t w <-.
  destruct (stop_outcome t0 w) as [[w' E]|(p & e & w' & Hp & _ & _ & E)];
    rewrite E; cbn.
  - reflexivity.
  - split; [reflexivity|]. rewrite Hp. discriminate.
Qed.

Variable fuel : nat.

(** [except Exception] catches whatever the body raises. *)
Lemma triple_try_all {A} P (m : M W A) h Q E' E :
  triple P m Q E' ->
  (forall e, triple E' (h e) Q E) ->
  triple P (try_except m is_Exception h) Q E.
Proof.
  intros Hm Hh t w Ht. unfold try_except. specialize (Hm t w Ht).
  destruct (m (t, w)) as [a [t' w']|e [t' w']|]; cbn in *; auto.
  apply Hh; assumption.
Qed.

(** [start] from [t0]: a return leaves the session started, with the
    directory and the counter of [t0]; a raise leaves it reset, unless the
    [stop] of the handler raised, and then a child is still tracked. *)
Lemma start_triple t0 :
  triple (eq t0) (start os fuel)
    (fun _ t => exists m child, t = started_from t0 m child)
    (fun t => t = reset t0 \/ (shell_pid t <> None /\ reset t = reset t0)).
Proof.
  unfold start.
  eapply triple_try_all with (E' := fun t => reset t = reset t0).
  - (* the body *)
    apply triple_bind with (Q' := fun _ => eq (reset t0)).
    { eapply triple_conseq; [apply (stop_triple t0)|auto| |].
      - intros _ t ->. reflexivity.
      - intros t [-> _]. reflexivity. }
    intros _.
    apply triple_bind_unchanged;
      [unchanged_auto|intros ? <-; reflexivity|intros [m sl]].
    cbn [fst snd].
    apply triple_bind_update
      with (P' := eq (set_master_fd (Some m) (reset t0)));
      [intros ? <-; reflexivity|].
    apply triple_bind_update
      with (P' := eq (set_slave_fd (Some sl)
                        (set_master_fd (Some m) (reset t0))));
      [intros ? <-; reflexivity|].
    apply triple_bind_unchanged;
      [unchanged_auto|intros ? <-; reflexivity|intros attrs].
    apply triple_bind_unchanged;
      [unchanged_auto|intros ? <-; reflexivity|intros _].
    apply triple_bind_unchanged;
      [apply unchanged_set_terminal_size|intros ? <-; reflexivity|intros _].
    apply triple_bind_unchanged;
      [unchanged_auto|intros ? <-; reflexivity|intros child].
    apply triple_bind_update
      with (P' := eq (set_shell_pid (Some child)
                        (set_slave_fd (Some sl)
                           (set_master_fd (Some m) (reset t0)))));
      [intros ? <-; reflexivity|].
    apply triple_bind_self. intros self <-. cbn [slave_fd set_shell_pid set_slave_fd].
    apply triple_bind
      with (Q' := fun _ => eq (mkManager (working_dir t0) (Some m) None
                                 (Some child) false (_reconnect_attempts t0))).
    { apply triple_bind_unchanged;
        [unchanged_auto|intros ? <-; reflexivity|intros _].
      apply triple_update. intros ? <-. reflexivity. }
    intros _.
    apply triple_bind_update with (P' := eq (started_from t0 m child));
      [intros ? <-; reflexivity|].
    apply triple_bind_self. intros self <-. cbn [master_fd started_from].
    apply triple_bind_unchanged;
      [unchanged_auto|intros ? <-; reflexivity|intros _].
    apply triple_bind_unchanged;
      [unchanged_auto|intros ? <-; reflexivity|intros _].
    apply triple_bind_unchanged;
      [apply unchanged_verify_shell|intros ? <-; reflexivity|intros ok].
    destruct ok; cbn [negb].
    + eapply triple_conseq;
        [apply (unchanged_triple _ (eq (started_from t0 m child))
                  (unchanged_clear_initial_output os fuel))|auto| |].
      * intros _ t <-. exists m, child. reflexivity.
      * intros t <-. reflexivity.
    + apply triple_raise. intros ? <-. reflexivity.
  - (* the handler *)
    intros e. intros t w Ht.
    pose proof (stop_outcome t w) as H. unfold bind.
    destruct H as [[w' E]|(p & e' & w' & Hp & _ & _ & E)]; rewrite E; cbn.
    + left. rewrite <- Ht. reflexivity.
    + right. split; [rewrite Hp; discriminate|exact Ht].
Qed.

Hint Resolve unchanged_set_terminal_size unchanged_verify_shell : unchanged.

Lemma bind_assoc {A B C} (m : M W A) (f : A -> M W B) (k : B -> M W C) s :
  bind (bind m f) k s = bind m (fun a => bind (f a) k) s.
Proof. unfold bind. destruct (m s) as [a s1|e s1|]; reflexivity. Qed.

Lemma bind_update {B} f (k : unit -> M W B) t w :
  bind (update f) k (t, w) = k tt (f t, w).
Proof. reflexivity. Qed.

(** In a computation that has returned, runs the first step when that step
    leaves the manager unchanged. *)
Ltac step_unchanged H :=
  unfold bind at 1 in H;
  match type of H with
  | match ?m (?t, ?w) with _ => _ end = _ =>
      let Hu := fresh "Hu" in
      let E := fresh "E" in
      assert (Hu : unchanged m)
        by (first [unchanged_auto | auto with unchanged]);
      specialize (Hu t t w eq_refl);
      destruct (m (t, w)) as [? [? ?]|? ?|] eqn:E; [|discriminate H..];
      cbn [fst] in Hu; subst
  end.

(** A [start] that returns has set the session up, has had [True] from
    [_verify_shell] on the session so set up, and has then drained the
    output. *)
Lemma start_returns_trace t w s' :
  start os fuel (t, w) = Ret tt s' ->
  exists m child w1 s2,
    _verify_shell os fuel (started_from t m child, w1) = Ret true s2 /\
    _clear_initial_output os fuel s2 = Ret tt s'.
Proof.
  intros H. unfold start, try_except in H.
  match type of H with
  | match ?x with _ => _ end = _ => destruct x as [[] s1|e s1|] eqn:B
  end.
  2:{ cbn [is_Exception] in H. unfold bind in H.
      destruct (stop os s1); discriminate H. }
  2:{ discriminate H. }
  injection H as <-.
  unfold bind at 1 in B.
  destruct (stop_outcome t w) as [[w0 E]|(p & e & w0 & _ & _ & _ & E)];
    rewrite E in B; [|discriminate B].
  step_unchanged B.
  rewrite !bind_update in B.
  step_unchanged B. step_unchanged B. step_unchanged B. step_unchanged B.
  rewrite bind_update, bind_get_self in B.
  cbn [slave_fd set_shell_pid set_slave_fd set_master_fd reset master_fd
       working_dir shell_pid _process_alive _reconnect_attempts snd fst] in B.
  rewrite bind_assoc in B. step_unchanged B.
  rewrite !bind_update, bind_get_self in B.
  cbn [slave_fd set_shell_pid set_slave_fd set_master_fd reset master_fd
       working_dir shell_pid _process_alive _reconnect_attempts snd fst
       set_process_alive] in B.
  rewrite bind_assoc in B. step_unchanged B. step_unchanged B.
  step_unchanged B. step_unchanged B.
  match goal with
  | Hv : _verify_shell os fuel _ = Ret ?ok _ |- _ =>
      destruct ok; cbn [negb] in B; [|discriminate B];
      repeat eexists; [exact Hv|exact B]
  end.
Qed.

(** X5: a [start] that returns has had [True] from [_verify_shell], called
    on the session as [start] had just set it up (master handle open, no
    slave handle, a tracked child, the alive flag set, the directory and
    the reconnection counter it found), and has then drained the output; a
    [start] that raises leaves the session fields reset, unless the [stop]
    of its handler raised, and then a child is still tracked. *)
Theorem start_returns_after_probe_or_resets :
  forall t w,
    match start os fuel (t, w) with
    | Ret _ s' =>
        exists m child w1 s2,
          _verify_shell os fuel (started_from t m child, w1) = Ret true s2 /\
          _clear_initial_output os fuel s2 = Ret tt s'
    | Raise _ s' =>
        fst s' = reset t \/
        (shell_pid (fst s') <> None /\ reset (fst s') = reset t)
    | OutOfFuel => True
    end.
Proof.
  intros t w. pose proof (start_triple t t w eq_refl) as H.
  destruct (start os fuel (t, w)) as [[] s'|e s'|] eqn:E; [|exact H|exact I].
  exact (start_returns_trace t w s' E).
Qed.

(** Facts kept by [start] whatever the state it starts from. *)
Lemma start_keeps (P : TerminalManager -> Prop) :
  (forall t m sl p a,
      P t -> P (mkManager (working_dir t) m sl p a (_reconnect_attempts t))) ->
  triple P (start os fuel) (fun _ => P) P.
Proof.
  intros HP t w Ht. pose proof (start_triple t t w eq_refl) as H.
  destruct (start os fuel (t, w)) as [a s'|e s'|]; cbn in *; [| |exact I].
  - destruct H as (m & child & ->). apply HP. exact Ht.
  - assert (E : fst s' = mkManager (working_dir t) (master_fd (fst s'))
                           (slave_fd (fst s')) (shell_pid (fst s'))
                           (_process_alive (fst s')) (_reconnect_attempts t)).
    { destruct H as [->|[_ H]]; [reflexivity|].
      destruct (fst s') as [wd m sl p a n]. unfold reset in H. cbn in H.
      injection H as -> ->. reflexivity. }
    rewrite E. apply HP. exact Ht.
Qed.

Lemma start_returns_alive :
  triple (fun _ => True) (start os fuel)
    (fun _ t => _process_alive t = true /\ master_fd t <> None
                /\ shell_pid t <> None)
    (fun _ => True).
Proof.
  intros t w _. pose proof (start_triple t t w eq_refl) as H.
  destruct (start os fuel (t, w)) as [a s'|e s'|]; cbn in *; [|exact I..].
  destruct H as (m & child & ->). cbn. repeat split; discriminate.
Qed.

End StartStop.

(** ** What the public operations keep *)

Section Kept.

Context {W : Type} (os : OS W) (fuel : nat).

Variable P : TerminalManager -> Prop.

(** [P] looks at the directory only. *)
Hypothesis P_directory :
  forall t m sl p a n, P t -> P (mkManager (working_dir t) m sl p a n).

Lemma P_reset t : P t -> P (reset t).
Proof. apply P_directory. Qed.

Lemma ensure_connection_keeps :
  triple P (_ensure_connection os fuel) (fun _ => P) P.
Proof.
  unfold _ensure_connection.
  eapply triple_bind.
  { apply probe_preserves. intros t. apply P_directory. }
  intros [|]; [apply triple_ret; auto|].
  apply triple_bind_unchanged; [unchanged_auto|auto|intros self].
  destruct (_reconnect_attempts self >=? MAX_RECONNECT_ATTEMPTS);
    [apply triple_ret; auto|].
  eapply triple_try with (E' := P); [|intros e; apply triple_ret; auto|auto].
  unfold reconnect.
  apply triple_bind_update with (P' := P); [intros t; apply P_directory|].
  apply triple_bind with (Q' := fun _ => P);
    [apply stop_preserves; exact P_reset|intros _].
  apply triple_bind_unchanged; [unchanged_auto|auto|intros _].
  apply triple_bind with (Q' := fun _ => P).
  { apply start_keeps. intros t m sl p a. apply P_directory. }
  intros _.
  apply triple_bind_unchanged; [unchanged_auto|auto|intros self'].
  destruct (_process_alive self'); [|apply triple_ret; auto].
  apply triple_bind_update with (P' := P); [intros t; apply P_directory|].
  apply triple_ret. auto.
Qed.

Lemma attempt_keeps command timeout :
  triple P (attempt os fuel command timeout) (fun _ => P) P.
Proof.
  unfold attempt.
  eapply triple_bind; [apply ensure_connection_keeps|].
  intros [|]; cbn [negb]; [|apply triple_raise; auto].
  apply triple_bind_unchanged;
    [apply unchanged_clear_initial_output|auto|intros _].
  apply triple_bind_unchanged; [unchanged_auto|auto|intros self].
  destruct (master_fd self); [|apply triple_raise; auto].
  apply triple_bind_unchanged; [apply unchanged_send_command|auto|intros _].
  apply triple_bind_unchanged;
    [apply unchanged_retrieve_command_output|auto|intros output].
  apply triple_bind_unchanged;
    [apply unchanged_get_current_directory|auto|intros cwd].
  apply triple_ret. auto.
Qed.

Lemma perform_keeps o : triple P (perform os fuel o) (fun _ => P) P.
Proof.
  destruct o as [| |command timeout]; cbn [perform].
  - apply start_keeps. intros t m sl p a. apply P_directory.
  - apply stop_preserves. exact P_reset.
  - apply triple_bind with (Q' := fun _ => P);
      [|intros ?; apply triple_ret; auto].
    unfold execute_command.
    eapply triple_try; [apply attempt_keeps| |auto].
    intros _. apply triple_bind_unchanged; [unchanged_auto|auto|intros _].
    eapply triple_try; [apply attempt_keeps| |auto].
    intros e. apply triple_raise. auto.
Qed.

End Kept.

(** X6: no public operation changes the working directory given to the
    constructor, whether it returns or raises; so the directory that
    [execute_command] falls back to is that one throughout. *)
Theorem working_dir_is_never_assigned :
  forall (W : Type) (os : OS W) fuel o t w s',
    final (perform os fuel o (t, w)) = Some s' ->
    working_dir (fst s') = working_dir t.
Proof.
  intros W os fuel o t w s' H.
  pose proof (perform_keeps os fuel (fun t' => working_dir t' = working_dir t)
                ltac:(intros; assumption) o t w eq_refl) as Hk.
  destruct (perform os fuel o (t, w)) as [a s|e s|]; cbn in H;
    [injection H as <-|injection H as <-|discriminate H]; exact Hk.
Qed.

Lemma working_dir_is_never_assigned_witness :
  working_dir running = lit "/srv".
Proof.
  exact (working_dir_is_never_assigned world sim_os 20%nat Start fresh
           (quiet [shell_greeting])
           (running, mkWorld 1500 [] [] (Some EAGAIN) [] [] [])
           ltac:(vm_compute; reflexivity)).
Defined.

(** ** The round from which a command returns *)

Section Returns.

Import Outcomes.

Context {W : Type} (os : OS W) (fuel : nat).

Lemma triple_trivial {A} (m : M W A) P :
  triple P m (fun _ _ => True) (fun _ => True).
Proof. intros t w _. destruct (m (t, w)); exact I. Qed.

Lemma triple_pre {A} P P' (m : M W A) Q E :
  (forall t, P t -> P' t) -> triple P' m Q E -> triple P m Q E.
Proof. intros HP H t w Ht. exact (H t w (HP t Ht)). Qed.

Lemma probe_true_is_alive :
  triple (fun _ => True) (probe os)
    (fun r t => r = true -> tracked t) (fun _ => True).
Proof.
  unfold probe. apply triple_bind_self. intros self _.
  destruct (_process_alive self) eqn:Ha;
    [|apply triple_ret; intros; discriminate].
  destruct (shell_pid self) as [p|] eqn:Hp;
    [|apply triple_ret; intros; discriminate].
  eapply triple_try with (E' := fun _ => True); [| |auto].
  - apply triple_bind_unchanged; [unchanged_auto|auto|intros _].
    apply triple_ret. intros t <- _. split; [exact Ha|].
    rewrite Hp. discriminate.
  - intros e. apply triple_bind_update with (P' := fun _ => True); [auto|].
    apply triple_ret. intros; discriminate.
Qed.

Lemma reconnect_true_is_alive :
  triple (fun _ => True) (reconnect os fuel)
    (fun r t => r = true -> tracked t) (fun _ => True).
Proof.
  unfold reconnect.
  apply triple_bind_update with (P' := fun _ => True); [auto|].
  apply triple_bind with (Q' := fun _ _ => True);
    [apply triple_trivial|intros _].
  apply triple_bind_unchanged; [unchanged_auto|auto|intros _].
  eapply triple_bind; [apply start_returns_alive|]. intros ?. cbv beta.
  apply triple_bind_self. intros self (Ha & _ & Hp). rewrite Ha.
  apply triple_bind_update with (P' := tracked).
  { intros t <-. split; assumption. }
  apply triple_ret. auto.
Qed.

Lemma ensure_connection_true_is_alive :
  triple (fun _ => True) (_ensure_connection os fuel)
    (fun r t => r = true -> tracked t) (fun _ => True).
Proof.
  unfold _ensure_connection.
  eapply triple_bind; [apply probe_true_is_alive|].
  intros [|]; cbv beta.
  - apply triple_ret. auto.
  - apply (triple_pre _ (fun _ => True)); [auto|].
    apply triple_bind_unchanged; [unchanged_auto|auto|intros self].
    destruct (_reconnect_attempts self >=? MAX_RECONNECT_ATTEMPTS);
      [apply triple_ret; intros; discriminate|].
    eapply triple_try_all with (E' := fun _ => True).
    + apply reconnect_true_is_alive.
    + intros e. apply triple_ret. intros; discriminate.
Qed.

End Returns.

(** X7: [execute_command] returns only from a round (its first, or its
    second one second after a caught failure of the first) in which the
    connection check returned [True] with the session marked alive and
    tracking a child, the master handle was open when the command was
    written, and the reader then returned some output; what it returns is
    the directory given by the probe and the cleaning of that output. *)
Theorem execute_command_returns_after_live_check :
  forall (W : Type) (os : OS W) fuel command timeout s cwd cleaned s',
    execute_command os fuel command timeout s = Ret (cwd, cleaned) s' ->
    exists s0 s1 s2 s3 s4 output,
      (s0 = s \/
       exists e sa,
         attempt os fuel command timeout s = Raise e sa /\
         caught_by_execute e = true /\
         s0 = (fst sa, sleep os 1000 (snd sa))) /\
      _ensure_connection os fuel s0 = Ret true s1 /\
      _process_alive (fst s1) = true /\
      shell_pid (fst s1) <> None /\
      _clear_initial_output os fuel s1 = Ret tt s2 /\
      master_fd (fst s2) <> None /\
      _send_command_to_terminal os command s2 = Ret tt s3 /\
      _read_terminal_output os fuel timeout s3 = Ret output s4 /\
      _get_current_directory os fuel s4 = Ret cwd s' /\
      cleaned = _clean_output command output.
Proof.
  intros W os fuel command timeout s cwd cleaned s' H.
  destruct (execute_command_returns_round os fuel command timeout s _ s' H)
    as (s0 & Hround & H0).
  destruct (attempt_returns_trace os fuel command timeout s0 cwd cleaned s' H0)
    as (s1 & s2 & s3 & s4 & output & Hc & Hi & Hm & Hs & Hr & Hd & Ho).
  pose proof (ensure_connection_true_is_alive os fuel (fst s0) (snd s0) I)
    as Ha.
  rewrite <- surjective_pairing, Hc in Ha.
  destruct (Ha eq_refl) as [Halive Hpid].
  exists s0, s1, s2, s3, s4, output. repeat split; assumption.
Qed.

Lemma execute_command_returns_after_live_check_witness :
  exists s0 s1 s2 s3 s4 output,
    (s0 = (fresh, one_failure) \/
     exists e sa,
       attempt sim_os 200 (lit "cmd") 10 (fresh, one_failure) = Raise e sa /\
       caught_by_execute e = true /\
       s0 = (fst sa, sleep sim_os 1000 (snd sa))) /\
    _ensure_connection sim_os 200 s0 = Ret true s1 /\
    _process_alive (fst s1) = true /\
    shell_pid (fst s1) <> None /\
    _clear_initial_output sim_os 200 s1 = Ret tt s2 /\
    master_fd (fst s2) <> None /\
    _send_command_to_terminal sim_os (lit "cmd") s2 = Ret tt s3 /\
    _read_terminal_output sim_os 200 10 s3 = Ret output s4 /\
    _get_current_directory sim_os 200 s4
    = Ret (lit "/tmp") (running, silent_at 9900) /\
    lit "hello" = _clean_output (lit "cmd") output.
Proof.
  exact (execute_command_returns_after_live_check world sim_os 200%nat
           (lit "cmd") 10 (fresh, one_failure) (lit "/tmp") (lit "hello")
           (running, silent_at 9900) ltac:(vm_compute; reflexivity)).
Defined.

(** ** The start-up helpers *)

Section Raises.

Import Outcomes.

Context {W : Type} (os : OS W) (fuel : nat).

Hint Resolve unchanged_os_read unchanged_os_write : unchanged.

Lemma try_all_never_raises {A} (m : M W A) (a : A) s :
  match try_except m is_Exception (fun _ => ret a) s with
  | Raise _ _ => False
  | _ => True
  end.
Proof.
  unfold try_except. destruct (m s) as [x s'|e s'|]; cbn; exact I.
Qed.

Lemma quiet_call_intro {A} (m : M W A) :
  unchanged m ->
  (forall s, match m s with Raise _ _ => False | _ => True end) ->
  quiet_call m.
Proof.
  intros Hu Hr [t w]. specialize (Hu t t w eq_refl). specialize (Hr (t, w)).
  destruct (m (t, w)) as [x s'|e s'|]; cbn in *;
    [symmetry; exact Hu|exact Hr|exact I].
Qed.

(** X8: [_clear_initial_output] and [_verify_shell] never raise, whatever
    the terminal does, and never assign a session field. *)
Theorem startup_helpers_never_raise :
  quiet_call (_clear_initial_output os fuel) /\
  quiet_call (_verify_shell os fuel).
Proof.
  split; apply quiet_call_intro.
  - apply unchanged_clear_initial_output.
  - intros [t w]. unfold _clear_initial_output. rewrite bind_get_self.
    destruct (negb (truthy_fd (master_fd t)) || negb (_process_alive t));
      [exact I|].
    apply try_all_never_raises.
  - apply unchanged_verify_shell.
  - intros s. unfold _verify_shell. apply try_all_never_raises.
Qed.

(** The iteration that ends a loop whose body leaves the manager
    unchanged. *)
Lemma loop_last {L R} (body : L -> M W (L + R)) n :
  (forall l, unchanged (body l)) ->
  forall l t w x s',
    loop n body l (t, w) = Ret x s' ->
    exists l0 w0, body l0 (t, w0) = Ret (inr x) s'.
Proof.
  intros Hb. induction n as [|n IH]; intros l t w x s' H; [discriminate H|].
  cbn [loop] in H. unfold bind in H.
  pose proof (Hb l t t w eq_refl) as Hu.
  destruct (body l (t, w)) as [[l'|y] [t1 w1]|e1 s1|] eqn:E;
    try discriminate H.
  - cbn in Hu. subst t1. exact (IH l' t w1 x s' H).
  - injection H as <- <-. exists l, w. exact E.
Qed.

(** The iteration that raises out of a loop whose body leaves the manager
    unchanged. *)
Lemma loop_raise {L R} (body : L -> M W (L + R)) n :
  (forall l, unchanged (body l)) ->
  forall l t w e s',
    loop n body l (t, w) = Raise e s' ->
    exists l0 w0, body l0 (t, w0) = Raise e s'.
Proof.
  intros Hb. induction n as [|n IH]; intros l t w e s' H; [discriminate H|].
  cbn [loop] in H. unfold bind in H.
  pose proof (Hb l t t w eq_refl) as Hu.
  destruct (body l (t, w)) as [[l'|y] [t1 w1]|e1 s1|] eqn:E;
    try discriminate H.
  - cbn in Hu. subst t1. exact (IH l' t w1 e s' H).
  - injection H as <- <-. exists l, w. exact E.
Qed.

(** X9: [_verify_shell] returns [True] only when one single read has
    returned text holding the marker ["shell_test"], and it returns at that
    read. *)
Theorem verify_shell_needs_the_marker :
  forall s s',
    _verify_shell os fuel s = Ret true s' ->
    exists m w chunk response,
      master_fd (fst s) = Some m /\
      read os m 1024 w = (inr chunk, snd s') /\
      decode chunk = Some response /\
      contains (lit "shell_test") response = true.
Proof.
  intros [t w] s' H. unfold _verify_shell in H. unfold try_except at 1 in H.
  rewrite bind_get_self in H.
  destruct (master_fd t) as [m|] eqn:Hm; [|discriminate H].
  destruct (negb (_process_alive t)); [discriminate H|].
  unfold bind at 1 in H.
  pose proof (unchanged_os_write os test_cmd t t w eq_refl) as Hw.
  destruct (os_write os test_cmd (t, w)) as [n [t1 w1]|e s1|];
    [|discriminate H..].
  cbn in Hw. subst t1. rewrite bind_time in H.
  match type of H with
  | match loop fuel ?body tt (t, w1) with _ => _ end = _ =>
      destruct (loop fuel body tt (t, w1)) as [r s2|e s2|] eqn:El;
        [|discriminate H..];
        injection H as -> ->;
        assert (Hb : forall l, unchanged (body l))
          by (intros l; cbv beta; unchanged_auto);
        destruct (loop_last body fuel Hb tt t w1 true s' El) as ([] & w0 & E)
  end.
  cbv beta in E. rewrite bind_time in E.
  destruct (loop_time os w0 - loop_time os w1 <? 5000); [|discriminate E].
  unfold try_except, bind in E.
  destruct (os_read os 1024 (t, w0)) as [chunk [t2 w2]|e s3|] eqn:Er.
  - destruct (decode chunk) as [response|] eqn:Ed; [|discriminate E].
    destruct (contains (lit "shell_test") response) eqn:Ec;
      [|discriminate E].
    injection E as <-.
    unfold os_read in Er. rewrite bind_get_self, Hm in Er.
    unfold syscall in Er. cbn [fst snd] in Er.
    destruct (read os m 1024 w0) as [[e|b] w3] eqn:Hr; [discriminate Er|].
    injection Er as -> -> ->.
    exists m, w0, chunk, response. repeat split; assumption.
  - destruct (is_OSError e); [|discriminate E].
    unfold asyncio_sleep, ret in E. discriminate E.
  - discriminate E.
Qed.

End Raises.

Lemma verify_shell_needs_the_marker_witness :
  exists m w chunk response,
    master_fd (fst (running, quiet [shell_greeting])) = Some m /\
    read sim_os m 1024 w = (inr chunk, snd (running, silent_at 0)) /\
    decode chunk = Some response /\
    contains (lit "shell_test") response = true.
Proof.
  exact (verify_shell_needs_the_marker sim_os 5%nat
           (running, quiet [shell_greeting]) (running, silent_at 0)
           ltac:(vm_compute; reflexivity)).
Defined.

(** ** What the reader and the executor raise *)

Section Exceptions.

Context {W : Type} (os : OS W) (fuel : nat).

Lemma os_error_is_OSError e : is_OSError (os_error e) = true.
Proof. now destruct e. Qed.

Lemma syscall_raises {A} (f : W -> (errno + A) * W) s e s' :
  syscall f s = Raise e s' ->
  exists er, f (snd s) = (inl er, snd s') /\ e = os_error er /\ fst s' = fst s.
Proof.
  unfold syscall. destruct (f (snd s)) as [[er|a] w1]; [|discriminate].
  intros H. injection H as <- <-. now exists er.
Qed.

Lemma read_iteration_raises timeout start_time l t w e s' :
  master_fd t <> None ->
  read_iteration os timeout start_time l (t, w) = Raise e s' ->
  e = TimeoutError timeout \/ e = RuntimeError NoDataAfterMaxRetries.
Proof.
  intros Hm H. unfold read_iteration in H. rewrite bind_time in H.
  destruct (_ >? _).
  { destruct (falsy (output_chunks l)); [|discriminate H].
    injection H as <- _. now left. }
  destruct (_ && _); [discriminate H|].
  unfold try_except2 in H. rewrite bind_get_self in H.
  destruct (master_fd t) as [m|] eqn:Em; [|congruence].
  unfold bind at 1 in H.
  destruct (os_read os 4096 (t, w)) as [chunk s1|e1 s1|] eqn:Er.
  - destruct (negb (falsy chunk)).
    + destruct (decode _); discriminate H.
    + destruct (_ >=? _).
      * destruct (falsy (output_chunks l)); [|discriminate H].
        cbn in H. injection H as <- _. now right.
      * discriminate H.
  - unfold os_read in Er. rewrite bind_get_self, Em in Er.
    apply syscall_raises in Er. destruct Er as (er & _ & -> & _).
    destruct er; cbn in H; discriminate H.
  - discriminate H.
Qed.

Lemma read_terminal_output_raises timeout t w e s' :
  _read_terminal_output os fuel timeout (t, w) = Raise e s' ->
  (truthy_fd (master_fd t) && _process_alive t = false /\
   e = RuntimeError TerminalNotStarted) \/
  (truthy_fd (master_fd t) && _process_alive t = true /\
   (e = TimeoutError timeout \/ e = RuntimeError NoDataAfterMaxRetries)).
Proof.
  intros H.
  unfold _read_terminal_output in H. rewrite bind_get_self in H.
  destruct (truthy_fd (master_fd t)) eqn:Ht; cbn [negb orb andb] in *.
  2:{ injection H as <- _. now left. }
  destruct (_process_alive t); cbn [negb] in *.
  2:{ injection H as <- _. now left. }
  right. split; [reflexivity|].
  rewrite bind_time in H. unfold bind in H.
  match type of H with
  | match loop fuel ?body ?l0 _ with _ => _ end = _ =>
      destruct (loop fuel body l0 (t, w)) as [r s2|e2 s2|] eqn:El;
        [discriminate H| |discriminate H];
        destruct (loop_raise body fuel
                    (unchanged_read_iteration os timeout _) l0 t w e2 s2 El)
          as (l1 & w1 & E)
  end.
  injection H as -> _.
  assert (Hm : master_fd t <> None).
  { destruct (master_fd t); [discriminate|discriminate Ht]. }
  exact (read_iteration_raises _ _ _ _ _ _ _ Hm E).
Qed.

(** What an iteration raises, whatever the session is when it starts. *)
Lemma read_iteration_raises_only timeout start_time l s e s' :
  read_iteration os timeout start_time l s = Raise e s' ->
  e = TimeoutError timeout \/
  e = RuntimeError NoDataAfterMaxRetries \/
  (e = RuntimeError FileDescriptorIsNone /\ master_fd (fst s) = None).
Proof.
  destruct s as [t w]. cbn [fst].
  destruct (master_fd t) as [m|] eqn:Em.
  - intros H.
    destruct (read_iteration_raises timeout start_time l t w e s'
                ltac:(rewrite Em; discriminate) H) as [->| ->]; auto.
  - unfold read_iteration. rewrite bind_time.
    destruct (_ >? _).
    { destruct (falsy (output_chunks l)); [|discriminate].
      intros H. injection H as <- _. now left. }
    destruct (_ && _); [discriminate|].
    unfold try_except2. rewrite bind_get_self, Em. cbn.
    intros H. injection H as <- _. right. right. split; reflexivity.
Qed.

(** X10: [_read_terminal_output] raises nothing but the [RuntimeError] of a
    session that is not started, the [RuntimeError] of a master handle that
    is [None], the [TimeoutError] of its own timeout and the [RuntimeError]
    of the retry limit. The first is raised exactly when the session has no
    master handle or is not marked alive on entry; an iteration of the loop
    raises the second only if it finds the master handle [None], whatever
    the session is when the iteration starts. *)
Theorem reader_raises_only :
  (forall timeout start_time l s e s',
      read_iteration os timeout start_time l s = Raise e s' ->
      e = TimeoutError timeout \/
      e = RuntimeError NoDataAfterMaxRetries \/
      (e = RuntimeError FileDescriptorIsNone /\ master_fd (fst s) = None)) /\
  (forall timeout s e s',
      _read_terminal_output os fuel timeout s = Raise e s' ->
      (e = RuntimeError TerminalNotStarted \/
       e = RuntimeError FileDescriptorIsNone \/
       e = TimeoutError timeout \/
       e = RuntimeError NoDataAfterMaxRetries) /\
      (e = RuntimeError TerminalNotStarted <->
       truthy_fd (master_fd (fst s)) && _process_alive (fst s) = false)).
Proof.
  split; [exact read_iteration_raises_only|].
  intros timeout [t w] e s' H. cbn [fst].
  destruct (read_terminal_output_raises _ _ _ _ _ H) as [[Hs ->]|[Hs [->| ->]]];
    (split; [tauto|]); rewrite Hs; split; try discriminate; reflexivity.
Qed.

(** X11: on a session marked alive with a tracked child, the result of the
    probe [os.kill(pid, 0)] decides [_ensure_connection] unless it is
    [ProcessLookupError]: success returns [True] at once, any other failure
    is raised to the caller, and neither touches the session or tries to
    reconnect. *)
Theorem probe_outcome_decides :
  forall t w p r w',
    _process_alive t = true ->
    shell_pid t = Some p ->
    kill os p SIG0 w = (r, w') ->
    r <> inl ESRCH ->
    _ensure_connection os fuel (t, w)
    = match r with
      | inr _ => Ret true (t, w')
      | inl e => Raise (os_error e) (t, w')
      end.
Proof.
  intros t w p r w' Ha Hp Hk Hr.
  unfold _ensure_connection, probe. unfold bind at 1. rewrite bind_get_self.
  rewrite Ha, Hp. unfold try_except, bind, syscall. cbn [fst snd]. rewrite Hk.
  destruct r as [e|[]]; [|reflexivity].
  destruct e; try reflexivity. congruence.
Qed.

Lemma ensure_connection_raises s e s' :
  _ensure_connection os fuel s = Raise e s' -> is_OSError e = true.
Proof.
  destruct s as [t w]. unfold _ensure_connection, probe.
  unfold bind at 1. rewrite bind_get_self.
  destruct (_process_alive t), (shell_pid t) as [p|]; cbn.
  2-4: destruct (_ >=? _); [discriminate|];
       unfold try_except; destruct (reconnect _ _ _); discriminate.
  unfold try_except at 1. unfold bind at 1. unfold syscall. cbn [fst snd].
  destruct (kill os p SIG0 w) as [[er|[]] w1]; cbn.
  - destruct er; cbn; try (intros H; injection H as <- _; reflexivity).
    destruct (_ >=? _); [discriminate|];
       unfold try_except; destruct (reconnect _ _ _); discriminate.
  - discriminate.
Qed.

Lemma clear_initial_output_returns s e s' :
  _clear_initial_output os fuel s <> Raise e s'.
Proof.
  destruct s as [t w]. unfold _clear_initial_output. rewrite bind_get_self.
  destruct (_ || _); [discriminate|].
  unfold try_except.
  match goal with |- match ?m with _ => _ end <> _ => destruct m end;
    discriminate.
Qed.

Lemma os_write_raises b t w e s' :
  master_fd t <> None ->
  os_write os b (t, w) = Raise e s' -> is_OSError e = true.
Proof.
  intros Hm H. unfold os_write in H. rewrite bind_get_self in H.
  destruct (master_fd t) as [m|]; [|congruence].
  apply syscall_raises in H. destruct H as (er & _ & -> & _).
  apply os_error_is_OSError.
Qed.

Lemma send_command_raises command t w e s' :
  master_fd t <> None ->
  _send_command_to_terminal os command (t, w) = Raise e s' ->
  caught_by_execute e = true \/
  (e = UnicodeEncodeError /\ encode (command ++ [NL]) = None).
Proof.
  intros Hm H. unfold _send_command_to_terminal in H.
  destruct (encode (command ++ [NL])) as [cmd_bytes|].
  2:{ injection H as <- _. now right. }
  left. unfold bind in H.
  destruct (os_write os cmd_bytes (t, w)) as [n s1|e1 s1|] eqn:Ew.
  - destruct (negb _); [|discriminate H]. injection H as <- _. reflexivity.
  - injection H as <- _. unfold caught_by_execute.
    now rewrite (os_write_raises _ _ _ _ _ Hm Ew).
  - discriminate H.
Qed.

Lemma retrieve_command_output_raises timeout s e s' :
  _retrieve_command_output os fuel timeout s = Raise e s' ->
  caught_by_execute e = true.
Proof.
  destruct s as [t w]. unfold _retrieve_command_output, try_except.
  destruct (_read_terminal_output os fuel timeout (t, w)) as [x s1|e1 s1|] eqn:Er;
    [discriminate| |discriminate].
  apply read_terminal_output_raises in Er.
  destruct Er as [[_ ->]|[_ [->| ->]]]; cbn; intros H; injection H as <- _;
    reflexivity.
Qed.

Lemma get_current_directory_raises t w e s' :
  _get_current_directory os fuel (t, w) = Raise e s' ->
  exists m er,
    master_fd t = Some m /\
    write os m pwd_bytes w = (inl er, snd s') /\
    e = os_error er /\ fst s' = t.
Proof.
  intros H. unfold _get_current_directory in H. rewrite bind_get_self in H.
  destruct (master_fd t) as [m|] eqn:Hm.
  2:{ unfold bind at 1 in H. cbn in H. discriminate H. }
  unfold bind at 1 in H. unfold bind at 1 in H.
  destruct (os_write os pwd_bytes (t, w)) as [n s1|e1 s1|] eqn:Ew.
  - unfold try_except in H.
    match type of H with
    | match match ?m with _ => _ end with _ => _ end = _ => destruct m
    end; [|cbn in H|discriminate H].
    + destruct a; discriminate H.
    + discriminate H.
  - injection H as <- <-.
    unfold os_write in Ew. rewrite bind_get_self, Hm in Ew.
    apply syscall_raises in Ew. destruct Ew as (er & Hw & -> & Ht).
    exists m, er. auto.
  - discriminate H.
Qed.

Lemma attempt_raises command timeout s e s' :
  attempt os fuel command timeout s = Raise e s' ->
  caught_by_execute e = true \/
  (e = UnicodeEncodeError /\ encode (command ++ [NL]) = None).
Proof.
  intros H. unfold attempt in H. unfold bind at 1 in H.
  destruct (_ensure_connection os fuel s) as [c s1|e1 s1|] eqn:Ec.
  2:{ injection H as <- _. left. unfold caught_by_execute.
      now rewrite (ensure_connection_raises _ _ _ Ec). }
  2:{ discriminate H. }
  destruct c; cbn [negb] in H.
  2:{ injection H as <- _. now left. }
  unfold bind at 1 in H.
  destruct (_clear_initial_output os fuel s1) as [[] [t2 w2]|e2 s2|] eqn:Ei.
  2:{ now apply clear_initial_output_returns in Ei. }
  2:{ discriminate H. }
  rewrite bind_get_self in H.
  destruct (master_fd t2) as [m|] eqn:Hm.
  2:{ injection H as <- _. now left. }
  unfold bind at 1 in H.
  destruct (_send_command_to_terminal os command (t2, w2)) as [[] s3|e3 s3|] eqn:Es.
  2:{ injection H as <- _. apply (send_command_raises command t2 w2 e3 s3); 
      [rewrite Hm; discriminate|exact Es]. }
  2:{ discriminate H. }
  unfold bind at 1 in H.
  destruct (_retrieve_command_output os fuel timeout s3) as [out s4|e4 s4|] eqn:Eo.
  2:{ injection H as <- _. left. exact (retrieve_command_output_raises _ _ _ _ Eo). }
  2:{ discriminate H. }
  unfold bind at 1 in H. destruct s4 as [t4 w4].
  destruct (_get_current_directory os fuel (t4, w4)) as [cwd s5|e5 s5|] eqn:Ed.
  - discriminate H.
  - injection H as <- _. left.
    apply get_current_directory_raises in Ed.
    destruct Ed as (m' & er & _ & _ & -> & _).
    unfold caught_by_execute. now rewrite os_error_is_OSError.
  - discriminate H.
Qed.

(** X12: [execute_command] raises an [OSError], a [RuntimeError] or, for a
    command that cannot be encoded, a [UnicodeEncodeError]; a [TypeError],
    a [termios.error] or a [UnicodeDecodeError] never leaves it. *)
Theorem execute_command_raises_only :
  forall command timeout s e s',
    execute_command os fuel command timeout s = Raise e s' ->
    is_OSError e = true \/ is_RuntimeError e = true \/
    (e = UnicodeEncodeError /\ encode (command ++ [NL]) = None).
Proof.
  intros command timeout s e s' H.
  assert (Hc : caught_by_execute e = true \/
               (e = UnicodeEncodeError /\ encode (command ++ [NL]) = None)).
  { unfold execute_command, try_except in H.
    destruct (attempt os fuel command timeout s) as [x s1|e1 s1|] eqn:E1;
      [discriminate H| |discriminate H].
    destruct (caught_by_execute e1) eqn:Ec.
    - unfold bind, asyncio_sleep in H.
      match type of H with
      | match ?m with _ => _ end = _ => destruct m as [x s2|e2 s2|] eqn:E2
      end; [discriminate H| |discriminate H].
      destruct (caught_by_execute e2) eqn:Ec2.
      + injection H as <- _. now left.
      + injection H as <- _. exact (attempt_raises _ _ _ _ _ E2).
    - injection H as <- _. exact (attempt_raises _ _ _ _ _ E1). }
  unfold caught_by_execute in Hc.
  destruct Hc as [Hc|Hc]; [|tauto].
  apply orb_true_iff in Hc. tauto.
Qed.

(** X13: [_get_current_directory] raises exactly when its write of
    ["pwd\n"] fails, and then it raises that failure with the session as it
    was; a failure of the read that follows never leaves it. *)
Theorem current_directory_raises_iff_write_fails :
  forall t w e s',
    _get_current_directory os fuel (t, w) = Raise e s' <->
    exists m er,
      master_fd t = Some m /\
      write os m pwd_bytes w = (inl er, snd s') /\
      e = os_error er /\ fst s' = t.
Proof.
  intros t w e [t' w']. split.
  - apply get_current_directory_raises.
  - intros (m & er & Hm & Hw & -> & Ht). cbn in Hw, Ht. subst t'.
    exact (get_current_directory_write_fails os fuel t w m er w' Hm Hw).
Qed.

(** X14: [_send_command_to_terminal] returns only when one write has
    taken the whole encoded command and its line break. *)
Theorem command_is_sent_whole :
  forall command s s',
    _send_command_to_terminal os command s = Ret tt s' ->
    exists m cmd_bytes,
      master_fd (fst s) = Some m /\
      encode (command ++ [NL]) = Some cmd_bytes /\
      write os m cmd_bytes (snd s)
      = (inr (Z.of_nat (List.length cmd_bytes)), snd s') /\
      fst s' = fst s.
Proof.
  intros command [t w] s' H. unfold _send_command_to_terminal in H.
  destruct (encode (command ++ [NL])) as [cmd_bytes|]; [|discriminate H].
  unfold bind, os_write in H. rewrite bind_get_self in H.
  destruct (master_fd t) as [m|] eqn:Hm; [|discriminate H].
  unfold syscall in H. cbn [fst snd] in H.
  destruct (write os m cmd_bytes w) as [[er|n] w1] eqn:Hw; [discriminate H|].
  destruct (n =? Z.of_nat (List.length cmd_bytes)) eqn:En; cbn in H;
    [|discriminate H].
  injection H as <-. apply Z.eqb_eq in En. subst n.
  exists m, cmd_bytes. cbn [fst snd]. auto.
Qed.

End Exceptions.

Lemma reader_raises_only_witness :
  (RuntimeError FileDescriptorIsNone = TimeoutError 10 \/
   RuntimeError FileDescriptorIsNone = RuntimeError NoDataAfterMaxRetries \/
   (RuntimeError FileDescriptorIsNone = RuntimeError FileDescriptorIsNone /\
    master_fd (fst (fresh, silent_at 0)) = None)) /\
  (TimeoutError 1 = RuntimeError TerminalNotStarted \/
   TimeoutError 1 = RuntimeError FileDescriptorIsNone \/
   TimeoutError 1 = TimeoutError 1 \/
   TimeoutError 1 = RuntimeError NoDataAfterMaxRetries) /\
  (TimeoutError 1 = RuntimeError TerminalNotStarted <->
   truthy_fd (master_fd (fst (running, silent_at 0)))
   && _process_alive (fst (running, silent_at 0)) = false).
Proof.
  split.
  - exact (proj1 (reader_raises_only sim_os 200%nat) 10 0 (reading 0)
             (fresh, silent_at 0) (RuntimeError FileDescriptorIsNone)
             (fresh, silent_at 0) ltac:(vm_compute; reflexivity)).
  - exact (proj2 (reader_raises_only sim_os 200%nat) 1 (running, silent_at 0)
             (TimeoutError 1) (running, silent_at 1100)
             ltac:(vm_compute; reflexivity)).
Defined.

Lemma probe_outcome_decides_witness :
  _ensure_connection sim_os 5 (running, kill_denied)
  = Raise PermissionError (running, silent_at 0).
Proof.
  exact (probe_outcome_decides sim_os 5%nat running kill_denied 100%positive
           (inl EPERM) (silent_at 0) eq_refl eq_refl eq_refl
           ltac:(discriminate)).
Defined.

Lemma execute_command_raises_only_witness :
  is_OSError UnicodeEncodeError = true \/
  is_RuntimeError UnicodeEncodeError = true \/
  (UnicodeEncodeError = UnicodeEncodeError /\
   encode ([55296%N] ++ [NL]) = None).
Proof.
  exact (execute_command_raises_only sim_os 200%nat [55296%N] 1
           (running, silent_at 0) UnicodeEncodeError (running, silent_at 1000)
           ltac:(vm_compute; reflexivity)).
Defined.

Lemma command_is_sent_whole_witness :
  exists m cmd_bytes,
    master_fd (fst (running, silent_at 0)) = Some m /\
    encode (lit "ls" ++ [NL]) = Some cmd_bytes /\
    write sim_os m cmd_bytes (snd (running, silent_at 0))
    = (inr (Z.of_nat (List.length cmd_bytes)), snd (running, silent_at 0)) /\
    fst (running, silent_at 0) = fst (running, silent_at 0).
Proof.
  exact (command_is_sent_whole sim_os (lit "ls") (running, silent_at 0)
           (running, silent_at 0) ltac:(vm_compute; reflexivity)).
Defined.

(** ** What the reader returns *)

Section ReaderResult.

Context {W : Type} (os : OS W) (fuel : nat).

Lemma scan_partial_nonempty bs : forall p, scan (Some p) bs <> [].
Proof.
  induction bs as [|b bs IH]; intros p; cbn [scan]; [discriminate|].
  destruct (_ && _).
  - destruct (more p) as [|[|n]]; try discriminate. apply IH.
  - discriminate.
Qed.

Lemma scan_nonempty b bs : scan None (b :: bs) <> [].
Proof.
  cbn [scan]. destruct (lead b); try discriminate. apply scan_partial_nonempty.
Qed.

Lemma all_some_nil {A} (l : list (option A)) : all_some l = Some [] -> l = [].
Proof.
  destruct l as [|[a|] l]; cbn [all_some]; [reflexivity| |discriminate].
  destruct (all_some l); discriminate.
Qed.

(** Decoding yields no text from no bytes only. *)
Lemma decode_nil b : decode b = Some [] -> b = [].
Proof.
  unfold decode, items. intros H. apply all_some_nil in H.
  destruct b as [|x b]; [reflexivity|].
  cbn [map] in H. now apply scan_nonempty in H.
Qed.

(** The last iteration of a loop whose body leaves the manager unchanged,
    with an invariant of the loop variables. *)
Lemma loop_last_invariant {L R} (Inv : L -> Prop) (body : L -> M W (L + R)) n :
  (forall l, unchanged (body l)) ->
  (forall l s l' s', Inv l -> body l s = Ret (inl l') s' -> Inv l') ->
  forall l t w x s',
    Inv l ->
    loop n body l (t, w) = Ret x s' ->
    exists l0 w0, Inv l0 /\ body l0 (t, w0) = Ret (inr x) s'.
Proof.
  intros Hb Hi. induction n as [|n IH]; intros l t w x s' Hl H;
    [discriminate H|].
  cbn [loop] in H. unfold bind in H.
  pose proof (Hb l t t w eq_refl) as Hu.
  destruct (body l (t, w)) as [[l'|y] [t1 w1]|e1 s1|] eqn:E;
    try discriminate H.
  - cbn in Hu. subst t1. exact (IH l' t w1 x s' (Hi _ _ _ _ Hl E) H).
  - injection H as <- <-. exists l, w. split; [exact Hl|exact E].
Qed.

Lemma read_iteration_keeps_chunks_nonempty timeout start_time l s l' s' :
  Forall (fun c : str => c <> []) (output_chunks l) ->
  read_iteration os timeout start_time l s = Ret (inl l') s' ->
  Forall (fun c : str => c <> []) (output_chunks l').
Proof.
  intros Hl H. destruct s as [t w].
  unfold read_iteration in H. rewrite bind_time in H.
  destruct (_ >? _).
  { destruct (falsy (output_chunks l)); discriminate H. }
  destruct (_ && _); [discriminate H|].
  unfold try_except2 in H. rewrite bind_get_self in H.
  destruct (master_fd t) as [m|] eqn:Em; [|discriminate H].
  unfold bind at 1 in H.
  destruct (os_read os 4096 (t, w)) as [chunk s1|e1 s1|] eqn:Er.
  - destruct chunk as [|x chunk]; cbn [falsy negb] in H.
    + destruct (_ >=? _).
      * destruct (falsy (output_chunks l)); discriminate H.
      * unfold bind, asyncio_sleep, ret in H. injection H as <- _. exact Hl.
    + destruct (decode (buffer l ++ x :: chunk)) as [text|] eqn:Ed.
      * injection H as <- _. cbn [output_chunks].
        apply Forall_app. split; [exact Hl|]. constructor; [|constructor].
        intros ->. apply decode_nil in Ed. now destruct (buffer l).
      * injection H as <- _. exact Hl.
  - destruct (is_BlockingIOError e1).
    + unfold bind, asyncio_sleep, ret in H. injection H as <- _. exact Hl.
    + destruct (is_OSError e1); discriminate H.
  - discriminate H.
Qed.

Lemma read_iteration_leaves timeout start_time l0 t w0 l s' :
  read_iteration os timeout start_time l0 (t, w0) = Ret (inr l) s' ->
  (falsy (output_chunks l) = false /\ output_chunks l = output_chunks l0) \/
  (exists m e w',
     master_fd t = Some m /\ read os m 4096 w0 = (inl e, w') /\
     e <> EAGAIN /\ s' = (t, w')).
Proof.
  intros H. unfold read_iteration in H. rewrite bind_time in H.
  destruct (_ >? _).
  { destruct (falsy (output_chunks l0)) eqn:Ef; [discriminate H|].
    injection H as <- _. now left. }
  destruct (_ && _) eqn:Eq.
  { injection H as <- _. left. apply andb_prop in Eq.
    destruct (falsy (output_chunks l0)); [now destruct Eq|auto]. }
  unfold try_except2 in H. rewrite bind_get_self in H.
  destruct (master_fd t) as [m|] eqn:Em; [|discriminate H].
  unfold bind at 1 in H.
  destruct (os_read os 4096 (t, w0)) as [chunk s1|e1 s1|] eqn:Er.
  - destruct chunk as [|x chunk]; cbn [falsy negb] in H.
    + destruct (_ >=? _).
      * destruct (falsy (output_chunks l0)) eqn:Ef; [discriminate H|].
        injection H as <- _. now left.
      * discriminate H.
    + destruct (decode _); discriminate H.
  - right. unfold os_read in Er. rewrite bind_get_self, Em in Er.
    unfold syscall in Er. cbn [fst snd] in Er.
    destruct (read os m 4096 w0) as [[e|b] w1] eqn:Hr; [|discriminate Er].
    injection Er as <- <-.
    exists m, e, w1. split; [reflexivity|]. split; [exact Hr|].
    destruct e; cbn in H; try discriminate H;
      (split; [discriminate|now injection H as _ <-]).
  - discriminate H.
Qed.

(** X15: [_read_terminal_output] returns the empty string only when its
    last read failed with an [OSError] other than [BlockingIOError]; every
    other way out of its loop returns some text. *)
Theorem reader_returns_text_unless_a_read_failed :
  forall timeout s out s',
    _read_terminal_output os fuel timeout s = Ret out s' ->
    out <> [] \/
    exists m w e,
      master_fd (fst s) = Some m /\
      read os m 4096 w = (inl e, snd s') /\ e <> EAGAIN.
Proof.
  intros timeout [t w] out s' H. cbn [fst].
  unfold _read_terminal_output in H. rewrite bind_get_self in H.
  destruct (_ || _); [discriminate H|].
  rewrite bind_time in H. unfold bind in H.
  match type of H with
  | match loop fuel ?body ?l0 _ with _ => _ end = _ =>
      destruct (loop fuel body l0 (t, w)) as [l s2|e2 s2|] eqn:El;
        [|discriminate H..];
        destruct (loop_last_invariant
                    (fun l => Forall (fun c : str => c <> []) (output_chunks l))
                    body fuel
                    (unchanged_read_iteration os timeout _)
                    (read_iteration_keeps_chunks_nonempty timeout _)
                    l0 t w l s2 (Forall_nil _) El)
          as (l1 & w1 & Hinv & E)
  end.
  unfold ret in H. injection H as <- <-.
  destruct (read_iteration_leaves _ _ _ _ _ _ _ E)
    as [[Hf Hc]|(m & e & w' & Hm & Hr & He & ->)].
  - left. rewrite <- Hc in Hinv.
    destruct (output_chunks l) as [|c chunks]; [discriminate Hf|].
    inversion Hinv as [|? ? Hne _]; subst.
    destruct (negb (falsy (buffer l))); cbn [app List.concat];
      destruct c; [congruence|discriminate|congruence|discriminate].
  - right. exists m, w1, e. cbn [snd]. repeat split; assumption.
Qed.

(** X16: [_retrieve_command_output] returns and raises what
    [_read_terminal_output] does, in the same state: its handler raises the
    [TimeoutError] it caught again. *)
Theorem retrieve_is_the_reader :
  forall timeout s,
    _retrieve_command_output os fuel timeout s
    = _read_terminal_output os fuel timeout s.
Proof.
  intros timeout s. unfold _retrieve_command_output, try_except.
  destruct (_read_terminal_output os fuel timeout s) as [x s1|e s1|];
    try reflexivity.
  now destruct (is_TimeoutError e).
Qed.


End ReaderResult.

Lemma reader_returns_text_unless_a_read_failed_witness :
  ([] : str) <> [] \/
  exists m w e,
    master_fd (fst (running, mkWorld 0 [] [] (Some EIO) [] [] [])) = Some m /\
    read sim_os m 4096 w
    = (inl e, snd (running, mkWorld 0 [] [] (Some EIO) [] [] [])) /\
    e <> EAGAIN.
Proof.
  exact (reader_returns_text_unless_a_read_failed sim_os 5%nat 10
           (running, mkWorld 0 [] [] (Some EIO) [] [] []) []
           (running, mkWorld 0 [] [] (Some EIO) [] [] [])
           ltac:(vm_compute; reflexivity)).
Defined.

Import Bot.

(** ** The chat front end: [_parse_message] *)

Section Parse.

(** A greedy repetition followed by nothing takes the longest run. *)
Lemma star_longest p s :
  exists body rest,
    s = body ++ rest /\ forallb p body = true /\
    star p s Some = Some rest /\
    (forall c, hd_error rest = Some c -> p c = false).
Proof.
  induction s as [|c s (body & rest & Hs & Hb & Hr & Hh)].
  - exists [], []. repeat split. discriminate.
  - cbn [star]. destruct (p c) eqn:Hc.
    + exists (c :: body), rest. rewrite Hr. cbn. rewrite Hc, Hb, Hs. auto.
    + exists [], (c :: s). repeat split. intros d H. injection H as <-. exact Hc.
Qed.

Lemma special_key_match s rest :
  match_at special_key s = Some rest ->
  exists c body,
    s = 94%N :: c :: body ++ rest /\
    forallb nonspace (c :: body) = true.
Proof.
  unfold match_at, special_key, lit1. cbn [run].
  destruct s as [|a s]; [discriminate|].
  destruct (N.eqb_spec 94 a) as [<-|]; [|discriminate].
  destruct s as [|c s]; [discriminate|].
  destruct (nonspace c) eqn:Hc; [|discriminate].
  destruct (star_longest nonspace s) as (body & rest' & Hs & Hb & Hr & _).
  rewrite Hr. intros H. injection H as <-.
  exists c, body. cbn. rewrite Hc, Hb, Hs. auto.
Qed.

Lemma special_key_no_match c s :
  match_at special_key (94%N :: c :: s) = None -> isspace c = true.
Proof.
  unfold match_at, special_key, lit1, nonspace. cbn [run]. cbn [N.eqb Pos.eqb].
  destruct (isspace c); [reflexivity|]. cbn [negb].
  destruct (star_longest (fun c => negb (isspace c)) s) as (body & rest' & _ & _ & Hr & _).
  rewrite Hr. discriminate.
Qed.

Lemma firstn_length_app {A} (l r : list A) :
  firstn (List.length l) (l ++ r) = l.
Proof. induction l as [|a l IH]; cbn; [now destruct r|now rewrite IH]. Qed.

Lemma findall_keys s :
  forall skip key,
    In key (findall_from special_key skip s) ->
    exists c body,
      key = 94%N :: c :: body /\ forallb nonspace (c :: body) = true.
Proof.
  induction s as [|a s IH]; intros skip key H; [destruct H|].
  cbn [findall_from] in H. destruct skip as [|n]; [|exact (IH n key H)].
  destruct (match_at special_key (a :: s)) as [rest|] eqn:Em;
    [|exact (IH _ key H)].
  destruct (special_key_match _ _ Em) as (c & body & Hs & Hb).
  assert (Hl : (List.length (a :: s) - List.length rest
                = S (S (List.length body)))%nat).
  { rewrite Hs. cbn [List.length]. rewrite length_app. lia. }
  rewrite Hl in H. destruct H as [<-|H]; [|exact (IH _ key H)].
  exists c, body. split; [|exact Hb]. rewrite Hs.
  change (94%N :: c :: body ++ rest) with ((94%N :: c :: body) ++ rest).
  apply (firstn_length_app (94%N :: c :: body) rest).
Qed.

Lemma sub_keeps_space d s :
  isspace d = true ->
  sub_from special_key O (d :: s) = d :: sub_from special_key O s.
Proof.
  intros Hd. cbn [sub_from].
  destruct (match_at special_key (d :: s)) as [rest|] eqn:Em; [|reflexivity].
  destruct (special_key_match _ _ Em) as (c & body & Hs & _).
  injection Hs as -> _. discriminate Hd.
Qed.

Lemma key_free_cons a u :
  key_free u ->
  (a = 94%N -> forall x, hd_error u = Some x -> isspace x = true) ->
  key_free (a :: u).
Proof.
  intros Hu Ha [|b pre] x post H.
  - injection H as -> ->. exact (Ha eq_refl x eq_refl).
  - injection H as _ ->. exact (Hu pre x post eq_refl).
Qed.

Lemma sub_key_free n :
  forall s, (List.length s <= n)%nat -> key_free (sub_from special_key O s).
Proof.
  induction n as [|n IH]; intros s Hn.
  { destruct s; [|cbn in Hn; lia]. intros [|? ?] ? ? H; discriminate H. }
  destruct s as [|a s].
  { intros [|? ?] ? ? H; discriminate H. }
  cbn [List.length] in Hn.
  cbn [sub_from].
  destruct (match_at special_key (a :: s)) as [rest|] eqn:Em.
  - destruct (special_key_match _ _ Em) as (c & body & Hs & Hb).
    assert (Hl : (List.length (a :: s) - List.length rest
                  = S (S (List.length body)))%nat).
    { rewrite Hs. cbn [List.length]. rewrite length_app. lia. }
    rewrite Hl. injection Hs as -> ->.
    change (c :: body ++ rest) with ((c :: body) ++ rest).
    change (S (List.length body)) with (List.length (c :: body)).
    rewrite sub_from_skip. apply IH.
    cbn [List.length] in Hn. rewrite length_app in Hn. lia.
  - apply key_free_cons; [apply IH; lia|].
    intros -> x Hx. destruct s as [|y s]; [discriminate Hx|].
    pose proof (special_key_no_match _ _ Em) as Hy.
    rewrite (sub_keeps_space _ _ Hy) in Hx. injection Hx as <-. exact Hy.
Qed.

Lemma strip_infix (s : str) : exists a b, s = a ++ strip s ++ b.
Proof.
  unfold strip. destruct (lstrip_suffix s) as [a Ha].
  destruct (rstrip_prefix (lstrip s)) as [b Hb].
  exists a, b. now rewrite <- Hb.
Qed.

Lemma key_free_infix a u b : key_free (a ++ u ++ b) -> key_free u.
Proof.
  intros H pre x post ->. apply (H (a ++ pre) x (post ++ b)).
  now rewrite <- !app_assoc.
Qed.

Lemma key_free_findall u :
  key_free u -> findall_from special_key O u = [].
Proof.
  induction u as [|a u IH]; intros Hu; [reflexivity|].
  cbn [findall_from].
  assert (Hu' : key_free u).
  { intros pre x post ->. exact (Hu (a :: pre) x post eq_refl). }
  destruct (match_at special_key (a :: u)) as [rest|] eqn:Em; [|exact (IH Hu')].
  destruct (special_key_match _ _ Em) as (c & body & Hs & Hb).
  pose proof (Hu [] c (body ++ rest) Hs) as Hc.
  cbn in Hb. unfold nonspace in Hb at 1. rewrite Hc in Hb. discriminate Hb.
Qed.

(** X17: a command returned by [_parse_message] is not empty, has no
    whitespace at either end and holds no special key: parsing it again
    finds none. *)
Theorem parsed_command_is_stripped_and_key_free :
  forall tag text command keys,
    _parse_message tag text = (Some command, keys) ->
    command <> [] /\
    (forall c, hd_error command = Some c -> isspace c = false) /\
    (forall c, hd_error (rev command) = Some c -> isspace c = false) /\
    findall special_key command = [].
Proof.
  intros tag text command keys H. unfold _parse_message in H.
  destruct (negb (startswith tag text)); [discriminate H|].
  cbv zeta in H.
  destruct (falsy _) eqn:Hf; [discriminate H|].
  injection H as <- _.
  set (t := strip (skipn (List.length tag) text)) in *.
  split; [intros E; rewrite E in Hf; discriminate Hf|].
  split; [apply strip_head|]. split; [apply strip_last|].
  apply key_free_findall.
  destruct (strip_infix (sub_empty special_key t)) as (a & b & E).
  apply (key_free_infix a _ b). rewrite <- E.
  apply (sub_key_free (List.length t)). lia.
Qed.

(** X18: every special key returned by [_parse_message] comes from a
    tagged message and is a [^] followed by one or more characters that are
    not whitespace. *)
Theorem parsed_keys_are_caret_words :
  forall tag text key,
    In key (snd (_parse_message tag text)) ->
    startswith tag text = true /\
    exists c body,
      key = 94%N :: c :: body /\ forallb nonspace (c :: body) = true.
Proof.
  intros tag text key H. unfold _parse_message in H.
  destruct (startswith tag text); cbn [negb] in H; [|destruct H].
  split; [reflexivity|]. cbv zeta in H. cbn [snd] in H.
  exact (findall_keys _ _ _ H).
Qed.

End Parse.

Lemma parsed_command_is_stripped_and_key_free_witness :
  lit "ls  -la" <> [] /\
  (forall c, hd_error (lit "ls  -la") = Some c -> isspace c = false) /\
  (forall c, hd_error (rev (lit "ls  -la")) = Some c -> isspace c = false) /\
  findall special_key (lit "ls  -la") = [].
Proof.
  exact (parsed_command_is_stripped_and_key_free (lit "@bot")
           (lit "@bot ls ^C -la") (lit "ls  -la") [lit "^C"]
           ltac:(vm_compute; reflexivity)).
Defined.

Lemma parsed_keys_are_caret_words_witness :
  startswith (lit "@bot") (lit "@bot ls ^C -la") = true /\
  exists c body,
    lit "^C" = 94%N :: c :: body /\ forallb nonspace (c :: body) = true.
Proof.
  exact (parsed_keys_are_caret_words (lit "@bot") (lit "@bot ls ^C -la")
           (lit "^C") ltac:(vm_compute; left; reflexivity)).
Defined.

(** ** The chat front end: [_send_message] *)

Section Chunks.

Variable cfg : Config.

(** One round of [while text:]. *)
Lemma send_message_round fuel a text :
  _send_message cfg (S fuel) (a :: text)
  = option_map
      (cons (mkCall (2000000000 + peer_id cfg)
               (slice_to (max_output_length cfg) (a :: text)) 0))
      (_send_message cfg fuel (slice_from (max_output_length cfg) (a :: text))).
Proof. reflexivity. Qed.

Lemma slice_rejoins n (s : str) : slice_to n s ++ slice_from n s = s.
Proof. apply firstn_skipn. Qed.

Lemma slice_index_le n len : (slice_index n len <= len)%nat.
Proof. unfold slice_index. destruct (n <? 0) eqn:E; [apply Z.ltb_lt in E|]; lia. Qed.

Lemma slice_index_positive n len :
  0 < n -> (0 < len)%nat ->
  (0 < slice_index n len)%nat /\ Z.of_nat (slice_index n len) <= n /\
  ((slice_index n len < len)%nat -> Z.of_nat (slice_index n len) = n).
Proof.
  intros Hn Hl. unfold slice_index.
  destruct (n <? 0) eqn:E; [apply Z.ltb_lt in E; lia|]. lia.
Qed.

Lemma slice_index_stuck n len :
  n <= 0 -> (0 < len)%nat -> (slice_index n len < len)%nat.
Proof.
  intros Hn Hl. unfold slice_index.
  destruct (n <? 0) eqn:E; [apply Z.ltb_lt in E|apply Z.ltb_ge in E]; lia.
Qed.

(** X19: with a positive [max_output_length], [_send_message] ends after at
    most one round per character; the chunks sent, in order, make up the
    text; each goes to the peer [2000000000 + peer_id] with [random_id] 0,
    is not empty and no longer than the maximum, and each but the last has
    exactly the maximum length. *)
Theorem message_is_sent_in_chunks :
  forall fuel text,
    0 < max_output_length cfg ->
    (List.length text <= fuel)%nat ->
    exists calls,
      _send_message cfg fuel text = Some calls /\
      List.concat (map call_message calls) = text /\
      Forall (fun c => call_peer_id c = 2000000000 + peer_id cfg /\
                       call_random_id c = 0 /\
                       call_message c <> [] /\
                       Z.of_nat (List.length (call_message c))
                       <= max_output_length cfg) calls /\
      (forall i c, nth_error calls i = Some c ->
                   (S i < List.length calls)%nat ->
                   Z.of_nat (List.length (call_message c))
                   = max_output_length cfg).
Proof.
  intros fuel text Hmax. revert text.
  induction fuel as [|fuel IH]; intros text Hlen.
  { destruct text; [|cbn [List.length] in Hlen; lia]. exists [].
    cbn [_send_message map List.concat].
    repeat split; [constructor|intros [|i] c H; discriminate H]. }
  destruct text as [|a text'].
  { exists []. cbn [_send_message map List.concat].
    repeat split; [constructor|intros [|i] c H; discriminate H]. }
  rewrite send_message_round. remember (a :: text') as text eqn:Et.
  set (peer := 2000000000 + peer_id cfg) in *.
  assert (Hpos : (0 < List.length text)%nat)
    by (rewrite Et; cbn [List.length]; lia).
  destruct (slice_index_positive _ _ Hmax Hpos) as (Hk & Hle & Hfull).
  set (k := slice_index (max_output_length cfg) (List.length text)) in *.
  pose proof (slice_index_le (max_output_length cfg) (List.length text)) as Hkl.
  fold k in Hkl.
  assert (Hchunk : List.length (slice_to (max_output_length cfg) text) = k).
  { unfold slice_to. fold k. rewrite length_firstn. lia. }
  assert (Hrest : List.length (slice_from (max_output_length cfg) text)
                  = (List.length text - k)%nat).
  { unfold slice_from. fold k. apply length_skipn. }
  destruct (IH (slice_from (max_output_length cfg) text)) as
    (calls & Hs & Hc & Hall & Hinner); [lia|].
  rewrite Hs. cbn [option_map].
  eexists. split; [reflexivity|]. cbn [map List.concat call_message].
  rewrite Hc. split; [apply slice_rejoins|]. split.
  - constructor; [|exact Hall]. cbn [call_peer_id call_random_id call_message].
    repeat split; [|lia].
    intros E. rewrite E in Hchunk. cbn [List.length] in Hchunk. lia.
  - intros [|i] c Hn Hi.
    + injection Hn as <-. cbn [call_message]. rewrite Hchunk.
      apply Hfull. cbn [List.length] in Hi.
      destruct calls as [|c1 calls]; [cbn [List.length] in Hi; lia|].
      cbn [map List.concat] in Hc.
      apply (f_equal (@List.length _)) in Hc. rewrite Hrest in Hc.
      inversion Hall as [|? ? (_ & _ & Hne & _) _]; subst.
      rewrite length_app in Hc.
      assert (0 < List.length (call_message c1))%nat
        by (destruct (call_message c1); [congruence|cbn [List.length]; lia]).
      lia.
    + cbn [nth_error] in Hn. cbn [List.length] in Hi.
      apply (Hinner i c Hn). lia.
Qed.

(** X20: with a [max_output_length] of 0 or less, the loop of
    [_send_message] never ends on a text that is not empty. *)
Theorem message_is_never_sent_with_no_room :
  forall fuel text,
    max_output_length cfg <= 0 ->
    text <> [] ->
    _send_message cfg fuel text = None.
Proof.
  intros fuel text Hmax. revert text.
  induction fuel as [|fuel IH]; intros text Hne.
  { destruct text; [congruence|reflexivity]. }
  destruct text as [|a text']; [congruence|].
  rewrite send_message_round. remember (a :: text') as text eqn:Et.
  rewrite IH; [reflexivity|].
  assert (Hpos : (0 < List.length text)%nat)
    by (rewrite Et; cbn [List.length]; lia).
  pose proof (slice_index_stuck _ _ Hmax Hpos) as Hk.
  intros E. apply (f_equal (@List.length _)) in E.
  unfold slice_from in E. rewrite length_skipn in E.
  cbn [List.length] in E. lia.
Qed.

(** With room for one character at least, the loop ends and what it sends
    makes up the text. *)
Lemma send_message_returns fuel text :
  0 < max_output_length cfg ->
  (List.length text <= fuel)%nat ->
  exists calls,
    _send_message cfg fuel text = Some calls /\
    List.concat (map call_message calls) = text /\
    (text <> [] -> calls <> []).
Proof.
  intros Hmax. revert text.
  induction fuel as [|fuel IH]; intros text Hlen.
  { destruct text; [|cbn [List.length] in Hlen; lia]. exists [].
    cbn [_send_message map List.concat]. repeat split. congruence. }
  destruct text as [|a text'].
  { exists []. cbn [_send_message map List.concat]. repeat split.
    congruence. }
  rewrite send_message_round. remember (a :: text') as text eqn:Et.
  set (peer := 2000000000 + peer_id cfg) in *.
  assert (Hpos : (0 < List.length text)%nat)
    by (rewrite Et; cbn [List.length]; lia).
  destruct (slice_index_positive _ _ Hmax Hpos) as (Hk & _ & _).
  destruct (IH (slice_from (max_output_length cfg) text)) as
    (calls & Hs & Hc & _).
  { unfold slice_from. rewrite length_skipn. lia. }
  rewrite Hs. cbn [option_map].
  eexists. split; [reflexivity|]. cbn [map List.concat call_message].
  rewrite Hc. split; [apply slice_rejoins|]. discriminate.
Qed.

End Chunks.

Lemma message_is_sent_in_chunks_witness :
  exists calls,
    _send_message short_messages 11 (lit "hello world") = Some calls /\
    List.concat (map call_message calls) = lit "hello world" /\
    Forall (fun c => call_peer_id c = 2000000000 + peer_id short_messages /\
                     call_random_id c = 0 /\
                     call_message c <> [] /\
                     Z.of_nat (List.length (call_message c))
                     <= max_output_length short_messages) calls /\
    (forall i c, nth_error calls i = Some c ->
                 (S i < List.length calls)%nat ->
                 Z.of_nat (List.length (call_message c))
                 = max_output_length short_messages).
Proof.
  exact (message_is_sent_in_chunks short_messages 11%nat (lit "hello world")
           ltac:(vm_compute; reflexivity) ltac:(vm_compute; lia)).
Defined.

Lemma message_is_never_sent_with_no_room_witness :
  _send_message no_room 1000 (lit "hello") = None.
Proof.
  exact (message_is_never_sent_with_no_room no_room 1000%nat (lit "hello")
           ltac:(vm_compute; discriminate) ltac:(discriminate)).
Defined.

(** ** The chat front end: [_handle_message] *)

Section Handle.

Context (cfg : Config) {W : Type} (os : OS W) (describe : exn -> str)
  (fuel : nat).

(** X21: a message that does not start with the bot tag is ignored: the
    terminal is not used and nothing is sent. *)
Theorem untagged_message_is_ignored :
  forall text s,
    startswith (bot_tag cfg) text = false ->
    _handle_message cfg os describe fuel text s = Done s [].
Proof.
  intros text s H. unfold _handle_message, _parse_message. now rewrite H.
Qed.

(** X22: a message with a special key never reaches the terminal: looking
    up [handle_special_key] fails at the first key, the command of the
    message is not run, and the error notice is what is sent. *)
Theorem special_key_fails_the_message :
  forall text s,
    snd (_parse_message (bot_tag cfg) text) <> [] ->
    _handle_message cfg os describe fuel text s
    = send cfg fuel (error_prefix ++ no_attribute) s.
Proof.
  intros text s H. unfold _handle_message.
  destruct (_parse_message (bot_tag cfg) text) as [command keys].
  cbn [snd] in H. destruct keys as [|key keys]; [congruence|].
  cbn [falsy]. rewrite andb_false_r. reflexivity.
Qed.

(** A command returned by the parser is not empty. *)
Lemma parsed_command_is_true tag text c keys :
  _parse_message tag text = (Some c, keys) -> falsy c = false.
Proof.
  unfold _parse_message. destruct (negb (startswith tag text)); [discriminate|].
  cbv zeta. destruct (falsy _) eqn:Hf; [discriminate|].
  intros H. injection H as <- _. exact Hf.
Qed.

(** X23: a failure of [execute_command] is answered by a notice. For a
    tagged message with a command and no special key, when
    [execute_command] raises, [_handle_message] raises nothing and leaves
    the session as [execute_command] left it; with a positive
    [max_output_length] it sends, in one message at least, the timeout
    notice for a [TimeoutError] and the error notice with [str(e)] for any
    other exception. *)
Theorem handler_answers_every_failure :
  forall text s c e s',
    0 < max_output_length cfg ->
    _parse_message (bot_tag cfg) text = (Some c, []) ->
    execute_command os fuel c (command_timeout cfg) s = Raise e s' ->
    (List.length (if is_TimeoutError e then timeout_notice
                  else error_prefix ++ describe e) <= fuel)%nat ->
    exists calls,
      _handle_message cfg os describe fuel text s = Done s' calls /\
      calls <> [] /\
      List.concat (map call_message calls)
      = (if is_TimeoutError e then timeout_notice
         else error_prefix ++ describe e).
Proof.
  intros text s c e s' Hmax Hp He Hlen.
  pose proof (parsed_command_is_true _ _ _ _ Hp) as Hc.
  set (notice := if is_TimeoutError e then timeout_notice
                 else error_prefix ++ describe e) in *.
  destruct (send_message_returns cfg fuel notice Hmax Hlen)
    as (calls & Hs & Hcat & Hne).
  exists calls. split; [|split; [|exact Hcat]].
  - unfold _handle_message. rewrite Hp, Hc. cbn [andb].
    unfold handle_body, press_keys. rewrite Hc, He.
    destruct e; unfold send; subst notice; cbn [is_TimeoutError] in Hs;
      rewrite Hs; reflexivity.
  - apply Hne. subst notice. destruct (is_TimeoutError e); discriminate.
Qed.

End Handle.

Lemma untagged_message_is_ignored_witness :
  _handle_message short_messages sim_os (fun _ => []) 200 (lit "hello")
    (running, silent_at 0)
  = Done (running, silent_at 0) [].
Proof.
  exact (untagged_message_is_ignored short_messages sim_os (fun _ => [])
           200%nat (lit "hello") (running, silent_at 0) eq_refl).
Defined.

Lemma special_key_fails_the_message_witness :
  _handle_message short_messages sim_os (fun _ => []) 200 (lit "@bot ls ^C")
    (running, silent_at 0)
  = send short_messages 200 (error_prefix ++ no_attribute)
      (running, silent_at 0).
Proof.
  exact (special_key_fails_the_message short_messages sim_os (fun _ => [])
           200%nat (lit "@bot ls ^C") (running, silent_at 0)
           ltac:(vm_compute; discriminate)).
Defined.

Lemma handler_answers_every_failure_witness :
  exists calls,
    _handle_message hasty sim_os (fun _ => []) 200 (lit "@bot ls")
      (running, silent_at 0)
    = Done (running, silent_at 5200) calls /\
    calls <> [] /\
    List.concat (map call_message calls)
    = (if is_TimeoutError (TimeoutError 1) then timeout_notice
       else error_prefix ++ []).
Proof.
  exact (handler_answers_every_failure hasty sim_os (fun _ => []) 200%nat
           (lit "@bot ls") (running, silent_at 0) (lit "ls") (TimeoutError 1)
           (running, silent_at 5200)
           ltac:(vm_compute; reflexivity) ltac:(vm_compute; reflexivity)
           ltac:(vm_compute; reflexivity) ltac:(vm_compute; lia)).
Defined.
